(** * Jaguza back end: order placement, pricing and payment webhooks

    A shallow embedding of the transactional core of the Jaguza store API:

    - [controllers/webhook.controller.js]  (Stripe webhook processor),
    - [controllers/order.controller.js]    (order placement, both atomicity paths),
    - [controllers/coupon.controller.js], [models/coupon.model.js],
    - [utils/shipping.utils.js]            (shipping and tax),
    - [controllers/admin.controller.js]    (operator status updates),
    - [models/order.model.js], [models/webhookEvent.model.js].

    MongoDB collections are finite maps keyed by document id.  JavaScript
    numbers that hold money are IEEE 754 doubles ([Js.number]): every
    operation on them rounds to the nearest double, and overflow and [NaN]
    are values.  Counters, quantities and amounts in minor currency units
    are integers ([Z]).  [new Date()] is a reading of a clock handed to each
    request. *)

From Stdlib Require Import ZArith QArith Qround Qreduction Qpower Qabs Lqa.
From Stdlib Require Import String Ascii List Lia Bool.
From stdpp Require Import base option gmap strings list fin_maps.

Open Scope Z_scope.

(** ** JavaScript helpers *)

Module Js.

(** Text is a sequence of code units, one [ascii] each.  On text of ASCII
    characters (code units below 128: country and currency codes, coupon
    codes, hexadecimal object ids) the two functions below are
    [String.prototype.toLowerCase] and [toUpperCase].  The Unicode case
    mapping of other characters is not described: they are left as they
    are, and a statement that depends on the case of arbitrary text carries
    [isAscii] as a hypothesis. *)
Definition lowerChar (c : ascii) : ascii :=
  let n := nat_of_ascii c in
  if (Nat.leb 65 n && Nat.leb n 90)%bool then ascii_of_nat (n + 32) else c.

Definition upperChar (c : ascii) : ascii :=
  let n := nat_of_ascii c in
  if (Nat.leb 97 n && Nat.leb n 122)%bool then ascii_of_nat (n - 32) else c.

Fixpoint toLowerCase (s : string) : string :=
  match s with
  | EmptyString => EmptyString
  | String c r => String (lowerChar c) (toLowerCase r)
  end.

Fixpoint toUpperCase (s : string) : string :=
  match s with
  | EmptyString => EmptyString
  | String c r => String (upperChar c) (toUpperCase r)
  end.

(** Every code unit of the text is below 128. *)
Fixpoint isAscii (s : string) : bool :=
  match s with
  | EmptyString => true
  | String c r => Nat.ltb (nat_of_ascii c) 128 && isAscii r
  end.

(** White space and line terminators among the ASCII characters: tab, line
    feed, vertical tab, form feed, carriage return and space. *)
Definition isSpace (c : ascii) : bool :=
  let n := nat_of_ascii c in
  (Nat.leb 9 n && Nat.leb n 13) || Nat.eqb n 32.

Fixpoint trimStart (s : string) : string :=
  match s with
  | EmptyString => EmptyString
  | String c r => if isSpace c then trimStart r else s
  end.

Fixpoint trimEnd (s : string) : string :=
  match s with
  | EmptyString => EmptyString
  | String c r =>
    match trimEnd r with
    | EmptyString => if isSpace c then EmptyString else String c EmptyString
    | r' => String c r'
    end
  end.

(** [String.prototype.trim], on ASCII text. *)
Definition trim (s : string) : string := trimEnd (trimStart s).

(** Truthiness of a string value: only the empty string is falsy. *)
Definition truthy (s : string) : bool :=
  match s with EmptyString => false | _ => true end.

(** Truthiness of a possibly missing string ([undefined] and [null] are falsy). *)
Definition truthyOpt (o : option string) : bool :=
  match o with Some s => truthy s | None => false end.

(** [a || b] on possibly missing strings. *)
Definition or_else (a b : option string) : option string :=
  if truthyOpt a then a else b.

(** A thrown [Error]: its [name] and [message]. *)
Record JsError := { errName : string; errMessage : string }.

(** [String(err)], that is [Error.prototype.toString]. *)
Definition errToString (e : JsError) : string :=
  match errName e, errMessage e with
  | EmptyString, m => m
  | n, EmptyString => n
  | n, m => (n ++ ": " ++ m)%string
  end.

Definition mkError (m : string) : JsError := {| errName := "Error"; errMessage := m |}.

(** *** Numbers *)

(** A JavaScript number is an IEEE 754 double.  A finite double is carried
    as the rational it denotes; the two zeros are not told apart (nothing
    below divides by a zero or prints one). *)
Inductive number := Fin (q : Q) | PosInf | NegInf | NaN.

Declare Scope js_scope.
Delimit Scope js_scope with js.
Bind Scope js_scope with number.

(** The exponent [e] with [2^e <= x < 2^(e+1)], for [x > 0]. *)
Definition ilog2 (x : Q) : Z :=
  let k := Z.log2 (Qnum x) - Z.log2 (Z.pos (Qden x)) in
  if Qle_bool (2 ^ k) x then k else k - 1.

(** The nearest integer, a tie going to the even one. *)
Definition roundEven (x : Q) : Z :=
  let f := Qfloor x in
  match (x - inject_Z f ?= 1 # 2)%Q with
  | Lt => f
  | Gt => f + 1
  | Eq => if Z.even f then f else f + 1
  end.

(** The doubles around [x > 0] are [2 ^ ulpExp x] apart: 53 significant
    bits, and no exponent below that of the subnormals. *)
Definition ulpExp (x : Q) : Z := Z.max (ilog2 x - 52) (-1074).

(** The multiple of that spacing nearest to [x > 0]. *)
Definition nearest (x : Q) : Q :=
  let g := (2 ^ ulpExp x)%Q in
  Qred (inject_Z (roundEven (x / g)) * g).

(** The double nearest to a real number (round to nearest, ties to even);
    what lies beyond the largest double becomes an infinity.  Every
    arithmetic operation returns the exact result rounded this way, and a
    decimal literal or JSON number denotes its value rounded this way. *)
Definition round64 (x : Q) : number :=
  match (x ?= 0)%Q with
  | Eq => Fin 0
  | Gt => let y := nearest x in
          if Qle_bool (2 ^ 1024) y then PosInf else Fin y
  | Lt => let y := nearest (- x) in
          if Qle_bool (2 ^ 1024) y then NegInf else Fin (- y)
  end.

(** The number a decimal literal or a JSON number denotes. *)
Definition decimal (d : Q) : number := round64 d.

(** An integer as a number. *)
Definition ofZ (n : Z) : number := round64 (inject_Z n).

Definition isNaN (a : number) : bool :=
  match a with NaN => true | _ => false end.

(** [Number.isFinite]. *)
Definition isFinite (a : number) : bool :=
  match a with Fin _ => true | _ => false end.

(** [-a]. *)
Definition neg (a : number) : number :=
  match a with
  | Fin x => Fin (- x)
  | PosInf => NegInf
  | NegInf => PosInf
  | NaN => NaN
  end.

(** The sign of a number: 1, -1, or 0 for a zero and for [NaN]. *)
Definition signum (a : number) : Z :=
  match a with
  | Fin x => Z.sgn (Qnum x)
  | PosInf => 1
  | NegInf => -1
  | NaN => 0
  end.

(** [a + b], [a - b], [a * b], [a / b]. *)
Definition add (a b : number) : number :=
  match a, b with
  | NaN, _ | _, NaN => NaN
  | Fin x, Fin y => round64 (x + y)
  | PosInf, NegInf | NegInf, PosInf => NaN
  | PosInf, _ | _, PosInf => PosInf
  | NegInf, _ | _, NegInf => NegInf
  end.

Definition sub (a b : number) : number := add a (neg b).

Definition mul (a b : number) : number :=
  match a, b with
  | NaN, _ | _, NaN => NaN
  | Fin x, Fin y => round64 (x * y)
  | _, _ =>
    match signum a * signum b with
    | Z.pos _ => PosInf
    | Z.neg _ => NegInf
    | Z0 => NaN
    end
  end.

Definition div (a b : number) : number :=
  match a, b with
  | NaN, _ | _, NaN => NaN
  | Fin x, Fin y =>
    if Qeq_bool y 0
    then match signum a with Z.pos _ => PosInf | Z.neg _ => NegInf | Z0 => NaN end
    else round64 (x / y)
  | Fin _, _ => Fin 0
  | _, Fin y =>
    match signum a * (if Qeq_bool y 0 then 1 else signum b) with
    | Z.pos _ => PosInf
    | Z.neg _ => NegInf
    | Z0 => NaN
    end
  | _, _ => NaN
  end.

(** [a <= b] and [a < b]; a comparison with [NaN] is false. *)
Definition leb (a b : number) : bool :=
  match a, b with
  | NaN, _ | _, NaN => false
  | Fin x, Fin y => Qle_bool x y
  | NegInf, _ | _, PosInf => true
  | _, _ => false
  end.

Definition ltb (a b : number) : bool :=
  match a, b with
  | NaN, _ | _, NaN => false
  | Fin x, Fin y => negb (Qle_bool y x)
  | NegInf, NegInf | PosInf, PosInf => false
  | NegInf, _ | _, PosInf => true
  | _, _ => false
  end.

(** [a >= b] and [a > b]. *)
Definition geb (a b : number) : bool := leb b a.
Definition gtb (a b : number) : bool := ltb b a.

Definition le (a b : number) : Prop := leb a b = true.
Definition lt (a b : number) : Prop := ltb a b = true.

Notation "a + b" := (add a b) : js_scope.
Notation "a - b" := (sub a b) : js_scope.
Notation "a * b" := (mul a b) : js_scope.
Notation "a / b" := (div a b) : js_scope.
Notation "a <= b" := (le a b) : js_scope.
Notation "a < b" := (lt a b) : js_scope.

(** A number is falsy when it is a zero or [NaN]; [a || d]. *)
Definition falsy (a : number) : bool :=
  match a with
  | Fin x => Qeq_bool x 0
  | NaN => true
  | _ => false
  end.

Definition orNum (a d : number) : number := if falsy a then d else a.

(** [Math.min(a, b)] and [Math.max(a, b)]. *)
Definition min (a b : number) : number :=
  if isNaN a || isNaN b then NaN else if leb a b then a else b.

Definition max (a b : number) : number :=
  if isNaN a || isNaN b then NaN else if leb a b then b else a.

(** The multiple of 1/100 nearest to [x], a tie going to the larger
    magnitude: the digits [x.toFixed(2)] prints. *)
Definition cents (x : Q) : Q :=
  if Qle_bool 0 x
  then (Qfloor (x * 100 + (1 # 2)) # 100)%Q
  else (- (Qfloor ((- x) * 100 + (1 # 2)) # 100))%Q.

(** [Number(a.toFixed(2))].  From [10^21] on [toFixed] prints the number
    as [String] does, and reading that back gives the number itself; so do
    ["Infinity"] and ["NaN"]. *)
Definition toFixed2 (a : number) : number :=
  match a with
  | Fin x => if Qle_bool (10 ^ 21) (Qabs x) then a else round64 (cents x)
  | _ => a
  end.

(** A double, or one of the three other values: rounding leaves a double
    as it is. *)
Definition isDouble (a : number) : Prop :=
  match a with
  | Fin x => round64 x = Fin x
  | _ => True
  end.

End Js.

(** ** Documents ([models/*.model.js]) *)

Module Schema.

(** [orderSchema.status] enum. *)
Inductive OrderStatus :=
| St_pending | St_confirmed | St_processing | St_shipped
| St_delivered | St_cancelled | St_returned | St_refunded.

(** [paymentSchema.status] enum. *)
Inductive PaymentStatus := Pay_pending | Pay_paid | Pay_failed | Pay_refunded.

#[global] Instance OrderStatus_eq_dec : EqDecision OrderStatus.
Proof. solve_decision. Defined.

#[global] Instance PaymentStatus_eq_dec : EqDecision PaymentStatus.
Proof. solve_decision. Defined.

(** [paymentSchema]; [amount] is in the smallest currency unit. *)
Record Payment := {
  pay_method : option string;
  pay_status : PaymentStatus;
  pay_transactionId : option string;
  pay_intentId : option string;
  pay_amount : option Z;
  pay_currency : option string;
  pay_receiptUrl : option string;
  pay_failureReason : option string }.

(** A payment sub-document created from [{}]: only the schema default. *)
Definition emptyPayment : Payment :=
  {| pay_method := None; pay_status := Pay_pending; pay_transactionId := None;
     pay_intentId := None; pay_amount := None; pay_currency := None;
     pay_receiptUrl := None; pay_failureReason := None |}.

(** [shippingSchema] (address lines are carried as given). *)
Record Shipping := {
  ship_country : option string;
  ship_method : string;
  ship_estimatedDays : option string;
  ship_courier : option string;
  ship_trackingNumber : option string;
  ship_status : string }.

Definition emptyShipping : Shipping :=
  {| ship_country := None; ship_method := "standard"; ship_estimatedDays := None;
     ship_courier := None; ship_trackingNumber := None; ship_status := "pending" |}.

(** [refundSchema]. *)
Record Refund := {
  refund_amount : option Z;
  refund_reason : option string;
  refund_date : option Z }.

Definition emptyRefund : Refund :=
  {| refund_amount := None; refund_reason := None; refund_date := None |}.

(** [orderItemSchema]: a line-item snapshot. *)
Record OrderItem := {
  oi_product : string;
  oi_sku : option string;
  oi_name : option string;
  oi_qty : Z;
  oi_image : option string;
  oi_price : Js.number }.

(** [orderSchema] (order number, timeline, invoice number and notes are not
    touched by the operations below and are left out). *)
Record Order := {
  user : string;
  orderItems : list OrderItem;
  status : OrderStatus;
  itemsPrice : Js.number;
  shippingPrice : Js.number;
  taxPrice : Js.number;
  discountAmount : Js.number;
  coupon : option string;
  totalPrice : Js.number;
  payment : option Payment;
  shipping : option Shipping;
  refund : option Refund;
  isPaid : bool;
  paidAt : option Z;
  isDelivered : bool;
  deliveredAt : option Z }.

(** Field assignments [order.f = v]. *)
Definition withStatus (s : OrderStatus) (o : Order) : Order :=
  {| user := user o; orderItems := orderItems o; status := s;
     itemsPrice := itemsPrice o; shippingPrice := shippingPrice o;
     taxPrice := taxPrice o; discountAmount := discountAmount o;
     coupon := coupon o; totalPrice := totalPrice o; payment := payment o;
     shipping := shipping o; refund := refund o; isPaid := isPaid o;
     paidAt := paidAt o; isDelivered := isDelivered o;
     deliveredAt := deliveredAt o |}.

Definition withPayment (p : Payment) (o : Order) : Order :=
  {| user := user o; orderItems := orderItems o; status := status o;
     itemsPrice := itemsPrice o; shippingPrice := shippingPrice o;
     taxPrice := taxPrice o; discountAmount := discountAmount o;
     coupon := coupon o; totalPrice := totalPrice o; payment := Some p;
     shipping := shipping o; refund := refund o; isPaid := isPaid o;
     paidAt := paidAt o; isDelivered := isDelivered o;
     deliveredAt := deliveredAt o |}.

Definition withShipping (s : Shipping) (o : Order) : Order :=
  {| user := user o; orderItems := orderItems o; status := status o;
     itemsPrice := itemsPrice o; shippingPrice := shippingPrice o;
     taxPrice := taxPrice o; discountAmount := discountAmount o;
     coupon := coupon o; totalPrice := totalPrice o; payment := payment o;
     shipping := Some s; refund := refund o; isPaid := isPaid o;
     paidAt := paidAt o; isDelivered := isDelivered o;
     deliveredAt := deliveredAt o |}.

Definition withRefund (r : Refund) (o : Order) : Order :=
  {| user := user o; orderItems := orderItems o; status := status o;
     itemsPrice := itemsPrice o; shippingPrice := shippingPrice o;
     taxPrice := taxPrice o; discountAmount := discountAmount o;
     coupon := coupon o; totalPrice := totalPrice o; payment := payment o;
     shipping := shipping o; refund := Some r; isPaid := isPaid o;
     paidAt := paidAt o; isDelivered := isDelivered o;
     deliveredAt := deliveredAt o |}.

Definition withPaid (b : bool) (t : option Z) (o : Order) : Order :=
  {| user := user o; orderItems := orderItems o; status := status o;
     itemsPrice := itemsPrice o; shippingPrice := shippingPrice o;
     taxPrice := taxPrice o; discountAmount := discountAmount o;
     coupon := coupon o; totalPrice := totalPrice o; payment := payment o;
     shipping := shipping o; refund := refund o; isPaid := b;
     paidAt := t; isDelivered := isDelivered o;
     deliveredAt := deliveredAt o |}.

Definition withDelivered (b : bool) (t : option Z) (o : Order) : Order :=
  {| user := user o; orderItems := orderItems o; status := status o;
     itemsPrice := itemsPrice o; shippingPrice := shippingPrice o;
     taxPrice := taxPrice o; discountAmount := discountAmount o;
     coupon := coupon o; totalPrice := totalPrice o; payment := payment o;
     shipping := shipping o; refund := refund o; isPaid := isPaid o;
     paidAt := paidAt o; isDelivered := b;
     deliveredAt := t |}.

(** [order.payment || {}]. *)
Definition paymentOf (o : Order) : Payment := default emptyPayment (payment o).

(** [order.payment?.status]. *)
Definition paymentStatusIs (s : PaymentStatus) (o : Order) : bool :=
  match payment o with
  | Some p => bool_decide (pay_status p = s)
  | None => false
  end.

(** [webhookEventSchema]; the unique index is on [(provider, eventId)]. *)
Record WebhookEvent := {
  we_provider : string;
  we_eventId : string;
  we_type : string;
  we_orderId : option string;
  we_receivedAt : Z;
  we_lastSeenAt : option Z;
  we_attempts : Z;
  we_processedAt : option Z;
  we_lastError : option string }.

End Schema.

(** ** Stripe webhook processor ([controllers/webhook.controller.js]) *)

Module Webhook.
Import Js Schema.

(** A charge as it appears in [paymentIntent.charges.data]. *)
Record Charge := {
  ch_id : option string;
  ch_receipt_url : option string }.

(** [event.data.object]: the fields the handlers read.  The same JavaScript
    object is handed to whichever handler the event type selects, so one
    record carries the payment-intent and the charge fields; a field the
    object does not have is [None]. *)
Record StripeObject := {
  so_id : option string;
  so_metadata_orderId : option string;
  so_amount_received : option Z;
  so_currency : option string;
  so_payment_method_types : list string;
  so_charges : list Charge;
  so_last_payment_error : option string;
  so_payment_intent : option string;
  so_amount_refunded : option Z;
  so_refund_reasons : list (option string) }.

(** The event returned by [stripe.webhooks.constructEvent]. *)
Record Event := {
  ev_id : option string;
  ev_type : option string;
  ev_object : StripeObject }.

(** Outcome of [constructEvent(req.body, signature, secret)]. *)
Inductive VerifyResult :=
| Verified (e : Event)
| SignatureError (msg : string).

Record Request := {
  stripeConfigured : bool;
  signature : option string;
  constructEvent : VerifyResult }.

(** Store operations that may reject.  [orderFind] and [orderSave] are the
    outcomes of [Order.findById]/[findOne] and of [order.save()] inside the
    dispatched handler; the other three are the ledger writes of
    [handleStripeWebhook]. *)
Record Faults := {
  upsertThrows : bool;
  orderFind : option JsError;
  orderSave : option JsError;
  lastErrorWriteThrows : bool;
  processedWriteThrows : option JsError }.

Definition noFaults : Faults :=
  {| upsertThrows := false; orderFind := None; orderSave := None;
     lastErrorWriteThrows := false; processedWriteThrows := None |}.

(** What an [async] handler does: resolve, leaving the order collection in
    some state, or reject with an error. *)
Inductive HandlerResult :=
| Done (orders : gmap string Order)
| Thrown (e : JsError).

(** [await order.save()] for the order stored under [id]. *)
Definition save (db : Faults) (id : string) (o : Order)
    (orders : gmap string Order) : HandlerResult :=
  match orderSave db with
  | Some e => Thrown e
  | None => Done (<[id := o]> orders)
  end.

(** [Number.isFinite(expectedAmount) && expectedAmount > 0 &&
    paymentIntent.amount_received != null]. *)
Definition amountComparable (expectedAmount received : option Z) : bool :=
  match expectedAmount, received with
  | Some a, Some _ => 0 <? a
  | _, _ => false
  end.

(** [Number(paymentIntent.amount_received) !== Number(expectedAmount)]. *)
Definition amountMismatch (expectedAmount received : option Z) : bool :=
  match expectedAmount, received with
  | Some a, Some r => negb (r =? a)
  | _, _ => false
  end.

(** [expectedCurrency && paymentIntent.currency]. *)
Definition currencyComparable (expectedCurrency received : option string) : bool :=
  truthyOpt expectedCurrency && truthyOpt received.

(** [String(paymentIntent.currency).toLowerCase() !==
    String(expectedCurrency).toLowerCase()]. *)
Definition currencyMismatch (expectedCurrency received : option string) : bool :=
  match expectedCurrency, received with
  | Some e, Some r => negb (String.eqb (toLowerCase r) (toLowerCase e))
  | _, _ => false
  end.

Definition failPayment (reason : string) (o : Order) : Order :=
  let p := paymentOf o in
  withPayment
    {| pay_method := pay_method p; pay_status := Pay_failed;
       pay_transactionId := pay_transactionId p; pay_intentId := pay_intentId p;
       pay_amount := pay_amount p; pay_currency := pay_currency p;
       pay_receiptUrl := pay_receiptUrl p; pay_failureReason := Some reason |} o.

(** Lines 43-55 of [markOrderPaid]: the settled order. *)
Definition settle (now : Z) (pi : StripeObject) (o : Order) : Order :=
  let charge := head (so_charges pi) in
  let p := paymentOf o in
  let paid :=
    {| pay_method :=
         or_else (or_else (head (so_payment_method_types pi)) (pay_method p))
                 (Some "card"%string);
       pay_status := Pay_paid;
       pay_transactionId := or_else (charge ≫= ch_id) (so_id pi);
       pay_intentId := so_id pi;
       pay_amount := so_amount_received pi;
       pay_currency := so_currency pi;
       pay_receiptUrl := or_else (charge ≫= ch_receipt_url) (pay_receiptUrl p);
       pay_failureReason := None |} in
  let o1 := withPaid true (Some now) (withPayment paid o) in
  if decide (status o = St_pending) then withStatus St_confirmed o1 else o1.

Definition markOrderPaid (now : Z) (db : Faults) (pi : StripeObject)
    (orders : gmap string Order) : HandlerResult :=
  match so_metadata_orderId pi with
  | None => Done orders
  | Some orderId =>
    if negb (truthy orderId) then Done orders else
    match orderFind db with
    | Some e => Thrown e
    | None =>
      match orders !! orderId with
      | None => Done orders
      | Some order =>
        if bool_decide (status order = St_cancelled)
           || bool_decide (status order = St_refunded) then Done orders
        else if isPaid order || paymentStatusIs Pay_paid order then Done orders
        else
          let expectedAmount := payment order ≫= pay_amount in
          let expectedCurrency := payment order ≫= pay_currency in
          if amountComparable expectedAmount (so_amount_received pi)
             && amountMismatch expectedAmount (so_amount_received pi)
          then save db orderId (failPayment "Payment amount mismatch" order) orders
          else if currencyComparable expectedCurrency (so_currency pi)
                  && currencyMismatch expectedCurrency (so_currency pi)
          then save db orderId (failPayment "Payment currency mismatch" order) orders
          else save db orderId (settle now pi order) orders
      end
    end
  end.

Definition markOrderFailed (db : Faults) (pi : StripeObject)
    (orders : gmap string Order) : HandlerResult :=
  match so_metadata_orderId pi with
  | None => Done orders
  | Some orderId =>
    if negb (truthy orderId) then Done orders else
    match orderFind db with
    | Some e => Thrown e
    | None =>
      match orders !! orderId with
      | None => Done orders
      | Some order =>
        if isPaid order || paymentStatusIs Pay_paid order
           || paymentStatusIs Pay_refunded order
           || bool_decide (status order = St_refunded) then Done orders
        else
          let p := paymentOf order in
          let failed :=
            {| pay_method := pay_method p; pay_status := Pay_failed;
               pay_transactionId := pay_transactionId p;
               pay_intentId := so_id pi;
               pay_amount := pay_amount p; pay_currency := pay_currency p;
               pay_receiptUrl := pay_receiptUrl p;
               pay_failureReason :=
                 or_else (so_last_payment_error pi) (Some "Payment failed"%string) |} in
          save db orderId (withPaid false (paidAt order) (withPayment failed order)) orders
      end
    end
  end.

(** [Order.findOne({ 'payment.intentId': intentId })]: some stored order whose
    payment carries that intent id. *)
Definition findByIntent (intentId : string) (orders : gmap string Order)
    : option (string * Order) :=
  snd <$> list_find
    (λ kv : string * Order,
       (payment kv.2 ≫= pay_intentId) = Some intentId)
    (map_to_list orders).

Definition markOrderRefunded (now : Z) (db : Faults) (charge : StripeObject)
    (orders : gmap string Order) : HandlerResult :=
  match so_payment_intent charge with
  | None => Done orders
  | Some intentId =>
    if negb (truthy intentId) then Done orders else
    match orderFind db with
    | Some e => Thrown e
    | None =>
      match findByIntent intentId orders with
      | None => Done orders
      | Some (orderId, order) =>
        if paymentStatusIs Pay_refunded order
           || bool_decide (status order = St_refunded) then Done orders
        else
          let p := paymentOf order in
          let refunded :=
            {| pay_method := pay_method p; pay_status := Pay_refunded;
               pay_transactionId := or_else (so_id charge) (pay_transactionId p);
               pay_intentId := pay_intentId p;
               pay_amount := pay_amount p; pay_currency := pay_currency p;
               pay_receiptUrl := pay_receiptUrl p;
               pay_failureReason := pay_failureReason p |} in
          let r := default emptyRefund (refund order) in
          let r' :=
            {| refund_amount := so_amount_refunded charge;
               refund_reason :=
                 or_else (mjoin (head (so_refund_reasons charge))) (refund_reason r);
               refund_date := Some now |} in
          save db orderId
            (withPaid false (paidAt order)
               (withStatus St_refunded (withRefund r' (withPayment refunded order))))
            orders
      end
    end
  end.

(** The [switch (event.type)] of [handleStripeWebhook]. *)
Definition dispatch (now : Z) (db : Faults) (e : Event)
    (orders : gmap string Order) : HandlerResult :=
  match ev_type e with
  | Some t =>
    if String.eqb t "payment_intent.succeeded" then markOrderPaid now db (ev_object e) orders
    else if String.eqb t "payment_intent.payment_failed" then markOrderFailed db (ev_object e) orders
    else if String.eqb t "charge.refunded" then markOrderRefunded now db (ev_object e) orders
    else Done orders
  | None => Done orders
  end.

Inductive Body :=
| Text (s : string)
| JsonMessage (s : string)
| JsonReceived (duplicate : bool)
| Unhandled (e : JsError).

Record Response := { statusCode : Z; body : Body }.

(** The two collections the processor touches. *)
Record Store := {
  events : gmap (string * string) WebhookEvent;
  orders : gmap string Order }.

Definition provider : string := "stripe".

(** [WebhookEvent.findOneAndUpdate(..., { upsert: true, new: true })] with
    [$setOnInsert], [$set] and [$inc: { attempts: 1 }]: the document after the
    update.  The store drops a key of [$set] whose value is [undefined], so
    an event without an order id leaves a stored [orderId] as it is. *)
Definition upsertEvent (now : Z) (eventId eventType : string)
    (orderId : option string) (old : option WebhookEvent) : WebhookEvent :=
  match old with
  | None =>
    {| we_provider := provider; we_eventId := eventId; we_type := eventType;
       we_orderId := orderId; we_receivedAt := now; we_lastSeenAt := Some now;
       we_attempts := 1; we_processedAt := None; we_lastError := None |}
  | Some r =>
    {| we_provider := we_provider r; we_eventId := we_eventId r;
       we_type := eventType;
       we_orderId := match orderId with
                     | Some id => Some id
                     | None => we_orderId r
                     end;
       we_receivedAt := we_receivedAt r; we_lastSeenAt := Some now;
       we_attempts := we_attempts r + 1; we_processedAt := we_processedAt r;
       we_lastError := we_lastError r |}
  end.

(** [$set: { lastError: ... }]. *)
Definition setLastError (msg : string) (r : WebhookEvent) : WebhookEvent :=
  {| we_provider := we_provider r; we_eventId := we_eventId r;
     we_type := we_type r; we_orderId := we_orderId r;
     we_receivedAt := we_receivedAt r; we_lastSeenAt := we_lastSeenAt r;
     we_attempts := we_attempts r; we_processedAt := we_processedAt r;
     we_lastError := Some msg |}.

(** [$set: { processedAt: new Date(), lastError: undefined }]: the
    [undefined] key is dropped, so only [processedAt] is written and a
    [lastError] recorded by an earlier delivery stays. *)
Definition setProcessed (now : Z) (r : WebhookEvent) : WebhookEvent :=
  {| we_provider := we_provider r; we_eventId := we_eventId r;
     we_type := we_type r; we_orderId := we_orderId r;
     we_receivedAt := we_receivedAt r; we_lastSeenAt := we_lastSeenAt r;
     we_attempts := we_attempts r; we_processedAt := Some now;
     we_lastError := we_lastError r |}.

(** [String(err?.message || err || 'Handler failure')]. *)
Definition lastErrorText (e : JsError) : string :=
  if truthy (errMessage e) then errMessage e else errToString e.

(** [event?.id ? String(event.id) : ''], [event?.type ? String(event.type) :
    'unknown'] and the order id read from the event's metadata. *)
Definition eventIdOf (e : Event) : string :=
  if truthyOpt (ev_id e) then default ""%string (ev_id e) else ""%string.

Definition eventTypeOf (e : Event) : string :=
  if truthyOpt (ev_type e) then default ""%string (ev_type e) else "unknown"%string.

Definition eventOrderIdOf (e : Event) : option string :=
  if truthyOpt (so_metadata_orderId (ev_object e))
  then so_metadata_orderId (ev_object e) else None.

Definition handleStripeWebhook (now : Z) (db : Faults) (req : Request)
    (st : Store) : Response * Store :=
  if negb (stripeConfigured req) then
    ({| statusCode := 503; body := JsonMessage "Stripe webhook not configured" |}, st)
  else if negb (truthyOpt (signature req)) then
    ({| statusCode := 400; body := Text "Missing Stripe-Signature header" |}, st)
  else
  match constructEvent req with
  | SignatureError msg =>
    ({| statusCode := 400; body := Text ("Webhook Error: " ++ msg) |}, st)
  | Verified event =>
    let eventId := eventIdOf event in
    if negb (truthy eventId) then
      ({| statusCode := 400; body := Text "Webhook Error: Missing event id" |}, st)
    else
    let eventType := eventTypeOf event in
    let orderId := eventOrderIdOf event in
    if upsertThrows db then
      ({| statusCode := 500; body := Text "Failed to process event" |}, st)
    else
    let key := (provider, eventId) in
    let eventRecord := upsertEvent now eventId eventType orderId (events st !! key) in
    let evs := <[key := eventRecord]> (events st) in
    if bool_decide (is_Some (we_processedAt eventRecord)) then
      ({| statusCode := 200; body := JsonReceived true |},
       {| events := evs; orders := orders st |})
    else
    match dispatch now db event (orders st) with
    | Thrown err =>
      let evs' :=
        if lastErrorWriteThrows db then evs
        else <[key := setLastError (lastErrorText err) eventRecord]> evs in
      ({| statusCode := 500; body := Text "Failed to process event" |},
       {| events := evs'; orders := orders st |})
    | Done orders' =>
      match processedWriteThrows db with
      | Some e =>
        ({| statusCode := 500; body := Unhandled e |},
         {| events := evs; orders := orders' |})
      | None =>
        ({| statusCode := 200; body := JsonReceived false |},
         {| events := <[key := setProcessed now eventRecord]> evs; orders := orders' |})
      end
    end
  end.

(** Successive deliveries, each with its own clock reading, store faults and
    request. *)
Fixpoint deliverAll (ds : list (Z * Faults * Request)) (st : Store)
    : list Response * Store :=
  match ds with
  | [] => ([], st)
  | (now, db, req) :: rest =>
    let '(r, st1) := handleStripeWebhook now db req st in
    let '(rs, st2) := deliverAll rest st1 in
    (r :: rs, st2)
  end.

(** The order a succeeded event refers to is still open for payment: it is
    stored under the id the event carries, neither cancelled nor refunded,
    and not yet paid. *)
Definition openFor (pi : StripeObject) (orders : gmap string Order)
    (id : string) (o : Order) : Prop :=
  so_metadata_orderId pi = Some id ∧ truthy id = true
  ∧ orders !! id = Some o
  ∧ status o ≠ St_cancelled ∧ status o ≠ St_refunded
  ∧ isPaid o = false ∧ paymentStatusIs Pay_paid o = false.

(** What [markOrderPaid] stores for an open order. *)
Definition verdict (now : Z) (pi : StripeObject) (o : Order) : Order :=
  let expectedAmount := payment o ≫= pay_amount in
  let expectedCurrency := payment o ≫= pay_currency in
  if amountComparable expectedAmount (so_amount_received pi)
     && amountMismatch expectedAmount (so_amount_received pi)
  then failPayment "Payment amount mismatch" o
  else if currencyComparable expectedCurrency (so_currency pi)
          && currencyMismatch expectedCurrency (so_currency pi)
  then failPayment "Payment currency mismatch" o
  else settle now pi o.

(** A request that passes configuration, header and signature checks and
    carries the event [e] with the non-empty id [eid]. *)
Definition delivers (eid : string) (e : Event) (req : Request) : Prop :=
  stripeConfigured req = true ∧ truthyOpt (signature req) = true
  ∧ constructEvent req = Verified e
  ∧ ev_id e = Some eid ∧ truthy eid = true.

Definition received : Response := {| statusCode := 200; body := JsonReceived false |}.
Definition duplicate : Response := {| statusCode := 200; body := JsonReceived true |}.
Definition transient : Response :=
  {| statusCode := 500; body := Text "Failed to process event" |}.

(** [processedAt] of the ledger record of an event, if there is one. *)
Definition processedAtOf (eid : string) (evs : gmap (string * string) WebhookEvent)
    : option Z :=
  evs !! (provider, eid) ≫= we_processedAt.

(** [attempts] of the ledger record of an event, 0 when there is none. *)
Definition attemptsOf (eid : string) (evs : gmap (string * string) WebhookEvent) : Z :=
  default 0 (we_attempts <$> evs !! (provider, eid)).

(** The event types [handleStripeWebhook] has a handler for. *)
Definition handledTypes : list string :=
  ["payment_intent.succeeded"; "payment_intent.payment_failed"; "charge.refunded"]%string.

End Webhook.

(** ** Operator status updates ([controllers/admin.controller.js]) *)

Module Admin.
Import Js Schema.

(** The validated body of [PUT /orders/:id/status]: the route accepts for
    [status] exactly the eight values of the order status enum. *)
Record StatusBody := {
  body_status : OrderStatus;
  body_shippingStatus : option string;
  body_trackingNumber : option string;
  body_courier : option string }.

Inductive StatusResponse :=
| NotFound
| Updated (o : Order).

Definition setShippingStatus (v : string) (o : Order) : Order :=
  let s := default emptyShipping (shipping o) in
  withShipping
    {| ship_country := ship_country s; ship_method := ship_method s;
       ship_estimatedDays := ship_estimatedDays s; ship_courier := ship_courier s;
       ship_trackingNumber := ship_trackingNumber s; ship_status := v |} o.

Definition setTrackingNumber (v : string) (o : Order) : Order :=
  let s := default emptyShipping (shipping o) in
  withShipping
    {| ship_country := ship_country s; ship_method := ship_method s;
       ship_estimatedDays := ship_estimatedDays s; ship_courier := ship_courier s;
       ship_trackingNumber := Some v; ship_status := ship_status s |} o.

Definition setCourier (v : string) (o : Order) : Order :=
  let s := default emptyShipping (shipping o) in
  withShipping
    {| ship_country := ship_country s; ship_method := ship_method s;
       ship_estimatedDays := ship_estimatedDays s; ship_courier := Some v;
       ship_trackingNumber := ship_trackingNumber s; ship_status := ship_status s |} o.

Definition whenSome {A} (v : option A) (f : A → Order → Order) (o : Order) : Order :=
  match v with Some x => f x o | None => o end.

(** The order document after the assignments of [updateOrderStatus]. *)
Definition applyStatusBody (now : Z) (b : StatusBody) (o : Order) : Order :=
  let o1 := withStatus (body_status b) o in
  let o2 := whenSome (body_shippingStatus b) setShippingStatus o1 in
  let o3 := whenSome (body_trackingNumber b) setTrackingNumber o2 in
  let o4 := whenSome (body_courier b) setCourier o3 in
  if decide (body_status b = St_delivered)
  then withDelivered true
         (match deliveredAt o4 with Some t => Some t | None => Some now end) o4
  else o4.

Definition updateOrderStatus (now : Z) (id : string) (b : StatusBody)
    (orders : gmap string Order) : StatusResponse * gmap string Order :=
  match orders !! id with
  | None => (NotFound, orders)
  | Some order =>
    let order' := applyStatusBody now b order in
    (Updated order', <[id := order']> orders)
  end.

(** Position of a status on the forward path
    [pending → confirmed → processing → shipped → delivered]; the side
    branches have none. *)
Definition progress (s : OrderStatus) : option Z :=
  match s with
  | St_pending => Some 0
  | St_confirmed => Some 1
  | St_processing => Some 2
  | St_shipped => Some 3
  | St_delivered => Some 4
  | _ => None
  end.

(** A regression: both statuses lie on the forward path and the requested one
    comes strictly earlier. *)
Definition isRegression (from to : OrderStatus) : bool :=
  match progress from, progress to with
  | Some a, Some b => b <? a
  | _, _ => false
  end.

(** [markDelivered]. *)
Definition markDelivered (now : Z) (id : string)
    (orders : gmap string Order) : StatusResponse * gmap string Order :=
  match orders !! id with
  | None => (NotFound, orders)
  | Some order =>
    let order' := withDelivered true (Some now) order in
    (Updated order', <[id := order']> orders)
  end.

(** [buildPagination]: [pageParsed] and [limitParsed] are what
    [Number.parseInt(_, 10)] returned for the two query values, or for the
    defaults 1 and 20 when a value is missing: [NaN], an integer, or an
    infinity for digits beyond the largest double. *)
Record Pagination := { page : Js.number; limit : Js.number; skip : Js.number }.

Definition buildPagination (pageParsed limitParsed : Js.number) : Pagination :=
  let MAX_LIMIT := Js.Fin 100 in
  let page := Js.max (Js.Fin 1) (Js.orNum pageParsed (Js.Fin 1)) in
  let limit :=
    Js.min MAX_LIMIT (Js.max (Js.Fin 1) (Js.orNum limitParsed (Js.Fin 20))) in
  {| page := page; limit := limit; skip := ((page - Js.Fin 1) * limit)%js |}.

End Admin.

(** ** Shipping and tax ([utils/shipping.utils.js]) *)

Module Shipping.
Import Js.

Inductive Region := UG | KE | TZ | RW | SS | AFRICA | EU | US | DEFAULT.

#[global] Instance Region_eq_dec : EqDecision Region.
Proof. solve_decision. Defined.

Record Rate := { price : number; days : string }.

Record Rates := {
  standard : Rate;
  express : Rate;
  free_threshold : option number }.

Definition SHIPPING_RATES (r : Region) : Rates :=
  match r with
  | UG => {| standard := {| price := Fin 5; days := "3-5" |};
             express := {| price := Fin 12; days := "1-2" |};
             free_threshold := Some (Fin 50) |}
  | KE | TZ => {| standard := {| price := Fin 15; days := "5-7" |};
             express := {| price := Fin 30; days := "2-3" |};
             free_threshold := None |}
  | RW => {| standard := {| price := Fin 12; days := "4-6" |};
             express := {| price := Fin 25; days := "2-3" |};
             free_threshold := None |}
  | SS => {| standard := {| price := Fin 18; days := "7-10" |};
             express := {| price := Fin 35; days := "3-4" |};
             free_threshold := None |}
  | AFRICA => {| standard := {| price := Fin 25; days := "10-14" |};
             express := {| price := Fin 50; days := "5-7" |};
             free_threshold := None |}
  | EU => {| standard := {| price := Fin 35; days := "14-21" |};
             express := {| price := Fin 70; days := "7-10" |};
             free_threshold := None |}
  | US => {| standard := {| price := Fin 40; days := "14-21" |};
             express := {| price := Fin 80; days := "7-10" |};
             free_threshold := None |}
  | DEFAULT => {| standard := {| price := Fin 45; days := "21-30" |};
             express := {| price := Fin 90; days := "10-14" |};
             free_threshold := None |}
  end.

(** The own keys of [SHIPPING_RATES]. *)
Definition regionKey (code : string) : option Region :=
  if String.eqb code "UG" then Some UG
  else if String.eqb code "KE" then Some KE
  else if String.eqb code "TZ" then Some TZ
  else if String.eqb code "RW" then Some RW
  else if String.eqb code "SS" then Some SS
  else if String.eqb code "AFRICA" then Some AFRICA
  else if String.eqb code "EU" then Some EU
  else if String.eqb code "US" then Some US
  else if String.eqb code "DEFAULT" then Some DEFAULT
  else None.

Definition AFRICAN_COUNTRIES : list string :=
  ["DZ"; "AO"; "BJ"; "BW"; "BF"; "BI"; "CV"; "CM"; "CF"; "TD"; "KM"; "CG"; "CD";
   "DJ"; "EG"; "GQ"; "ER"; "SZ"; "ET"; "GA"; "GM"; "GH"; "GN"; "GW"; "CI"; "LS";
   "LR"; "LY"; "MG"; "MW"; "ML"; "MR"; "MU"; "MA"; "MZ"; "NA"; "NE"; "NG"; "RE";
   "SC"; "SL"; "SO"; "ZA"; "SD"; "TG"; "TN"; "UG"; "ZM"; "ZW"; "KE"; "TZ"; "RW"; "SS"]%string.

Definition EU_COUNTRIES : list string :=
  ["AT"; "BE"; "BG"; "HR"; "CY"; "CZ"; "DK"; "EE"; "FI"; "FR"; "DE"; "GR"; "HU";
   "IE"; "IT"; "LV"; "LT"; "LU"; "MT"; "NL"; "PL"; "PT"; "RO"; "SK"; "SI"; "ES"; "SE"]%string.

Definition includes (l : list string) (s : string) : bool :=
  existsb (String.eqb s) l.

Definition getShippingRegion (countryCode : option string) : Region :=
  let code := toUpperCase (default ""%string (or_else countryCode None)) in
  match regionKey code with
  | Some r => r
  | None =>
    if includes EU_COUNTRIES code then EU
    else if String.eqb code "US" || String.eqb code "CA" then US
    else if includes AFRICAN_COUNTRIES code then AFRICA
    else DEFAULT
  end.

(** Property names every object inherits: [rates[method]] is then a truthy
    value that is not a rate, as it is for the own key [free_threshold]. *)
Definition inheritedKeys : list string :=
  ["constructor"; "toString"; "toLocaleString"; "valueOf"; "hasOwnProperty";
   "isPrototypeOf"; "propertyIsEnumerable"; "__proto__"; "__defineGetter__";
   "__defineSetter__"; "__lookupGetter__"; "__lookupSetter__"]%string.

(** [rates[method] || rates.standard]: a rate, or a truthy value without
    [price] and [days]. *)
Definition methodRate (rates : Rates) (method : string) : option Rate :=
  if String.eqb method "standard" then Some (standard rates)
  else if String.eqb method "express" then Some (express rates)
  else if String.eqb method "free_threshold" then
    match free_threshold rates with
    | Some t => if falsy t then Some (standard rates) else None
    | None => Some (standard rates)
    end
  else if includes inheritedKeys method then None
  else Some (standard rates).

(** The result object. *)
Record ShippingCalc := {
  cost : number;
  estimatedDays : option string;
  isFree : bool }.

(** [calculateShipping]; [None] when the call throws a [TypeError]
    ([undefined.toFixed]).  When [rates[method]] is not a rate its [price]
    is [undefined], and a surcharge added to it gives [NaN]. *)
Definition calculateShipping (countryCode : option string) (orderTotal : number)
    (method : string) (itemCount : number) (totalWeight : number)
    : option ShippingCalc :=
  let region := getShippingRegion countryCode in
  let rates := SHIPPING_RATES region in
  let shippingMethod := methodRate rates method in
  let freeOk :=
    bool_decide (region = UG)
    && match free_threshold rates with
       | Some t => negb (falsy t) && geb orderTotal t
       | None => false
       end
    && String.eqb method "standard" in
  if freeOk then
    Some {| cost := Fin 0; estimatedDays := days <$> shippingMethod; isFree := true |}
  else
    match shippingMethod with
    | None =>
      if gtb totalWeight (Fin 5) || gtb itemCount (Fin 10)
      then Some {| cost := NaN; estimatedDays := None; isFree := false |}
      else None
    | Some m =>
      let c0 := price m in
      let c1 := if gtb totalWeight (Fin 5)
                then (c0 + (totalWeight - Fin 5) * Fin 2)%js else c0 in
      let c2 := if gtb itemCount (Fin 10)
                then (c1 + (itemCount - Fin 10) * decimal 0.5)%js else c1 in
      Some {| cost := toFixed2 c2; estimatedDays := Some (days m); isFree := false |}
    end.

(** [TAX_RATES[code] !== undefined ? TAX_RATES[code] : TAX_RATES.DEFAULT]. *)
Definition taxRate (countryCode : option string) : number :=
  let code := toUpperCase (default ""%string (or_else countryCode None)) in
  if String.eqb code "UG" then decimal 0.18
  else if String.eqb code "KE" then decimal 0.16
  else if String.eqb code "TZ" then decimal 0.18
  else if String.eqb code "RW" then decimal 0.18
  else Fin 0.

(** The [amount] field of [calculateTax]. *)
Definition calculateTax (countryCode : option string) (subtotal : number) : number :=
  toFixed2 (subtotal * taxRate countryCode).

(** An element of the array returned by [getShippingMethods]. *)
Record MethodOffer := {
  offer_id : string;
  offer_name : string;
  offer_calc : ShippingCalc }.

(** [getShippingMethods]; [itemCount] and [totalWeight] take their defaults
    1 and 0.  [None] when a call of [calculateShipping] throws. *)
Definition getShippingMethods (countryCode : option string) (orderTotal : number)
    : option (list MethodOffer) :=
  match calculateShipping countryCode orderTotal "standard" (Fin 1) (Fin 0) with
  | None => None
  | Some standardCost =>
    let methods :=
      [{| offer_id := "standard"; offer_name := "Standard Shipping";
          offer_calc := standardCost |}] in
    match calculateShipping countryCode orderTotal "express" (Fin 1) (Fin 0) with
    | None => None
    | Some expressCost =>
      Some (methods ++
            [{| offer_id := "express"; offer_name := "Express Shipping";
                offer_calc := expressCost |}])
    end
  end.

(** An element of [items] as [calculateOrderTotals] reads it:
    [Number(item.price)] and [Number(item.qty)]. *)
Record PricedItem := { it_price : number; it_qty : number }.

(** The object returned by [calculateOrderTotals]. *)
Record Totals := {
  tot_itemsPrice : number;
  tot_shippingPrice : number;
  tot_isFreeShipping : bool;
  tot_taxPrice : number;
  tot_discount : number;
  tot_totalPrice : number;
  tot_itemCount : number }.

(** [calculateOrderTotals]; [None] when [calculateShipping] throws. *)
Definition calculateOrderTotals (items : list PricedItem)
    (countryCode : option string) (shippingMethod : string)
    (couponDiscount : number) : option Totals :=
  let itemsPrice :=
    foldl (λ sum item,
             let price := orNum (it_price item) (Fin 0) in
             let qty := orNum (it_qty item) (Fin 1) in
             (sum + price * qty)%js)
          (Fin 0) items in
  let itemCount :=
    foldl (λ sum item, (sum + orNum (it_qty item) (Fin 1))%js) (Fin 0) items in
  match calculateShipping countryCode itemsPrice shippingMethod itemCount (Fin 0) with
  | None => None
  | Some shipping =>
    let tax := calculateTax countryCode itemsPrice in
    let discount := min couponDiscount itemsPrice in
    let totalPrice := (itemsPrice + cost shipping + tax - discount)%js in
    Some {| tot_itemsPrice := toFixed2 itemsPrice;
            tot_shippingPrice := cost shipping;
            tot_isFreeShipping := isFree shipping;
            tot_taxPrice := tax;
            tot_discount := toFixed2 discount;
            tot_totalPrice := toFixed2 totalPrice;
            tot_itemCount := itemCount |}
  end.

End Shipping.

(** ** Coupons ([models/coupon.model.js], [controllers/coupon.controller.js]) *)

Module Coupons.
Import Js Schema.

Inductive DiscountType := percentage | fixed.

(** One entry of [usedBy]. *)
Record Usage := {
  use_user : string;
  use_order : option string;
  use_discountApplied : number }.

Record Coupon := {
  code : string;
  discountType : DiscountType;
  discountValue : number;
  minOrderAmount : number;
  maxDiscountAmount : option number;
  usageLimit : option Z;
  usageLimitPerUser : Z;
  usedCount : Z;
  validFrom : Z;
  validUntil : Z;
  allowedUsers : list string;
  firstOrderOnly : bool;
  isActive : bool;
  usedBy : list Usage }.

(** The virtual [isValid], read at time [now]. *)
Definition isValid (now : Z) (c : Coupon) : bool :=
  isActive c && (validFrom c <=? now) && (now <=? validUntil c)
  && match usageLimit c with
     | None => true
     | Some l => usedCount c <? l
     end.

(** [couponSchema.methods.calculateDiscount]. *)
Definition calculateDiscount (now : Z) (c : Coupon) (orderTotal : number) : number :=
  if negb (isValid now c) then Fin 0
  else if ltb orderTotal (minOrderAmount c) then Fin 0
  else
    let discount :=
      match discountType c with
      | percentage =>
        let d := (orderTotal * discountValue c / Fin 100)%js in
        match maxDiscountAmount c with
        | Some m => if negb (falsy m) && gtb d m then m else d
        | None => d
        end
      | fixed => min (discountValue c) orderTotal
      end in
    toFixed2 discount.

(** [couponSchema.methods.canBeUsedBy]: [None] when usable, else the reason. *)
Definition canBeUsedBy (now : Z) (c : Coupon) (userId : string)
    (isFirstOrder : bool) : option string :=
  if negb (isValid now c) then Some "Coupon is not valid or has expired"%string
  else if firstOrderOnly c && negb isFirstOrder
  then Some "This coupon is only valid for first orders"%string
  else if (0 <? Z.of_nat (length (allowedUsers c)))
          && negb (existsb (String.eqb userId) (allowedUsers c))
  then Some "This coupon is not available for your account"%string
  else
    let userUsageCount :=
      Z.of_nat (length (filter (λ u, use_user u = userId) (usedBy c))) in
    if usageLimitPerUser c <=? userUsageCount
    then Some "You have already used this coupon the maximum number of times"%string
    else None.

(** The [code] a query for [code.toUpperCase()] looks for: the value is cast
    with the setters of the schema path ([uppercase], [trim]). *)
Definition codeKey (couponCode : string) : string :=
  trim (toUpperCase couponCode).

(** [couponSchema.statics.findValidByCode]; the collection is keyed by the
    unique [code], stored in upper case and trimmed. *)
Definition findValidByCode (now : Z) (couponCode : string)
    (coupons : gmap string Coupon) : option Coupon :=
  match coupons !! codeKey couponCode with
  | Some c => if isValid now c then Some c else None
  | None => None
  end.

(** The object returned by [applyCouponToOrder]. *)
Record CouponResult := {
  discount : number;
  applied : bool;
  couponId : option string }.

Definition notApplied : CouponResult :=
  {| discount := Fin 0; applied := false; couponId := None |}.

(** [coupon.usedBy.push(...); coupon.usedCount += 1]. *)
Definition recordUsage (u : Usage) (c : Coupon) : Coupon :=
  {| code := code c; discountType := discountType c;
     discountValue := discountValue c; minOrderAmount := minOrderAmount c;
     maxDiscountAmount := maxDiscountAmount c; usageLimit := usageLimit c;
     usageLimitPerUser := usageLimitPerUser c; usedCount := usedCount c + 1;
     validFrom := validFrom c; validUntil := validUntil c;
     allowedUsers := allowedUsers c; firstOrderOnly := firstOrderOnly c;
     isActive := isActive c; usedBy := usedBy c ++ [u] |}.

(** [Order.countDocuments({ user: userId, _id: { $ne: orderId } })]. *)
Definition countOrders (userId : string) (orderId : option string)
    (orders : gmap string Order) : Z :=
  Z.of_nat (length (filter
    (λ kv : string * Order, user kv.2 = userId ∧ Some kv.1 ≠ orderId)
    (map_to_list orders))).

(** [applyCouponToOrder]; [None] when [coupon.save()] rejects and the call
    throws: a [discountApplied] that is [NaN] does not cast to the schema's
    [Number], and nothing is stored then. *)
Definition applyCouponToOrder (now : Z) (couponCode : option string)
    (userId : string) (orderId : option string) (orderTotal : number)
    (orders : gmap string Order) (coupons : gmap string Coupon)
    : option (CouponResult * gmap string Coupon) :=
  if negb (truthyOpt couponCode) then Some (notApplied, coupons) else
  let key := codeKey (default ""%string couponCode) in
  match findValidByCode now (default ""%string couponCode) coupons with
  | None => Some (notApplied, coupons)
  | Some coupon =>
    let isFirstOrder := countOrders userId orderId orders =? 0 in
    match canBeUsedBy now coupon userId isFirstOrder with
    | Some _ => Some (notApplied, coupons)
    | None =>
      let d := calculateDiscount now coupon orderTotal in
      let coupon' :=
        recordUsage {| use_user := userId; use_order := orderId;
                       use_discountApplied := d |} coupon in
      if isNaN d then None
      else Some ({| discount := d; applied := true; couponId := Some key |},
                 <[key := coupon']> coupons)
    end
  end.

(** The answers of [validateCoupon]. *)
Inductive ValidateError :=
| CodeRequired
| InvalidOrExpired
| NotUsable (reason : string)
| BelowMinimum (minOrderAmount : number).

Inductive ValidateResponse :=
| CouponValid (couponCode : string) (calculatedDiscount : number)
| CouponRejected (status : Z) (e : ValidateError).

(** [validateCoupon]; [orderTotal] is [req.body.orderTotal] as a number, 0
    by default. *)
Definition validateCoupon (now : Z) (couponCode : option string)
    (orderTotal : number) (userId : string)
    (orders : gmap string Order) (coupons : gmap string Coupon)
    : ValidateResponse :=
  if negb (truthyOpt couponCode) then CouponRejected 400 CodeRequired else
  match findValidByCode now (default ""%string couponCode) coupons with
  | None => CouponRejected 404 InvalidOrExpired
  | Some coupon =>
    let isFirstOrder := countOrders userId None orders =? 0 in
    match canBeUsedBy now coupon userId isFirstOrder with
    | Some reason => CouponRejected 400 (NotUsable reason)
    | None =>
      if ltb orderTotal (minOrderAmount coupon)
      then CouponRejected 400 (BelowMinimum (minOrderAmount coupon))
      else CouponValid (code coupon) (calculateDiscount now coupon orderTotal)
    end
  end.

Definition deactivate (c : Coupon) : Coupon :=
  {| code := code c; discountType := discountType c;
     discountValue := discountValue c; minOrderAmount := minOrderAmount c;
     maxDiscountAmount := maxDiscountAmount c; usageLimit := usageLimit c;
     usageLimitPerUser := usageLimitPerUser c; usedCount := usedCount c;
     validFrom := validFrom c; validUntil := validUntil c;
     allowedUsers := allowedUsers c; firstOrderOnly := firstOrderOnly c;
     isActive := false; usedBy := usedBy c |}.

Inductive DeleteResponse := CouponNotFound | CouponDeactivated | CouponDeleted.

(** [deleteCoupon]; [id] is the key of the coupon document. *)
Definition deleteCoupon (id : string) (coupons : gmap string Coupon)
    : DeleteResponse * gmap string Coupon :=
  match coupons !! id with
  | None => (CouponNotFound, coupons)
  | Some coupon =>
    if 0 <? usedCount coupon
    then (CouponDeactivated, <[id := deactivate coupon]> coupons)
    else (CouponDeleted, delete id coupons)
  end.

End Coupons.

(** ** Order placement ([controllers/order.controller.js]) *)

Module Orders.
Import Js Schema.

(** The fields of a product document that order placement reads or writes. *)
Record Product := {
  p_name : string;
  p_sku : option string;
  p_price : number;
  p_images : list string;
  countInStock : Z;
  enabled : bool;
  isDeleted : bool }.

(** [$inc: { countInStock: n }]. *)
Definition incStock (n : Z) (p : Product) : Product :=
  {| p_name := p_name p; p_sku := p_sku p; p_price := p_price p;
     p_images := p_images p; countInStock := countInStock p + n;
     enabled := enabled p; isDeleted := isDeleted p |}.

(** An element of [req.body.orderItems] that is not [null]: the four
    properties [normalizeOrderItems] reads, [None] when one is missing (a
    number, a string or a boolean in the array has none of them). *)
Record RawItem := {
  raw_productId : option string;
  raw_product : option string;
  raw_qty : option Z;
  raw_quantity : option Z }.

Record Item := { productId : string; qty : Z }.

(** [normalizeOrderItems].  An element of the array is an object or [null]
    ([None]).  [.map] reads [it.productId] of every element before [.filter]
    runs, so one [null] element makes the call throw a [TypeError]: the
    result is [None] then. *)
Definition normalizeOrderItems (orderItems : list (option RawItem))
    : option (list Item) :=
  items ← mapM (λ it : option RawItem, it) orderItems;
  Some (omap (λ it,
      let pid := or_else (raw_productId it) (raw_product it) in
      let q := match raw_qty it with
               | Some q => q
               | None => default 0 (raw_quantity it)
               end in
      if truthyOpt pid && (0 <? q)
      then Some {| productId := default ""%string pid; qty := q |}
      else None)
    items).

(** The message of that [TypeError].  It is thrown before any
    [res.status(...)], so the error middleware answers 500. *)
Definition nullItemMessage : string :=
  "Cannot read properties of null (reading 'productId')".

(** The three collections order placement touches. *)
Record Db := {
  products : gmap string Product;
  coupons : gmap string Coupons.Coupon;
  orders : gmap string Order }.

Record Request := {
  userId : string;
  body_orderItems : list (option RawItem);
  country : option string;
  paymentMethod : option string;
  shippingMethod : option string;
  couponCode : option string }.

(** What the request finds around it: the clock, the answer of
    [canUseTransactions()], and the id the store gives the new order. *)
Record Env := {
  now : Z;
  useTransaction : bool;
  newOrderId : string }.

(** The same surroundings with another answer of [canUseTransactions()]. *)
Definition withTransactions (b : bool) (env : Env) : Env :=
  {| now := now env; useTransaction := b; newOrderId := newOrderId env |}.

Inductive Response :=
| Created (id : string) (o : Order)
| Failed (status : Z) (message : string).

(** The store casts a 24-digit hexadecimal string to an [ObjectId]; the
    document's own [_id.toString()] is the lower-case form. *)
Definition castId (id : string) : string := toLowerCase id.

(** [Product.updateOne({ _id, enabled: true, isDeleted: { $ne: true },
    countInStock: { $gte: qty } }, { $inc: { countInStock: -qty } })]:
    the collection after the update when a document was modified. *)
Definition reserveOne (ps : gmap string Product) (it : Item)
    : option (gmap string Product) :=
  match ps !! castId (productId it) with
  | Some p =>
    if enabled p && negb (isDeleted p) && (qty it <=? countInStock p)
    then Some (<[castId (productId it) := incStock (- qty it) p]> ps)
    else None
  | None => None
  end.

(** [Product.updateOne({ _id }, { $inc: { countInStock: qty } })]. *)
Definition restock (ps : gmap string Product) (d : Item) : gmap string Product :=
  match ps !! castId (productId d) with
  | Some p => <[castId (productId d) := incStock (qty d) p]> ps
  | None => ps
  end.

(** [Promise.all(decremented.map(...))]. *)
Definition compensate (decremented : list Item) (ps : gmap string Product)
    : gmap string Product :=
  foldl restock ps decremented.

(** The errors thrown inside the [try] blocks. *)
Inductive Thrown :=
| InsufficientStock
| ProductUnavailable
| ShippingTypeError
| CouponValidation
| OrderValidation.

(** The [message] of each error.  To the two validation messages the store
    appends the paths that failed; the text here is what they begin with. *)
Definition message (t : Thrown) : string :=
  match t with
  | InsufficientStock => "Insufficient stock for one or more items"
  | ProductUnavailable => "One or more products are unavailable"
  | ShippingTypeError => "Cannot read properties of undefined (reading 'toFixed')"
  | CouponValidation => "Coupon validation failed"
  | OrderValidation => "Order validation failed"
  end.

(** The error middleware of [server.js]:
    [res.statusCode >= 400 ? res.statusCode : 500]. *)
Definition finalStatus (resStatus : Z) : Z :=
  if 400 <=? resStatus then resStatus else 500.

(** [byId.get(String(it.productId))] over the documents returned by
    [Product.find({ _id: { $in: productIds } })]. *)
Definition byIdGet (ps : gmap string Product) (productIds : list string)
    (id : string) : option Product :=
  if existsb (λ q, String.eqb (castId q) id) productIds then ps !! id else None.

(** The snapshot loop: [None] when a product is missing from [byId]. *)
Fixpoint snapshotItems (byId : string → option Product) (items : list Item)
    (computedItems : list OrderItem) (itemsPrice : number)
    : option (list OrderItem * number) :=
  match items with
  | [] => Some (computedItems, itemsPrice)
  | it :: rest =>
    match byId (productId it) with
    | None => None
    | Some product =>
      let unitPrice := orNum (p_price product) (Fin 0) in
      snapshotItems byId rest
        (computedItems ++
           [{| oi_product := productId it; oi_sku := p_sku product;
               oi_name := Some (p_name product); oi_qty := qty it;
               oi_image := head (p_images product); oi_price := unitPrice |}])
        (itemsPrice + unitPrice * ofZ (qty it))%js
    end
  end.

(** The validators of [orderSchema] that [order.save()] runs on the fields
    order placement fills.  A [NaN] does not cast to [Number] and fails
    them; an infinity passes [min: 0]. *)
Definition validItem (i : OrderItem) : bool :=
  truthyOpt (oi_name i) && (1 <=? oi_qty i) && leb (Fin 0) (oi_price i).

Definition validShippingMethod (m : string) : bool :=
  String.eqb m "standard" || String.eqb m "express".

Definition validateOrder (o : Order) : bool :=
  forallb validItem (orderItems o)
  && leb (Fin 0) (itemsPrice o) && leb (Fin 0) (shippingPrice o)
  && leb (Fin 0) (taxPrice o) && leb (Fin 0) (discountAmount o)
  && leb (Fin 0) (totalPrice o)
  && match shipping o with
     | Some s => validShippingMethod (ship_method s)
     | None => true
     end.

Inductive Built :=
| BuiltOrder (o : Order) (coupons' : gmap string Coupons.Coupon)
| BuildThrew (t : Thrown) (coupons' : gmap string Coupons.Coupon).

(** Everything between the reservation loop and the end of [order.save()]:
    snapshot, shipping, tax, coupon, total, the order document and its
    validation.  The two branches of [addOrderItems] carry the same text for
    it.  [ps] is the product collection as the request sees it after its
    decrements. *)
Definition buildOrder (env : Env) (req : Request) (normalized : list Item)
    (ps : gmap string Product) (os : gmap string Order)
    (cs : gmap string Coupons.Coupon) : Built :=
  let productIds := map productId normalized in
  match snapshotItems (byIdGet ps productIds) normalized [] (Fin 0) with
  | None => BuildThrew ProductUnavailable cs
  | Some (computedItems, itemsPrice) =>
    let countryCode := Some (default "UG"%string (or_else (country req) None)) in
    let method := default "standard"%string (shippingMethod req) in
    let itemCount := foldl (λ sum it, (sum + ofZ (oi_qty it))%js) (Fin 0) computedItems in
    match Shipping.calculateShipping countryCode itemsPrice method itemCount (Fin 0) with
    | None => BuildThrew ShippingTypeError cs
    | Some shippingCalc =>
      let shippingPrice := Shipping.cost shippingCalc in
      let taxPrice := Shipping.calculateTax countryCode itemsPrice in
      match (if truthyOpt (couponCode req)
             then Coupons.applyCouponToOrder (now env) (couponCode req) (userId req)
                    None itemsPrice os cs
             else Some (Coupons.notApplied, cs)) with
      | None => BuildThrew CouponValidation cs
      | Some (couponResult, cs') =>
        let discountAmount :=
          if Coupons.applied couponResult then Coupons.discount couponResult
          else Fin 0 in
        let appliedCoupon :=
          if Coupons.applied couponResult then Coupons.couponId couponResult
          else None in
        let totalPrice :=
          toFixed2 (itemsPrice + shippingPrice + taxPrice - discountAmount)%js in
        let order :=
          {| user := userId req; orderItems := computedItems; status := St_pending;
             itemsPrice := itemsPrice; shippingPrice := shippingPrice;
             taxPrice := taxPrice; discountAmount := discountAmount;
             coupon := appliedCoupon; totalPrice := totalPrice;
             payment := Some
               {| pay_method := or_else (paymentMethod req) (Some "card"%string);
                  pay_status := Pay_pending; pay_transactionId := None;
                  pay_intentId := None; pay_amount := None;
                  pay_currency := Some "usd"%string; pay_receiptUrl := None;
                  pay_failureReason := None |};
             shipping := Some
               {| ship_country := country req; ship_method := method;
                  ship_estimatedDays := Shipping.estimatedDays shippingCalc;
                  ship_courier := None; ship_trackingNumber := None;
                  ship_status := "pending" |};
             refund := None; isPaid := false; paidAt := None;
             isDelivered := false; deliveredAt := None |} in
        if validateOrder order then BuiltOrder order cs'
        else BuildThrew OrderValidation cs'
      end
    end
  end.

(** *** The transactional path *)

(** The decrement loop inside the session: [None] when an update modifies
    nothing and the loop throws. *)
Fixpoint reserveAll (items : list Item) (ps : gmap string Product)
    : option (gmap string Product) :=
  match items with
  | [] => Some ps
  | it :: rest =>
    match reserveOne ps it with
    | Some ps' => reserveAll rest ps'
    | None => None
    end
  end.

(** The [catch] block: the response status is chosen from the message. *)
Definition txStatus (msg : string) : Z :=
  if String.eqb msg "Insufficient stock for one or more items" then 409
  else if String.eqb msg "One or more products are unavailable" then 400
  else 200.

(** Writes made through the session are kept on commit and dropped on abort;
    [coupon.save()] is not given the session and is kept either way. *)
Definition addOrderItemsTransaction (env : Env) (req : Request)
    (normalized : list Item) (db : Db) : Response * Db :=
  match reserveAll normalized (products db) with
  | None =>
    (Failed (finalStatus (txStatus (message InsufficientStock)))
            (message InsufficientStock), db)
  | Some ps =>
    match buildOrder env req normalized ps (orders db) (coupons db) with
    | BuildThrew t cs' =>
      (Failed (finalStatus (txStatus (message t))) (message t),
       {| products := products db; coupons := cs'; orders := orders db |})
    | BuiltOrder o cs' =>
      (Created (newOrderId env) o,
       {| products := ps; coupons := cs';
          orders := <[newOrderId env := o]> (orders db) |})
    end
  end.

(** *** The compensating fallback path *)

(** The decrement loop outside a session: whether every update modified a
    document, the collection as the loop left it, and [decremented]. *)
Fixpoint reserveLoop (items : list Item) (ps : gmap string Product)
    (decremented : list Item) : bool * gmap string Product * list Item :=
  match items with
  | [] => (true, ps, decremented)
  | it :: rest =>
    match reserveOne ps it with
    | Some ps' => reserveLoop rest ps' (decremented ++ [it])
    | None => (false, ps, decremented)
    end
  end.

(** The [catch] block: [if (decremented.length > 0) await Promise.all(...)]. *)
Definition rollback (decremented : list Item) (ps : gmap string Product)
    : gmap string Product :=
  if 0 <? Z.of_nat (length decremented) then compensate decremented ps else ps.

(** The status set with [res.status(...)] just before each [throw]. *)
Definition fallbackStatus (t : Thrown) : Z :=
  match t with
  | InsufficientStock => 409
  | ProductUnavailable => 400
  | _ => 200
  end.

Definition addOrderItemsFallback (env : Env) (req : Request)
    (normalized : list Item) (db : Db) : Response * Db :=
  let '(ok, ps, decremented) := reserveLoop normalized (products db) [] in
  if negb ok then
    (Failed (finalStatus (fallbackStatus InsufficientStock)) (message InsufficientStock),
     {| products := rollback decremented ps; coupons := coupons db;
        orders := orders db |})
  else
    match buildOrder env req normalized ps (orders db) (coupons db) with
    | BuildThrew t cs' =>
      (Failed (finalStatus (fallbackStatus t)) (message t),
       {| products := rollback decremented ps; coupons := cs';
          orders := orders db |})
    | BuiltOrder o cs' =>
      (Created (newOrderId env) o,
       {| products := ps; coupons := cs';
          orders := <[newOrderId env := o]> (orders db) |})
    end.

Definition addOrderItems (env : Env) (req : Request) (db : Db) : Response * Db :=
  match normalizeOrderItems (body_orderItems req) with
  | None => (Failed (finalStatus 200) nullItemMessage, db)
  | Some normalized =>
    if Z.of_nat (length normalized) =? 0 then (Failed 400 "No order items", db)
    else if useTransaction env
    then addOrderItemsTransaction env req normalized db
    else addOrderItemsFallback env req normalized db
  end.

(** The sum of [price * qty] over line items as the snapshot loop takes
    it: from 0, line by line, each product and each sum rounded. *)
Definition lineTotal (l : list OrderItem) : number :=
  foldl (λ sum i, (sum + oi_price i * ofZ (oi_qty i))%js) (Fin 0) l.

(** [Number(it.qty ?? it.quantity ?? 0)]. *)
Definition rawQty (r : RawItem) : Z :=
  match raw_qty r with
  | Some q => q
  | None => default 0 (raw_quantity r)
  end.

(** An element of [orderItems] that is an object without a product id or
    with a quantity that is not positive. *)
Definition unusable (e : option RawItem) : Prop :=
  match e with
  | Some r => truthyOpt (or_else (raw_productId r) (raw_product r)) = false ∨ rawQty r ≤ 0
  | None => False
  end.

End Orders.

(** ** Payment intents ([controllers/payment.controller.js]) *)

Module Payments.
Import Js Schema.

(** What [createPaymentIntent] of [utils/payment.utils.js] (the call to the
    payment processor) gives back: an intent, or an error carrying the
    status the error middleware will answer with. *)
Inductive ProcessorOutcome :=
| Intent (id : string) (client_secret : string)
| ProcessorError (status : Z) (message : string).

Record IntentRequest := {
  stripeKeySet : bool;
  requester : string;
  requesterVerified : bool;
  body_orderId : string;
  body_currency : option string;
  processor : ProcessorOutcome }.

Inductive IntentResponse :=
| ClientSecret (clientSecret : string) (paymentIntentId : string)
| Refused (status : Z) (message : string).

(** [Math.round((Number(order.totalPrice) || 0) * 100)] when that is finite,
    an integer then; [None] when it is an infinity.  [Math.round] takes the
    nearest integer, a tie going up. *)
Definition amountCents (o : Order) : option Z :=
  match (orNum (totalPrice o) (Fin 0) * Fin 100)%js with
  | Fin x => Some (Qfloor (x + (1 # 2)))
  | _ => None
  end.

(** [(currency || 'usd').toLowerCase()]. *)
Definition normalizedCurrency (currency : option string) : string :=
  toLowerCase (default "usd"%string (or_else currency None)).

(** The order after an intent was bound to it. *)
Definition bindIntent (intentId : string) (currency : string) (cents : Z)
    (o : Order) : Order :=
  let p := paymentOf o in
  withPaid false (paidAt o)
    (withPayment
       {| pay_method := Some "card"%string; pay_status := Pay_pending;
          pay_transactionId := Some intentId; pay_intentId := Some intentId;
          pay_amount := Some cents; pay_currency := Some currency;
          pay_receiptUrl := None; pay_failureReason := None |} o).

Definition createPaymentIntent (req : IntentRequest)
    (orders : gmap string Order) : IntentResponse * gmap string Order :=
  if negb (stripeKeySet req) then (Refused 503 "Payments are not configured", orders)
  else if negb (requesterVerified req)
  then (Refused 403 "Please verify your email address before making a payment", orders)
  else
  match orders !! body_orderId req with
  | None => (Refused 404 "Order not found", orders)
  | Some order =>
    if negb (String.eqb (user order) (requester req))
    then (Refused 403 "Not allowed to pay for this order", orders)
    else if isPaid order then (Refused 400 "Order already settled", orders)
    else
      match amountCents order with
      | None => (Refused 400 "Order total is invalid for payment", orders)
      | Some cents =>
        if cents <=? 0 then (Refused 400 "Order total is invalid for payment", orders)
        else
          let currency := normalizedCurrency (body_currency req) in
          match processor req with
          | ProcessorError st msg => (Refused st msg, orders)
          | Intent id secret =>
            (ClientSecret secret id,
             <[body_orderId req := bindIntent id currency cents order]> orders)
          end
      end
  end.

End Payments.

(** ** Concurrent checkouts

    Several [addOrderItems] requests run against one product collection.  The
    store applies each [updateOne] atomically on its document, and a
    transaction's writes all at once when it commits or not at all; between
    two such atomic actions any other request may act.  A schedule is a
    sequence of these actions, each taken by one of the requests. *)

Module Interleaving.
Import Schema Orders.

(** Where a request stands. *)
Inductive Phase :=
| Reserving (todo : list Item) (decremented : list Item)
| Compensating (pending : list Item) (t : Thrown)
| Succeeded
| Rejected (t : Thrown).

Record Attempt := {
  items : list Item;
  transactional : bool;
  phase : Phase }.

(** A request entering its [try] block.  A request whose items cannot be
    normalized asks for nothing. *)
Definition start (r : list (option RawItem) * bool) : Attempt :=
  {| items := default [] (normalizeOrderItems r.1); transactional := r.2;
     phase := Reserving (default [] (normalizeOrderItems r.1)) [] |}.

Definition moveTo (a : Attempt) (ph : Phase) : Attempt :=
  {| items := items a; transactional := transactional a; phase := ph |}.

(** One atomic action of one request. *)
Inductive astep : gmap string Product → Attempt → gmap string Product → Attempt → Prop :=
| step_reserve ps ps' a it todo dec :
    transactional a = false →
    phase a = Reserving (it :: todo) dec →
    reserveOne ps it = Some ps' →
    astep ps a ps' (moveTo a (Reserving todo (dec ++ [it])))
| step_insufficient ps a it todo dec :
    transactional a = false →
    phase a = Reserving (it :: todo) dec →
    reserveOne ps it = None →
    astep ps a ps (moveTo a (Compensating dec InsufficientStock))
| step_saved ps a dec :
    transactional a = false →
    phase a = Reserving [] dec →
    astep ps a ps (moveTo a Succeeded)
| step_later_failure ps a dec t :
    transactional a = false →
    phase a = Reserving [] dec →
    astep ps a ps (moveTo a (Compensating dec t))
| step_compensate ps a l1 d l2 t :
    phase a = Compensating (l1 ++ d :: l2) t →
    astep ps a (restock ps d) (moveTo a (Compensating (l1 ++ l2) t))
| step_rejected ps a t :
    phase a = Compensating [] t →
    astep ps a ps (moveTo a (Rejected t))
| step_commit ps ps' a todo :
    transactional a = true →
    phase a = Reserving todo [] →
    reserveAll (items a) ps = Some ps' →
    astep ps a ps' (moveTo a Succeeded)
| step_abort ps a todo t :
    transactional a = true →
    phase a = Reserving todo [] →
    astep ps a ps (moveTo a (Rejected t)).

(** One action of the system: some request takes its next action. *)
Inductive sstep : gmap string Product * list Attempt →
                  gmap string Product * list Attempt → Prop :=
| sstep_at ps ps' (atts : list Attempt) i a a' :
    atts !! i = Some a →
    astep ps a ps' a' →
    sstep (ps, atts) (ps', <[i := a']> atts).

Definition stockOf (ps : gmap string Product) (id : string) : Z :=
  match ps !! id with
  | Some p => countInStock p
  | None => 0
  end.

Definition Zsum (l : list Z) : Z := foldr Z.add 0 l.

(** The quantity a list of items asks of the product stored under [id]. *)
Definition qtyFor (id : string) (l : list Item) : Z :=
  Zsum (map (λ it, if decide (castId (productId it) = id) then qty it else 0) l).

(** The decrements a request has made and not given back. *)
Definition held (a : Attempt) : list Item :=
  match phase a with
  | Reserving _ dec => dec
  | Compensating pending _ => pending
  | Succeeded => items a
  | Rejected _ => []
  end.

Definition totalHeld (id : string) (atts : list Attempt) : Z :=
  Zsum (map (λ a, qtyFor id (held a)) atts).

(** The quantity of the product stored under [id] in orders that were placed. *)
Definition sold (id : string) (atts : list Attempt) : Z :=
  Zsum (map (λ a, match phase a with
                  | Succeeded => qtyFor id (items a)
                  | _ => 0
                  end) atts).

Definition positiveQty (l : list Item) : Prop := Forall (λ it, 0 < qty it) l.

(** What holds of every request at every moment. *)
Definition wellFormed (ps : gmap string Product) (a : Attempt) : Prop :=
  positiveQty (items a)
  ∧ positiveQty (held a)
  ∧ Forall (λ d, is_Some (ps !! castId (productId d))) (held a)
  ∧ match phase a with
    | Reserving todo dec =>
      if transactional a then dec = [] else dec ++ todo = items a
    | _ => True
    end.

(** Every unit taken from a product is held by some request: stock and
    holdings add up to the stock the schedule began with, no stock is
    negative, and every request is well formed. *)
Definition balanced (ps0 : gmap string Product)
    (s : gmap string Product * list Attempt) : Prop :=
  (∀ id, stockOf s.1 id + totalHeld id s.2 = stockOf ps0 id)
  ∧ (∀ id, 0 ≤ stockOf s.1 id)
  ∧ Forall (wellFormed s.1) s.2.

(** A request that has run to its end. *)
Definition finished (a : Attempt) : Prop :=
  match phase a with
  | Succeeded | Rejected _ => True
  | _ => False
  end.

End Interleaving.

(** ** Sample documents and requests *)

Module Samples.
Import Js Schema.

(** An unpaid order of user [u1] with the given status and payment. *)
Definition orderWith (s : OrderStatus) (p : Payment) : Order :=
  {| user := "u1"; orderItems := []; status := s;
     itemsPrice := decimal 24.57; shippingPrice := Fin 0; taxPrice := Fin 0;
     discountAmount := Fin 0;
     coupon := None; totalPrice := decimal 24.57; payment := Some p; shipping := None;
     refund := None; isPaid := false; paidAt := None; isDelivered := false;
     deliveredAt := None |}.

(** The payment sub-document after [createPaymentIntent] bound an intent. *)
Definition boundPayment (amount : option Z) (currency : option string) : Payment :=
  {| pay_method := Some "card"%string; pay_status := Pay_pending;
     pay_transactionId := Some "pi_1"%string; pay_intentId := Some "pi_1"%string;
     pay_amount := amount; pay_currency := currency;
     pay_receiptUrl := None; pay_failureReason := None |}.

Definition oid : string := "64b7f3a2c1d2e3f4a5b6c7d8".

(** A payment intent for order [oid]. *)
Definition intent (amount : option Z) (currency : option string)
    : Webhook.StripeObject :=
  {| Webhook.so_id := Some "pi_1"%string;
     Webhook.so_metadata_orderId := Some oid;
     Webhook.so_amount_received := amount;
     Webhook.so_currency := currency;
     Webhook.so_payment_method_types := ["card"%string];
     Webhook.so_charges :=
       [{| Webhook.ch_id := Some "ch_1"%string;
           Webhook.ch_receipt_url := Some "https://stripe.test/receipt/ch_1"%string |}];
     Webhook.so_last_payment_error := None;
     Webhook.so_payment_intent := None;
     Webhook.so_amount_refunded := None;
     Webhook.so_refund_reasons := [] |}.

Definition succeeded (pi : Webhook.StripeObject) : Webhook.Event :=
  {| Webhook.ev_id := Some "evt_1"%string;
     Webhook.ev_type := Some "payment_intent.succeeded"%string;
     Webhook.ev_object := pi |}.

Definition signed (e : Webhook.Event) : Webhook.Request :=
  {| Webhook.stripeConfigured := true;
     Webhook.signature := Some "sig_mock"%string;
     Webhook.constructEvent := Webhook.Verified e |}.

Definition storeWith (o : Order) : Webhook.Store :=
  {| Webhook.events := ∅; Webhook.orders := {[ oid := o ]} |}.

(** A store whose [order.save()] rejects. *)
Definition saveRejects : Webhook.Faults :=
  {| Webhook.upsertThrows := false; Webhook.orderFind := None;
     Webhook.orderSave := Some (mkError "connection lost");
     Webhook.lastErrorWriteThrows := false;
     Webhook.processedWriteThrows := None |}.

(** A catalogue of two products and one coupon. *)
Definition pidA : string := "64b7f3a2c1d2e3f4a5b6c7a1".
Definition pidB : string := "64b7f3a2c1d2e3f4a5b6c7b2".

(** A product whose price is written as the decimal [price]. *)
Definition product (name : string) (price : Q) (stock : Z) : Orders.Product :=
  {| Orders.p_name := name; Orders.p_sku := None; Orders.p_price := decimal price;
     Orders.p_images := []; Orders.countInStock := stock;
     Orders.enabled := true; Orders.isDeleted := false |}.

Definition save10 : Coupons.Coupon :=
  {| Coupons.code := "SAVE10"; Coupons.discountType := Coupons.percentage;
     Coupons.discountValue := Fin 10; Coupons.minOrderAmount := Fin 0;
     Coupons.maxDiscountAmount := None; Coupons.usageLimit := None;
     Coupons.usageLimitPerUser := 1; Coupons.usedCount := 0;
     Coupons.validFrom := 0; Coupons.validUntil := 1000;
     Coupons.allowedUsers := []; Coupons.firstOrderOnly := false;
     Coupons.isActive := true; Coupons.usedBy := [] |}.

(** Half off, at most 5. *)
Definition half5 : Coupons.Coupon :=
  {| Coupons.code := "HALF5"; Coupons.discountType := Coupons.percentage;
     Coupons.discountValue := Fin 50; Coupons.minOrderAmount := Fin 0;
     Coupons.maxDiscountAmount := Some (Fin 5); Coupons.usageLimit := None;
     Coupons.usageLimitPerUser := 1; Coupons.usedCount := 0;
     Coupons.validFrom := 0; Coupons.validUntil := 1000;
     Coupons.allowedUsers := []; Coupons.firstOrderOnly := false;
     Coupons.isActive := true; Coupons.usedBy := [] |}.

Definition shop (priceA : Q) (stockA stockB : Z) : Orders.Db :=
  {| Orders.products :=
       {[ pidA := product "Kettle" priceA stockA; pidB := product "Mug" 4 stockB ]};
     Orders.coupons := {[ "SAVE10"%string := save10 ]};
     Orders.orders := ∅ |}.

(** An element [{ productId: id, qty: q }] of [orderItems]. *)
Definition line (id : string) (q : Z) : option Orders.RawItem :=
  Some {| Orders.raw_productId := Some id; Orders.raw_product := None;
          Orders.raw_qty := Some q; Orders.raw_quantity := None |}.

Definition checkout (lines : list (option Orders.RawItem)) (country : string)
    (method coupon : option string) : Orders.Request :=
  {| Orders.userId := "u1"; Orders.body_orderItems := lines;
     Orders.country := Some country; Orders.paymentMethod := Some "card"%string;
     Orders.shippingMethod := method; Orders.couponCode := coupon |}.

Definition at100 (tx : bool) : Orders.Env :=
  {| Orders.now := 100; Orders.useTransaction := tx;
     Orders.newOrderId := "64b7f3a2c1d2e3f4a5b6c7ff" |}.

(** A request for one Kettle, on the fallback or the transactional path. *)
Definition kettleBuyer (tx : bool) : list (option Orders.RawItem) * bool :=
  ([line pidA 1], tx).

(** A charge that refunds the intent [pi_1]. *)
Definition refundOf (amount : Z) : Webhook.StripeObject :=
  {| Webhook.so_id := Some "ch_1"%string;
     Webhook.so_metadata_orderId := None;
     Webhook.so_amount_received := None;
     Webhook.so_currency := Some "usd"%string;
     Webhook.so_payment_method_types := [];
     Webhook.so_charges := [];
     Webhook.so_last_payment_error := None;
     Webhook.so_payment_intent := Some "pi_1"%string;
     Webhook.so_amount_refunded := Some amount;
     Webhook.so_refund_reasons := [Some "requested_by_customer"%string] |}.

(** An event of a type the processor has no handler for. *)
Definition disputed (pi : Webhook.StripeObject) : Webhook.Event :=
  {| Webhook.ev_id := Some "evt_9"%string;
     Webhook.ev_type := Some "charge.dispute.created"%string;
     Webhook.ev_object := pi |}.

(** A request to pay order [oid] by its owner. *)
Definition payRequest (who : string) (currency : option string)
    : Payments.IntentRequest :=
  {| Payments.stripeKeySet := true; Payments.requester := who;
     Payments.requesterVerified := true; Payments.body_orderId := oid;
     Payments.body_currency := currency;
     Payments.processor := Payments.Intent "pi_1" "secret_1" |}.

End Samples.

(** * Properties *)

(** ** Rounding to the nearest double *)

Section Doubles.
Import Js.


Lemma pow2_pos k : (0 < 2 ^ k)%Q.
Proof. apply Qpower_0_lt. reflexivity. Qed.

Lemma pow2_plus a b : (2 ^ (a + b) == 2 ^ a * 2 ^ b)%Q.
Proof. apply Qpower_plus. discriminate. Qed.

Lemma pow2_le a b : a ≤ b → (2 ^ a <= 2 ^ b)%Q.
Proof. intros H. apply Qpower_le_compat_l; [exact H | discriminate]. Qed.

Lemma pow2_lt a b : a < b → (2 ^ a < 2 ^ b)%Q.
Proof. intros H. apply Qpower_lt_compat_l; [exact H | reflexivity]. Qed.

Lemma pow2_lt_inv a b : (2 ^ a < 2 ^ b)%Q → a < b.
Proof. intros H. apply (Qpower_lt_compat_l_inv 2); [exact H | reflexivity]. Qed.

Lemma pow2_Z n : 0 ≤ n → (2 ^ n == inject_Z (2 ^ n))%Q.
Proof. intros H. symmetry. apply (Zpower_Qpower 2 n H). Qed.

Lemma Q_num_den x : (x * inject_Z (Z.pos (Qden x)) == inject_Z (Qnum x))%Q.
Proof. destruct x as [n d]. unfold Qeq, Qmult, inject_Z. simpl. lia. Qed.

Lemma Qnum_pos x : (0 < x)%Q → 0 < Qnum x.
Proof. destruct x as [n d]. unfold Qlt. simpl. lia. Qed.

(** [ilog2] is the floor of the binary logarithm. *)
Lemma ilog2_spec x : (0 < x)%Q → (2 ^ ilog2 x <= x ∧ x < 2 ^ (ilog2 x + 1))%Q.
Proof.
  intros Hx. unfold ilog2.
  set (a := Z.log2 (Qnum x)). set (b := Z.log2 (Z.pos (Qden x))).
  pose proof (Qnum_pos x Hx) as Hn.
  destruct (Z.log2_spec (Qnum x) Hn) as [Ha1 Ha2]. fold a in Ha1, Ha2.
  destruct (Z.log2_spec (Z.pos (Qden x)) eq_refl) as [Hb1 Hb2]. fold b in Hb1, Hb2.
  assert (Ha0 : 0 ≤ a) by apply Z.log2_nonneg.
  assert (Hb0 : 0 ≤ b) by apply Z.log2_nonneg.
  pose proof (Q_num_den x) as Hnd.
  set (d := inject_Z (Z.pos (Qden x))) in *. set (n := inject_Z (Qnum x)) in *.
  assert (Hd1 : (2 ^ b <= d)%Q).
  { rewrite (pow2_Z b Hb0). unfold d. rewrite <- Zle_Qle. exact Hb1. }
  assert (Hd2 : (d < 2 ^ (b + 1))%Q).
  { rewrite (pow2_Z (b + 1)) by lia. unfold d. rewrite <- Zlt_Qlt. exact Hb2. }
  assert (Hn1 : (2 ^ a <= n)%Q).
  { rewrite (pow2_Z a Ha0). unfold n. rewrite <- Zle_Qle. exact Ha1. }
  assert (Hn2 : (n < 2 ^ (a + 1))%Q).
  { rewrite (pow2_Z (a + 1)) by lia. unfold n. rewrite <- Zlt_Qlt. exact Ha2. }
  pose proof (pow2_pos b) as Pb. pose proof (pow2_pos (a - b)) as Pk.
  pose proof (pow2_pos (a - b - 1)) as Pk1.
  assert (Hup : (x < 2 ^ (a - b + 1))%Q).
  { assert (E : (2 ^ (a - b + 1) * 2 ^ b == 2 ^ (a + 1))%Q).
    { rewrite <- pow2_plus. replace (a - b + 1 + b) with (a + 1) by lia. reflexivity. }
    pose proof (pow2_pos (a - b + 1)) as P1.
    apply (Qmult_lt_r _ _ (2 ^ b)); [exact Pb|]. rewrite E.
    apply Qle_lt_trans with (x * d)%Q; [|rewrite Hnd; exact Hn2].
    apply Qmult_le_l; [exact Hx | exact Hd1]. }
  assert (Hlow : (2 ^ (a - b - 1) <= x)%Q).
  { assert (E : (2 ^ (a - b - 1) * 2 ^ (b + 1) == 2 ^ a)%Q).
    { rewrite <- pow2_plus. replace (a - b - 1 + (b + 1)) with a by lia. reflexivity. }
    assert (Hd0 : (0 < d)%Q) by (eapply Qlt_le_trans; [exact Pb | exact Hd1]).
    apply (Qmult_le_r _ _ d); [exact Hd0|]. rewrite Hnd.
    apply Qle_trans with (2 ^ a)%Q; [|exact Hn1]. rewrite <- E.
    apply Qmult_le_l; [exact Pk1|]. apply Qlt_le_weak. exact Hd2. }
  destruct (Qle_bool (2 ^ (a - b)) x) eqn:E.
  - apply Qle_bool_iff in E. split; assumption.
  - split; [exact Hlow|]. replace (a - b - 1 + 1) with (a - b) by lia.
    apply Qnot_le_lt. intros H. apply Qle_bool_iff in H. congruence.
Qed.

Lemma ilog2_unique x k : (2 ^ k <= x)%Q → (x < 2 ^ (k + 1))%Q → ilog2 x = k.
Proof.
  intros H1 H2.
  assert (Hx : (0 < x)%Q) by (eapply Qlt_le_trans; [apply pow2_pos | exact H1]).
  destruct (ilog2_spec x Hx) as [E1 E2].
  assert (A : ilog2 x < k + 1).
  { apply pow2_lt_inv. eapply Qle_lt_trans; eassumption. }
  assert (B : k < ilog2 x + 1).
  { apply pow2_lt_inv. eapply Qle_lt_trans; eassumption. }
  lia.
Qed.

Lemma ilog2_comp x y : (0 < x)%Q → (x == y)%Q → ilog2 x = ilog2 y.
Proof.
  intros Hx E. symmetry. destruct (ilog2_spec x Hx) as [E1 E2].
  apply ilog2_unique; rewrite <- E; assumption.
Qed.

Lemma ilog2_mono x y : (0 < x)%Q → (x <= y)%Q → ilog2 x ≤ ilog2 y.
Proof.
  intros Hx Hxy.
  assert (Hy : (0 < y)%Q) by (eapply Qlt_le_trans; eassumption).
  destruct (ilog2_spec x Hx) as [E1 _]. destruct (ilog2_spec y Hy) as [_ F2].
  assert (A : ilog2 x < ilog2 y + 1).
  { apply pow2_lt_inv. eapply Qle_lt_trans; [exact E1|].
    eapply Qle_lt_trans; eassumption. }
  lia.
Qed.

Lemma roundEven_comp x y : (x == y)%Q → roundEven x = roundEven y.
Proof.
  intros E. unfold roundEven. rewrite (Qfloor_comp x y E).
  assert (E2 : (x - inject_Z (Qfloor y) == y - inject_Z (Qfloor y))%Q)
    by (rewrite E; reflexivity).
  rewrite (Qcompare_comp _ _ E2 (1 # 2) (1 # 2) (Qeq_refl _)). reflexivity.
Qed.

Lemma roundEven_Z n : roundEven (inject_Z n) = n.
Proof.
  unfold roundEven. rewrite Qfloor_Z.
  assert (E : (inject_Z n - inject_Z n ?= 1 # 2)%Q = Lt).
  { apply (proj1 (Qlt_alt _ _)). lra. }
  rewrite E. reflexivity.
Qed.

Lemma roundEven_bounds x : Qfloor x ≤ roundEven x ≤ Qfloor x + 1.
Proof.
  unfold roundEven. destruct (_ ?= _)%Q; [destruct (Z.even _)| |]; lia.
Qed.

Lemma roundEven_mono x y : (x <= y)%Q → roundEven x ≤ roundEven y.
Proof.
  intros H. pose proof (Qfloor_resp_le x y H) as Hf.
  destruct (Z.eq_dec (Qfloor x) (Qfloor y)) as [E|N].
  - unfold roundEven. rewrite E.
    destruct (Qcompare_spec (x - inject_Z (Qfloor y)) (1 # 2)) as [A|A|A];
      destruct (Qcompare_spec (y - inject_Z (Qfloor y)) (1 # 2)) as [B|B|B];
      try (destruct (Z.even (Qfloor y))); try lia; exfalso; lra.
  - pose proof (roundEven_bounds x). pose proof (roundEven_bounds y). lia.
Qed.

Lemma nearest_eq x :
  (nearest x == inject_Z (roundEven (x / 2 ^ ulpExp x)) * 2 ^ ulpExp x)%Q.
Proof. unfold nearest. apply Qred_correct. Qed.

Lemma nearest_comp x y : (0 < x)%Q → (x == y)%Q → nearest x = nearest y.
Proof.
  intros Hx E. unfold nearest, ulpExp. rewrite (ilog2_comp x y Hx E).
  apply Qred_complete.
  rewrite (roundEven_comp (x / _) (y / 2 ^ Z.max (ilog2 y - 52) (-1074))).
  - reflexivity.
  - rewrite E. reflexivity.
Qed.

(** Rounding onto a grid does not pass a point of the grid. *)
Lemma grid_le x g B :
  (0 < g)%Q → (x <= inject_Z B * g)%Q →
  (inject_Z (roundEven (x / g)) * g <= inject_Z B * g)%Q.
Proof.
  intros Hg H. apply Qmult_le_r; [exact Hg|]. rewrite <- Zle_Qle.
  rewrite <- (roundEven_Z B). apply roundEven_mono.
  apply Qle_shift_div_r; assumption.
Qed.

Lemma grid_ge x g B :
  (0 < g)%Q → (inject_Z B * g <= x)%Q →
  (inject_Z B * g <= inject_Z (roundEven (x / g)) * g)%Q.
Proof.
  intros Hg H. apply Qmult_le_r; [exact Hg|]. rewrite <- Zle_Qle.
  rewrite <- (roundEven_Z B) at 1. apply roundEven_mono.
  apply Qle_shift_div_l; assumption.
Qed.

Lemma pow2_grid a q : q ≤ a → (2 ^ a == inject_Z (2 ^ (a - q)) * 2 ^ q)%Q.
Proof.
  intros H. rewrite <- (pow2_Z (a - q)) by lia. rewrite <- pow2_plus.
  replace (a - q + q) with a by lia. reflexivity.
Qed.

Lemma nearest_mono x y : (0 < x)%Q → (x <= y)%Q → (nearest x <= nearest y)%Q.
Proof.
  intros Hx Hxy.
  assert (Hy : (0 < y)%Q) by (eapply Qlt_le_trans; eassumption).
  rewrite !nearest_eq.
  pose proof (ilog2_mono x y Hx Hxy) as He.
  destruct (ilog2_spec x Hx) as [_ X2]. destruct (ilog2_spec y Hy) as [Y1 _].
  unfold ulpExp.
  destruct (Z.eq_dec (Z.max (ilog2 x - 52) (-1074)) (Z.max (ilog2 y - 52) (-1074)))
    as [E|N].
  - rewrite E. set (q := Z.max (ilog2 y - 52) (-1074)).
    apply Qmult_le_r; [apply pow2_pos|]. rewrite <- Zle_Qle.
    apply roundEven_mono. apply Qmult_le_r; [apply Qinv_lt_0_compat, pow2_pos|].
    exact Hxy.
  - set (qx := Z.max (ilog2 x - 52) (-1074)) in *.
    set (qy := Z.max (ilog2 y - 52) (-1074)) in *.
    assert (Hlt : ilog2 x + 1 ≤ ilog2 y) by lia.
    assert (Hxb : (x <= 2 ^ ilog2 y)%Q).
    { apply Qlt_le_weak. eapply Qlt_le_trans; [exact X2 | apply pow2_le; exact Hlt]. }
    apply Qle_trans with (2 ^ ilog2 y)%Q.
    + rewrite (pow2_grid (ilog2 y) qx) by lia.
      apply grid_le; [apply pow2_pos|].
      rewrite <- (pow2_grid (ilog2 y) qx) by lia. exact Hxb.
    + rewrite (pow2_grid (ilog2 y) qy) at 1 by lia.
      apply grid_ge; [apply pow2_pos|].
      rewrite <- (pow2_grid (ilog2 y) qy) by lia. exact Y1.
Qed.

Lemma nearest_nonneg x : (0 < x)%Q → (0 <= nearest x)%Q.
Proof.
  intros Hx. rewrite nearest_eq.
  apply Qmult_le_0_compat; [|apply Qlt_le_weak, pow2_pos].
  change 0%Q with (inject_Z 0). rewrite <- Zle_Qle.
  rewrite <- (roundEven_Z 0). apply roundEven_mono.
  apply Qle_shift_div_l; [apply pow2_pos|].
  change (inject_Z 0) with 0%Q. rewrite Qmult_0_l. apply Qlt_le_weak. exact Hx.
Qed.


Lemma Qred_inject_Z n : Qred (inject_Z n) = inject_Z n.
Proof.
  unfold Qred, inject_Z.
  pose proof (Z.ggcd_gcd n 1) as Hg. pose proof (Z.ggcd_correct_divisors n 1) as Hd.
  destruct (Z.ggcd n 1) as [g [a b]]. simpl in *.
  rewrite Z.gcd_1_r in Hg. subst g. destruct Hd as [Ha Hb].
  assert (a = n) as -> by lia. assert (b = 1) as -> by lia. reflexivity.
Qed.

(** A number with at most 53 significant bits, at a scale that is not
    below the subnormals, is on the grid of the doubles. *)
Lemma grid_exact M q :
  1 ≤ M ≤ 2 ^ 53 → -1074 ≤ q →
  (nearest (inject_Z M * 2 ^ q) == inject_Z M * 2 ^ q)%Q.
Proof.
  intros [HM1 HM2] Hq. set (y := (inject_Z M * 2 ^ q)%Q).
  set (L := Z.log2 M).
  destruct (Z.log2_spec M ltac:(lia)) as [L1 L2]. fold L in L1, L2.
  assert (HL0 : 0 ≤ L) by apply Z.log2_nonneg.
  assert (HL53 : L ≤ 53).
  { destruct (Z_lt_le_dec 53 L) as [H|H]; [|exact H].
    exfalso. assert (2 ^ 54 ≤ 2 ^ L) by (apply Z.pow_le_mono_r; lia). lia. }
  pose proof (pow2_pos q) as Pq.
  assert (Y1 : (2 ^ (L + q) <= y)%Q).
  { rewrite pow2_plus. unfold y. apply Qmult_le_r; [exact Pq|].
    rewrite (pow2_Z L HL0), <- Zle_Qle. exact L1. }
  assert (Y2 : (y < 2 ^ (L + q + 1))%Q).
  { replace (L + q + 1) with (L + 1 + q) by lia.
    rewrite pow2_plus. unfold y. apply Qmult_lt_r; [exact Pq|].
    rewrite (pow2_Z (L + 1)) by lia. rewrite <- Zlt_Qlt. exact L2. }
  rewrite nearest_eq. unfold ulpExp. rewrite (ilog2_unique y (L + q) Y1 Y2).
  destruct (Z.eq_dec L 53) as [E|N].
  - assert (M = 2 ^ 53) as HM.
    { rewrite E in L1. lia. }
    replace (Z.max (L + q - 52) (-1074)) with (q + 1) by lia.
    rewrite (roundEven_comp _ (inject_Z (2 ^ 52))).
    + rewrite roundEven_Z. unfold y. rewrite HM.
      rewrite <- !pow2_Z by lia. rewrite <- !pow2_plus.
      replace (52 + (q + 1)) with (53 + q) by lia. reflexivity.
    + unfold y. rewrite HM. rewrite <- !pow2_Z by lia.
      apply Qmult_inj_r with (2 ^ (q + 1))%Q.
      { intros X. pose proof (pow2_pos (q + 1)). lra. }
      unfold Qdiv. rewrite <- Qmult_assoc, (Qmult_comm (/ _)), Qmult_inv_r.
      * rewrite Qmult_1_r, <- !pow2_plus.
        replace (52 + (q + 1)) with (53 + q) by lia. reflexivity.
      * intros X. pose proof (pow2_pos (q + 1)). lra.
  - set (q' := Z.max (L + q - 52) (-1074)).
    assert (Hq' : q' ≤ q) by lia.
    rewrite (roundEven_comp _ (inject_Z (M * 2 ^ (q - q')))).
    + rewrite roundEven_Z, inject_Z_mult. unfold y.
      rewrite <- (pow2_Z (q - q')) by lia. rewrite <- Qmult_assoc, <- pow2_plus.
      replace (q - q' + q') with q by lia. reflexivity.
    + unfold y. rewrite inject_Z_mult, <- (pow2_Z (q - q')) by lia.
      apply Qmult_inj_r with (2 ^ q')%Q.
      { intros X. pose proof (pow2_pos q'). lra. }
      unfold Qdiv. rewrite <- !Qmult_assoc, (Qmult_comm (/ _)), Qmult_inv_r.
      * rewrite Qmult_1_r, <- pow2_plus.
        replace (q - q' + q') with q by lia. reflexivity.
      * intros X. pose proof (pow2_pos q'). lra.
Qed.

(** What [nearest] returns has at most 53 significant bits. *)
Lemma nearest_grid x : (0 < x)%Q →
  0 ≤ roundEven (x / 2 ^ ulpExp x) ≤ 2 ^ 53 ∧ -1074 ≤ ulpExp x.
Proof.
  intros Hx. split; [|unfold ulpExp; lia].
  destruct (ilog2_spec x Hx) as [_ X2].
  pose proof (pow2_pos (ulpExp x)) as Pg.
  split.
  - rewrite <- (roundEven_Z 0). apply roundEven_mono.
    apply Qle_shift_div_l; [exact Pg|].
    change (inject_Z 0) with 0%Q. rewrite Qmult_0_l. apply Qlt_le_weak. exact Hx.
  - rewrite <- (roundEven_Z (2 ^ 53)). apply roundEven_mono.
    apply Qle_shift_div_r; [exact Pg|].
    rewrite <- (pow2_Z 53) by lia. rewrite <- pow2_plus.
    apply Qlt_le_weak. eapply Qlt_le_trans; [exact X2|].
    apply pow2_le. unfold ulpExp. lia.
Qed.

Lemma nearest_idem x : (0 < x)%Q → (0 < nearest x)%Q →
  nearest (nearest x) = nearest x.
Proof.
  intros Hx Hy.
  destruct (nearest_grid x Hx) as [[M0 M53] Hq].
  set (M := roundEven (x / 2 ^ ulpExp x)) in *. set (q := ulpExp x) in *.
  pose proof (nearest_eq x) as E. fold q M in E.
  assert (HM : 1 ≤ M).
  { destruct (Z.eq_dec M 0) as [Z|NZ]; [|lia].
    rewrite Z in E. change (inject_Z 0) with 0%Q in E. rewrite Qmult_0_l in E.
    rewrite E in Hy. inversion Hy. }
  rewrite (nearest_comp (nearest x) (inject_Z M * 2 ^ q) Hy E).
  pose proof (grid_exact M q (conj HM M53) Hq) as G.
  unfold nearest at 2. fold q M.
  unfold nearest in G |- *. apply Qred_complete.
  rewrite Qred_correct in G. exact G.
Qed.

Lemma round64_pos x : (0 < x)%Q →
  round64 x = if Qle_bool (2 ^ 1024) (nearest x) then PosInf else Fin (nearest x).
Proof. intros H. unfold round64. rewrite (proj1 (Qgt_alt _ _) H). reflexivity. Qed.

Lemma round64_neg x : (x < 0)%Q →
  round64 x
  = if Qle_bool (2 ^ 1024) (nearest (- x)) then NegInf else Fin (- nearest (- x)).
Proof. intros H. unfold round64. rewrite (proj1 (Qlt_alt _ _) H). reflexivity. Qed.

Lemma round64_zero x : (x == 0)%Q → round64 x = Fin 0.
Proof. intros H. unfold round64. rewrite (proj1 (Qeq_alt _ _) H). reflexivity. Qed.

(** Rounding depends on the value only. *)
Lemma round64_comp x y : (x == y)%Q → round64 x = round64 y.
Proof.
  intros E. destruct (Q_dec x 0) as [[H|H]|H].
  - rewrite (round64_neg x H), (round64_neg y) by (rewrite <- E; exact H).
    rewrite (nearest_comp (- x) (- y)); [reflexivity | lra | rewrite E; reflexivity].
  - rewrite (round64_pos x H), (round64_pos y) by (rewrite <- E; exact H).
    rewrite (nearest_comp x y H E). reflexivity.
  - rewrite (round64_zero x H), (round64_zero y) by (rewrite <- E; exact H).
    reflexivity.
Qed.

Lemma round64_not_NaN x : isNaN (round64 x) = false.
Proof.
  unfold round64. destruct (x ?= 0)%Q; [reflexivity| |];
    destruct (Qle_bool _ _); reflexivity.
Qed.

Lemma le_Fin x y : (Fin x <= Fin y)%js ↔ (x <= y)%Q.
Proof. unfold le. simpl. apply Qle_bool_iff. Qed.

Lemma le_refl a : isNaN a = false → (a <= a)%js.
Proof. destruct a; try reflexivity; [|discriminate]. intros _. apply le_Fin, Qle_refl. Qed.

Lemma le_trans a b c : (a <= b)%js → (b <= c)%js → (a <= c)%js.
Proof.
  destruct a, b, c; unfold le; simpl; try congruence.
  rewrite !Qle_bool_iff. apply Qle_trans.
Qed.

(** Rounding keeps order. *)
Lemma round64_mono x y : (x <= y)%Q → (round64 x <= round64 y)%js.
Proof.
  intros Hxy.
  destruct (Q_dec x 0) as [[Hx|Hx]|Hx]; destruct (Q_dec y 0) as [[Hy|Hy]|Hy];
    try (exfalso; lra).
  - rewrite (round64_neg x Hx), (round64_neg y Hy).
    assert (H : (nearest (- y) <= nearest (- x))%Q) by (apply nearest_mono; lra).
    destruct (Qle_bool (2 ^ 1024) (nearest (- x))) eqn:Ex;
      destruct (Qle_bool (2 ^ 1024) (nearest (- y))) eqn:Ey; try reflexivity.
    + apply Qle_bool_iff in Ey.
      assert (Qle_bool (2 ^ 1024) (nearest (- x)) = true)
        by (apply Qle_bool_iff; eapply Qle_trans; eassumption).
      congruence.
    + apply le_Fin. lra.
  - rewrite (round64_neg x Hx), (round64_pos y Hy).
    pose proof (nearest_nonneg (- x) ltac:(lra)). pose proof (nearest_nonneg y Hy).
    destruct (Qle_bool _ (nearest (- x))); destruct (Qle_bool _ (nearest y));
      try reflexivity.
    apply le_Fin. lra.
  - rewrite (round64_neg x Hx), (round64_zero y Hy).
    pose proof (nearest_nonneg (- x) ltac:(lra)).
    destruct (Qle_bool _ (nearest (- x))); [reflexivity|]. apply le_Fin. lra.
  - rewrite (round64_pos x Hx), (round64_pos y Hy).
    pose proof (nearest_mono x y Hx Hxy) as H.
    destruct (Qle_bool (2 ^ 1024) (nearest x)) eqn:Ex;
      destruct (Qle_bool (2 ^ 1024) (nearest y)) eqn:Ey; try reflexivity.
    + apply Qle_bool_iff in Ex.
      assert (Qle_bool (2 ^ 1024) (nearest y) = true)
        by (apply Qle_bool_iff; eapply Qle_trans; eassumption).
      congruence.
    + apply le_Fin. exact H.
  - rewrite (round64_zero x Hx), (round64_pos y Hy).
    pose proof (nearest_nonneg y Hy).
    destruct (Qle_bool _ (nearest y)); [reflexivity|]. apply le_Fin. exact H.
  - rewrite (round64_zero x Hx), (round64_zero y Hy). apply le_Fin. lra.
Qed.

Lemma round64_nonneg x : (0 <= x)%Q → (Fin 0 <= round64 x)%js.
Proof. intros H. change (Fin 0) with (round64 0). apply round64_mono. exact H. Qed.

Lemma Qred_zero q : (0 == Qred q)%Q → Qred q = 0%Q.
Proof.
  intros H. rewrite <- (Qred_complete _ _ (Qred_correct q)).
  apply (Qred_complete (Qred q) 0). symmetry. exact H.
Qed.

(** Every result of rounding is a double. *)
Lemma round64_isDouble x : isDouble (round64 x).
Proof.
  destruct (Q_dec x 0) as [[H|H]|H].
  - rewrite (round64_neg x H).
    destruct (Qle_bool (2 ^ 1024) (nearest (- x))) eqn:E; [exact I|]. simpl.
    pose proof (nearest_nonneg (- x) ltac:(lra)) as Hn.
    destruct (Qle_lt_or_eq _ _ Hn) as [Hp|Hz].
    + rewrite round64_neg by lra.
      rewrite (nearest_comp (- - nearest (- x)) (nearest (- x)))
        by (try lra; apply Qopp_involutive).
      rewrite (nearest_idem (- x)) by (try lra; exact Hp).
      rewrite E. reflexivity.
    + assert (Hz' : nearest (- x) = 0%Q) by (apply Qred_zero; exact Hz).
      rewrite Hz'. reflexivity.
  - rewrite (round64_pos x H).
    destruct (Qle_bool (2 ^ 1024) (nearest x)) eqn:E; [exact I|]. simpl.
    pose proof (nearest_nonneg x H) as Hn.
    destruct (Qle_lt_or_eq _ _ Hn) as [Hp|Hz].
    + rewrite round64_pos by exact Hp.
      rewrite (nearest_idem x H Hp), E. reflexivity.
    + assert (Hz' : nearest x = 0%Q) by (apply Qred_zero; exact Hz).
      rewrite Hz'. reflexivity.
  - rewrite (round64_zero x H). reflexivity.
Qed.

(** A result of rounding that is zero is written [0]. *)
Lemma round64_value_0 x q : round64 x = Fin q → (q == 0)%Q → q = 0%Q.
Proof.
  intros E Hq. destruct (Q_dec x 0) as [[H|H]|H].
  - rewrite (round64_neg x H) in E. destruct (Qle_bool _ _); [discriminate|].
    injection E as <-.
    assert (Hz : (0 == nearest (- x))%Q) by lra.
    rewrite (Qred_zero _ Hz : nearest (- x) = 0%Q). reflexivity.
  - rewrite (round64_pos x H) in E. destruct (Qle_bool _ _); [discriminate|].
    injection E as <-.
    assert (Hz : (0 == nearest x)%Q) by lra.
    exact (Qred_zero _ Hz).
  - rewrite (round64_zero x H) in E. injection E as <-. reflexivity.
Qed.

(** Integers of at most 53 bits are doubles. *)
Lemma round64_Z n : Z.abs n ≤ 2 ^ 53 → round64 (inject_Z n) = Fin (inject_Z n).
Proof.
  intros Hn.
  assert (Hpos : ∀ m, 1 ≤ m ≤ 2 ^ 53 →
            nearest (inject_Z m) = inject_Z m
            ∧ Qle_bool (2 ^ 1024) (inject_Z m) = false).
  { intros m Hm. split.
    - rewrite <- (Qred_inject_Z m) at 2.
      assert (E : (inject_Z m == inject_Z m * 2 ^ 0)%Q) by (simpl; ring).
      assert (P : (0 < inject_Z m)%Q).
      { change 0%Q with (inject_Z 0). rewrite <- Zlt_Qlt. lia. }
      rewrite (nearest_comp _ _ P E). unfold nearest at 1.
      apply Qred_complete. fold (nearest (inject_Z m * 2 ^ 0)).
      assert (G := grid_exact m 0 Hm ltac:(lia)).
      unfold nearest in G. rewrite Qred_correct in G. rewrite G. symmetry. exact E.
    - destruct (Qle_bool (2 ^ 1024) (inject_Z m)) eqn:E; [|reflexivity].
      apply Qle_bool_iff in E. rewrite (pow2_Z 1024) in E by lia.
      rewrite <- Zle_Qle in E.
      assert (2 ^ 53 < 2 ^ 1024) by (apply Z.pow_lt_mono_r; lia). lia. }
  destruct (Z.lt_trichotomy n 0) as [H|[H|H]].
  - rewrite round64_neg by (change 0%Q with (inject_Z 0); rewrite <- Zlt_Qlt; exact H).
    rewrite <- inject_Z_opp.
    destruct (Hpos (- n) ltac:(lia)) as [A B]. rewrite A, B.
    rewrite <- inject_Z_opp. f_equal. f_equal. lia.
  - subst n. reflexivity.
  - rewrite round64_pos by (change 0%Q with (inject_Z 0); rewrite <- Zlt_Qlt; exact H).
    destruct (Hpos n ltac:(lia)) as [A B]. rewrite A, B. reflexivity.
Qed.


Lemma cents_le (a b : Z) : a ≤ b → (a # 100 <= b # 100)%Q.
Proof. intros H. unfold Qle. simpl. lia. Qed.

Lemma cents_opp_le (a b : Z) : - a ≤ b → (- (a # 100) <= b # 100)%Q.
Proof. intros H. unfold Qle, Qopp. simpl. lia. Qed.

Lemma cents_opp_opp_le (a b : Z) : b ≤ a → (- (a # 100) <= - (b # 100))%Q.
Proof. intros H. unfold Qle, Qopp. simpl. lia. Qed.

Lemma Qfloor_nonneg q : (0 <= q)%Q → 0 ≤ Qfloor q.
Proof. intros H. change 0 with (Qfloor 0). apply Qfloor_resp_le. exact H. Qed.

Lemma Qle_bool_false a b : Qle_bool a b = false → (b < a)%Q.
Proof.
  intros H. apply Qnot_le_lt. intros X. apply Qle_bool_iff in X. congruence.
Qed.

(** Rounding to cents keeps order. *)
Lemma cents_mono x y : (x <= y)%Q → (cents x <= cents y)%Q.
Proof.
  intros Hxy. unfold cents.
  destruct (Qle_bool 0 x) eqn:Hx.
  - assert (Hy : Qle_bool 0 y = true).
    { apply Qle_bool_iff. apply Qle_bool_iff in Hx. eapply Qle_trans; eassumption. }
    rewrite Hy. apply cents_le. apply Qfloor_resp_le. lra.
  - apply Qle_bool_false in Hx.
    assert (Hnx : 0 ≤ Qfloor (- x * 100 + (1 # 2))) by (apply Qfloor_nonneg; lra).
    destruct (Qle_bool 0 y) eqn:Hy.
    + apply Qle_bool_iff in Hy.
      assert (Hny : 0 ≤ Qfloor (y * 100 + (1 # 2))) by (apply Qfloor_nonneg; lra).
      apply cents_opp_le. lia.
    + apply cents_opp_opp_le. apply Qfloor_resp_le. lra.
Qed.

Lemma toFixed2_not_NaN a : isNaN (toFixed2 a) = isNaN a.
Proof.
  destruct a; try reflexivity. unfold toFixed2.
  destruct (Qle_bool _ _); [reflexivity | apply round64_not_NaN].
Qed.

Lemma ten21 : round64 (cents (10 ^ 21)) = Fin (10 ^ 21).
Proof. vm_compute. reflexivity. Qed.

Lemma ten21_neg : round64 (cents (- 10 ^ 21)) = Fin (- 10 ^ 21).
Proof. vm_compute. reflexivity. Qed.

Lemma toFixed2_Fin x :
  toFixed2 (Fin x)
  = if Qle_bool (10 ^ 21) (Qabs x) then Fin x else round64 (cents x).
Proof. reflexivity. Qed.

Lemma le_PosInf a : isNaN a = false → (a <= PosInf)%js.
Proof. destruct a; [reflexivity..|discriminate]. Qed.

Lemma le_NegInf a : isNaN a = false → (NegInf <= a)%js.
Proof. destruct a; [reflexivity..|discriminate]. Qed.

Lemma le_not_NaN a b : (a <= b)%js → isNaN a = false ∧ isNaN b = false.
Proof. destruct a, b; unfold le; cbn [leb]; try discriminate; auto. Qed.

(** [Number(a.toFixed(2))] keeps order. *)
Lemma toFixed2_mono a b : (a <= b)%js → (toFixed2 a <= toFixed2 b)%js.
Proof.
  intros H. destruct (le_not_NaN a b H) as [Na Nb].
  destruct a as [x| | |]; [| |apply le_NegInf; rewrite toFixed2_not_NaN; exact Nb|
                           discriminate].
  2:{ destruct b; try discriminate H. reflexivity. }
  destruct b as [y| | |]; [|apply le_PosInf; rewrite toFixed2_not_NaN; reflexivity|
                           discriminate H | discriminate].
  apply le_Fin in H. rewrite !toFixed2_Fin.
  destruct (Qle_bool (10 ^ 21) (Qabs x)) eqn:Bx;
    destruct (Qle_bool (10 ^ 21) (Qabs y)) eqn:By.
  - apply le_Fin. exact H.
  - apply Qle_bool_iff in Bx. apply Qle_bool_false in By.
    apply Qabs_Qlt_condition in By.
    assert (Hx : (x <= - 10 ^ 21)%Q).
    { revert Bx. apply Qabs_case; intros; lra. }
    apply le_trans with (Fin (- 10 ^ 21)); [apply le_Fin; exact Hx|].
    rewrite <- ten21_neg. apply round64_mono, cents_mono. lra.
  - apply Qle_bool_iff in By. apply Qle_bool_false in Bx.
    apply Qabs_Qlt_condition in Bx.
    assert (Hy : (10 ^ 21 <= y)%Q).
    { revert By. apply Qabs_case; intros; lra. }
    apply le_trans with (Fin (10 ^ 21)); [|apply le_Fin; exact Hy].
    rewrite <- ten21. apply round64_mono, cents_mono. lra.
  - apply round64_mono, cents_mono. exact H.
Qed.

Lemma toFixed2_0 : toFixed2 (Fin 0) = Fin 0.
Proof. reflexivity. Qed.

Lemma toFixed2_nonneg a : (Fin 0 <= a)%js → (Fin 0 <= toFixed2 a)%js.
Proof. intros H. rewrite <- toFixed2_0. apply toFixed2_mono. exact H. Qed.

Lemma toFixed2_finite a : isFinite (toFixed2 a) = true → isFinite a = true.
Proof. destruct a; auto. Qed.


Lemma add_isDouble a b : isDouble (a + b)%js.
Proof.
  destruct a, b; try exact I. apply round64_isDouble.
Qed.

Lemma mul_isDouble a b : isDouble (a * b)%js.
Proof.
  destruct a as [x| | |], b as [y| | |]; try exact I;
    try apply round64_isDouble; unfold mul; destruct (_ * _)%Z; exact I.
Qed.

Lemma toFixed2_isDouble a : isDouble a → isDouble (toFixed2 a).
Proof.
  destruct a as [x| | |]; try (intros; exact I). intros H. rewrite toFixed2_Fin.
  destruct (Qle_bool _ _); [exact H | apply round64_isDouble].
Qed.

Lemma add_nonneg a b : (Fin 0 <= a)%js → (Fin 0 <= b)%js → (Fin 0 <= a + b)%js.
Proof.
  destruct a as [x| | |], b as [y| | |]; try discriminate; try reflexivity.
  intros Ha Hb. apply le_Fin in Ha, Hb. apply round64_nonneg. lra.
Qed.

(** Adding what is not negative to a double does not make it smaller. *)
Lemma le_add_r a s :
  isDouble a → (Fin 0 <= a)%js → (Fin 0 <= s)%js → (a <= a + s)%js.
Proof.
  destruct a as [x| | |], s as [y| | |]; try discriminate; try reflexivity.
  intros Hd _ Hs. apply le_Fin in Hs. simpl in Hd. unfold add.
  rewrite <- Hd at 1. apply round64_mono. lra.
Qed.

Lemma sub_nonneg a d :
  (d <= a)%js → (Fin 0 <= a)%js → d ≠ PosInf → (Fin 0 <= a - d)%js.
Proof.
  destruct a as [x| | |], d as [y| | |]; try discriminate; try reflexivity;
    try (intros _ _ N; elim N; reflexivity).
  intros H _ _. apply le_Fin in H. apply round64_nonneg. lra.
Qed.

Lemma mul_Fin_nonneg x y : (0 <= x)%Q → (0 <= y)%Q → (Fin 0 <= Fin x * Fin y)%js.
Proof. intros Hx Hy. apply round64_nonneg. nra. Qed.

Lemma mul_nonneg_pos a y : (Fin 0 <= a)%js → (0 < y)%Q → (Fin 0 <= a * Fin y)%js.
Proof.
  intros Ha Hy. destruct a as [x| | |]; try discriminate.
  - apply le_Fin in Ha. apply mul_Fin_nonneg; lra.
  - unfold mul, signum. destruct y as [n d]. unfold Qlt in Hy. simpl in Hy.
    destruct n; try lia. reflexivity.
Qed.

Lemma lt_le a b : (a < b)%js → (a <= b)%js.
Proof.
  destruct a as [x| | |], b as [y| | |]; unfold lt, le; simpl; try congruence.
  intros H. apply Qle_bool_iff. apply negb_true_iff in H.
  apply Qle_bool_false in H. lra.
Qed.

Lemma min_le_r a b : isNaN a = false → isNaN b = false → (min a b <= b)%js.
Proof.
  intros Na Nb. unfold min. rewrite Na, Nb. simpl.
  destruct (leb a b) eqn:E; [exact E | apply le_refl; exact Nb].
Qed.

Lemma min_le_l a b : isNaN a = false → isNaN b = false → (min a b <= a)%js.
Proof.
  intros Na Nb. unfold min. rewrite Na, Nb. simpl.
  destruct (leb a b) eqn:E; [apply le_refl; exact Na|].
  destruct a as [x| | |], b as [y| | |]; try discriminate; try reflexivity.
  simpl in E. apply le_Fin. apply Qle_bool_false in E. lra.
Qed.

End Doubles.

(** ** Payment-succeeded events ([markOrderPaid]) *)

Section MarkOrderPaid.
Import Js Schema Webhook.

Lemma markOrderPaid_open now db pi orders id o :
  openFor pi orders id o →
  orderFind db = None →
  markOrderPaid now db pi orders = save db id (verdict now pi o) orders.
Proof.
  intros (Hid & Ht & Hlook & Hc & Hr & Hp & Hps) Hfind.
  unfold markOrderPaid, verdict.
  rewrite Hid, Ht, Hfind, Hlook. simpl.
  rewrite !bool_decide_eq_false_2 by assumption.
  rewrite Hp, Hps. simpl.
  repeat case_match; reflexivity.
Qed.

Lemma failPayment_fields reason o :
  isPaid (failPayment reason o) = isPaid o
  ∧ status (failPayment reason o) = status o
  ∧ paidAt (failPayment reason o) = paidAt o
  ∧ (payment (failPayment reason o) ≫= pay_failureReason) = Some reason
  ∧ paymentStatusIs Pay_failed (failPayment reason o) = true.
Proof. repeat split. Qed.

Lemma settle_fields now pi o :
  isPaid (settle now pi o) = true
  ∧ paidAt (settle now pi o) = Some now
  ∧ paymentStatusIs Pay_paid (settle now pi o) = true
  ∧ (payment (settle now pi o) ≫= pay_amount) = so_amount_received pi
  ∧ (payment (settle now pi o) ≫= pay_currency) = so_currency pi
  ∧ status (settle now pi o)
    = (if decide (status o = St_pending) then St_confirmed else status o).
Proof. unfold settle. case_decide; repeat split. Qed.

Lemma amountComparable_spec e r :
  amountComparable e r = true ↔ ∃ a x, e = Some a ∧ r = Some x ∧ 0 < a.
Proof.
  unfold amountComparable. split.
  - destruct e as [a|], r as [x|]; try discriminate.
    intros H. exists a, x. repeat split. lia.
  - intros (a & x & -> & -> & H). apply Z.ltb_lt. exact H.
Qed.

Lemma currencyComparable_spec e r :
  currencyComparable e r = true
  ↔ ∃ c d, e = Some c ∧ r = Some d ∧ c ≠ ""%string ∧ d ≠ ""%string.
Proof.
  unfold currencyComparable, truthyOpt, truthy. split.
  - destruct e as [[|? ?]|], r as [[|? ?]|]; try discriminate.
    intros _. eexists _, _. repeat split; discriminate.
  - intros (c & d & -> & -> & Hc & Hd).
    destruct c; [congruence|]. destruct d; [congruence|]. reflexivity.
Qed.

(** C1, as amended.  For a verified [payment_intent.succeeded] event whose
    order is stored, neither cancelled nor refunded and not yet paid: when
    the order records a positive [payment.amount], the event carries
    [amount_received] and the two numbers differ, or else when both
    currencies are present and differ once lower-cased, the order is not
    marked paid.  [isPaid] stays false, [payment.status] becomes [failed]
    with the reason of the check that failed, and [status] is left as it
    was. *)
Theorem mismatch_never_marks_paid now db pi orders id o :
  openFor pi orders id o →
  orderFind db = None → orderSave db = None →
  let expectedAmount := payment o ≫= pay_amount in
  let expectedCurrency := payment o ≫= pay_currency in
  let amountOff := amountComparable expectedAmount (so_amount_received pi)
                   && amountMismatch expectedAmount (so_amount_received pi) in
  let currencyOff := currencyComparable expectedCurrency (so_currency pi)
                     && currencyMismatch expectedCurrency (so_currency pi) in
  amountOff || currencyOff = true →
  ∃ o', markOrderPaid now db pi orders = Done (<[id := o']> orders)
        ∧ isPaid o' = false
        ∧ status o' = status o
        ∧ paymentStatusIs Pay_failed o' = true
        ∧ (payment o' ≫= pay_failureReason)
          = Some (if amountOff then "Payment amount mismatch"
                  else "Payment currency mismatch")%string.
Proof.
  intros Hopen Hfind Hsave ea ec amountOff currencyOff Hoff.
  rewrite (markOrderPaid_open _ _ _ _ _ _ Hopen Hfind).
  unfold save. rewrite Hsave.
  destruct Hopen as (_ & _ & _ & _ & _ & Hp & _).
  unfold verdict. fold ea ec amountOff currencyOff.
  destruct amountOff.
  - eexists. split; [reflexivity|].
    destruct (failPayment_fields "Payment amount mismatch" o) as (-> & -> & _ & -> & ->).
    auto.
  - simpl in Hoff. rewrite Hoff.
    eexists. split; [reflexivity|].
    destruct (failPayment_fields "Payment currency mismatch" o) as (-> & -> & _ & -> & ->).
    auto.
Qed.

(** C10, as amended.  [markOrderPaid] compares the amounts only when the
    order records a positive [payment.amount] and the event carries
    [amount_received], and the currencies only when both are present.  For
    an order that is stored, neither cancelled nor refunded and not yet
    paid, a comparison whose precondition fails is skipped, and the event
    marks the order paid ([isPaid = true], [pending] to [confirmed])
    whenever each comparison that is made finds equality; when both
    preconditions fail it does so with no comparison at all. *)
Theorem guarded_checks_mark_paid now db pi orders id o :
  openFor pi orders id o →
  orderFind db = None → orderSave db = None →
  let expectedAmount := payment o ≫= pay_amount in
  let expectedCurrency := payment o ≫= pay_currency in
  (amountComparable expectedAmount (so_amount_received pi) = true →
   amountMismatch expectedAmount (so_amount_received pi) = false) →
  (currencyComparable expectedCurrency (so_currency pi) = true →
   currencyMismatch expectedCurrency (so_currency pi) = false) →
  ∃ o', markOrderPaid now db pi orders = Done (<[id := o']> orders)
        ∧ o' = settle now pi o
        ∧ isPaid o' = true
        ∧ paymentStatusIs Pay_paid o' = true
        ∧ (status o = St_pending → status o' = St_confirmed)
        ∧ (status o ≠ St_pending → status o' = status o).
Proof.
  intros Hopen Hfind Hsave ea ec Ha Hc.
  rewrite (markOrderPaid_open _ _ _ _ _ _ Hopen Hfind).
  unfold save. rewrite Hsave.
  exists (settle now pi o).
  assert (Hv : verdict now pi o = settle now pi o).
  { unfold verdict. fold ea ec.
    destruct (amountComparable ea (so_amount_received pi)).
    - rewrite Ha by reflexivity. simpl.
      destruct (currencyComparable ec (so_currency pi)).
      + rewrite Hc by reflexivity. reflexivity.
      + reflexivity.
    - simpl. destruct (currencyComparable ec (so_currency pi)).
      + rewrite Hc by reflexivity. reflexivity.
      + reflexivity. }
  rewrite Hv.
  destruct (settle_fields now pi o) as (H1 & _ & H3 & _ & _ & H6).
  repeat split; try assumption.
  - intros Hs. rewrite H6. rewrite decide_True by assumption. reflexivity.
  - intros Hs. rewrite H6. rewrite decide_False by assumption. reflexivity.
Qed.

End MarkOrderPaid.

(** ** Webhook deliveries ([handleStripeWebhook]) *)

Section Deliveries.
Import Js Schema Webhook.

Lemma delivers_eventId eid e req : delivers eid e req → eventIdOf e = eid.
Proof.
  intros (_ & _ & _ & Hid & Ht). unfold eventIdOf. rewrite Hid. simpl.
  rewrite Ht. reflexivity.
Qed.

(** A delivery whose ledger record is already stamped. *)
Lemma handle_processed now db req st eid e r :
  delivers eid e req → upsertThrows db = false →
  events st !! (provider, eid) = Some r → is_Some (we_processedAt r) →
  handleStripeWebhook now db req st
  = (duplicate,
     {| events := <[(provider, eid) :=
                      upsertEvent now eid (eventTypeOf e) (eventOrderIdOf e) (Some r)]>
                  (events st);
        orders := orders st |}).
Proof.
  intros Hd Hup Hr Hp. pose proof (delivers_eventId _ _ _ Hd) as Heid.
  destruct Hd as (Hcfg & Hsig & Hev & _ & Ht).
  unfold handleStripeWebhook.
  rewrite Hcfg, Hsig, Hev. simpl. rewrite Heid, Ht, Hup. simpl.
  rewrite Hr. simpl. rewrite bool_decide_eq_true_2 by assumption. reflexivity.
Qed.

(** A delivery whose ledger record is absent or not yet stamped. *)
Lemma handle_unprocessed now db req st eid e :
  delivers eid e req → upsertThrows db = false →
  processedAtOf eid (events st) = None →
  let key := (provider, eid) in
  let rec := upsertEvent now eid (eventTypeOf e) (eventOrderIdOf e) (events st !! key) in
  let evs := <[key := rec]> (events st) in
  we_processedAt rec = None
  ∧ handleStripeWebhook now db req st
    = match dispatch now db e (orders st) with
      | Thrown err =>
        (transient,
         {| events := if lastErrorWriteThrows db then evs
                      else <[key := setLastError (lastErrorText err) rec]> evs;
            orders := orders st |})
      | Done os' =>
        match processedWriteThrows db with
        | Some x => ({| statusCode := 500; body := Unhandled x |},
                     {| events := evs; orders := os' |})
        | None => (received,
                   {| events := <[key := setProcessed now rec]> evs; orders := os' |})
        end
      end.
Proof.
  intros Hd Hup Hp key rec evs. pose proof (delivers_eventId _ _ _ Hd) as Heid.
  destruct Hd as (Hcfg & Hsig & Hev & _ & Ht).
  assert (Hrec : we_processedAt rec = None).
  { unfold rec, processedAtOf in *. fold key in Hp.
    destruct (events st !! key) as [r|]; simpl in *; [exact Hp | reflexivity]. }
  split; [exact Hrec|].
  unfold handleStripeWebhook.
  rewrite Hcfg, Hsig, Hev. simpl. rewrite Heid, Ht, Hup. simpl.
  fold key. fold rec. rewrite Hrec.
  rewrite bool_decide_eq_false_2 by (intros [? ?]; discriminate).
  fold evs. reflexivity.
Qed.

(** The first delivery of an event id leaves a ledger record with
    [attempts = 1], whatever the handler does. *)
Lemma first_delivery_creates_record now db req st eid e :
  delivers eid e req → upsertThrows db = false →
  events st !! (provider, eid) = None →
  we_attempts <$> events (handleStripeWebhook now db req st).2 !! (provider, eid)
  = Some 1.
Proof.
  intros Hd Hup Hnone.
  assert (Hp : processedAtOf eid (events st) = None).
  { unfold processedAtOf. rewrite Hnone. reflexivity. }
  destruct (handle_unprocessed now db req st eid e Hd Hup Hp) as [_ ->].
  rewrite Hnone.
  destruct (dispatch now db e (orders st)); simpl.
  - destruct (processedWriteThrows db); simpl; rewrite lookup_insert_eq; reflexivity.
  - destruct (lastErrorWriteThrows db); rewrite lookup_insert_eq; reflexivity.
Qed.

Lemma later_deliveries eid t (later : list (Z * Faults * Request)) :
  Forall (λ d, upsertThrows d.1.2 = false ∧ ∃ e, delivers eid e d.2) later →
  ∀ st r,
    events st !! (provider, eid) = Some r → we_processedAt r = Some t →
    ∃ evs r',
      deliverAll later st
      = (replicate (length later) duplicate, {| events := evs; orders := orders st |})
      ∧ evs !! (provider, eid) = Some r'
      ∧ we_attempts r' = we_attempts r + Z.of_nat (length later)
      ∧ we_processedAt r' = Some t.
Proof.
  induction 1 as [|[[now db] req] later [Hup [e Hd]] _ IH]; intros st r Hr Hp.
  - exists (events st), r. simpl. destruct st. repeat split; auto. lia.
  - simpl in Hup, Hd. cbn [deliverAll].
    rewrite (handle_processed now db req st eid e r Hd Hup Hr) by (rewrite Hp; eauto).
    set (r1 := upsertEvent now eid (eventTypeOf e) (eventOrderIdOf e) (Some r)).
    set (st1 := {| events := <[(provider, eid) := r1]> (events st); orders := orders st |}).
    destruct (IH st1 r1) as (evs & r' & Heq & Hr' & Hatt & Hp').
    { apply lookup_insert_eq. }
    { exact Hp. }
    exists evs, r'. rewrite Heq. simpl. repeat split; auto.
    rewrite Hatt. simpl. lia.
Qed.

(** C2.  The first delivery of an event id creates the ledger record with
    [attempts = 1] and runs the handler; once the handler has completed and
    [processedAt] is stamped, every later delivery of the same
    [(provider, eventId)] is answered with success flagged as a duplicate,
    leaves the order collection exactly as the first delivery left it, and
    changes the ledger record only by counting the attempt (and refreshing
    [type], [orderId] and [lastSeenAt] from the delivery). *)
Theorem duplicate_deliveries_apply_once now db req st eid e os1
    (later : list (Z * Faults * Request)) :
  delivers eid e req → upsertThrows db = false →
  events st !! (provider, eid) = None →
  dispatch now db e (orders st) = Done os1 →
  processedWriteThrows db = None →
  Forall (λ d, upsertThrows d.1.2 = false ∧ ∃ e', delivers eid e' d.2) later →
  ∃ evs r,
    deliverAll ((now, db, req) :: later) st
    = (received :: replicate (length later) duplicate,
       {| events := evs; orders := os1 |})
    ∧ evs !! (provider, eid) = Some r
    ∧ we_attempts r = 1 + Z.of_nat (length later)
    ∧ we_processedAt r = Some now.
Proof.
  intros Hd Hup Hnone Hdisp Hpw Hlater.
  assert (Hp : processedAtOf eid (events st) = None).
  { unfold processedAtOf. rewrite Hnone. reflexivity. }
  destruct (handle_unprocessed now db req st eid e Hd Hup Hp) as [_ Hstep].
  rewrite Hdisp, Hpw, Hnone in Hstep.
  cbn [deliverAll]. rewrite Hstep.
  set (r1 := setProcessed now (upsertEvent now eid (eventTypeOf e) (eventOrderIdOf e) None)).
  match goal with |- context [ {| events := ?E; orders := os1 |} ] =>
    set (st1 := {| events := E; orders := os1 |}) end.
  destruct (later_deliveries eid now later Hlater st1 r1) as (evs & r' & Heq & Hr' & Hatt & Hp').
  { apply lookup_insert_eq. }
  { reflexivity. }
  exists evs, r'. rewrite Heq. simpl. repeat split; auto.
Qed.

(** C3.  For a delivery whose ledger record is not yet stamped: if the
    dispatched handler throws, the response is the transient 500, the order
    collection is untouched, [processedAt] stays unset, so that the next
    delivery runs the handler again, and [lastError] holds the error text
    whenever that ledger write is not itself rejected; and [processedAt] is
    set after the delivery only if the handler completed without throwing. *)
Theorem processedAt_only_after_handler_success now db req st eid e :
  delivers eid e req → upsertThrows db = false →
  processedAtOf eid (events st) = None →
  (∀ err, dispatch now db e (orders st) = Thrown err →
     (handleStripeWebhook now db req st).1 = transient
     ∧ orders (handleStripeWebhook now db req st).2 = orders st
     ∧ processedAtOf eid (events (handleStripeWebhook now db req st).2) = None
     ∧ (lastErrorWriteThrows db = false →
        (events (handleStripeWebhook now db req st).2 !! (provider, eid)
           ≫= we_lastError) = Some (lastErrorText err)))
  ∧ (is_Some (processedAtOf eid (events (handleStripeWebhook now db req st).2)) →
     ∃ os', dispatch now db e (orders st) = Done os'
            ∧ (handleStripeWebhook now db req st).1 = received
            ∧ orders (handleStripeWebhook now db req st).2 = os').
Proof.
  intros Hd Hup Hp.
  destruct (handle_unprocessed now db req st eid e Hd Hup Hp) as [Hrec Hstep].
  rewrite Hstep. clear Hstep.
  set (rec := upsertEvent now eid (eventTypeOf e) (eventOrderIdOf e)
                (events st !! (provider, eid))) in *.
  split.
  - intros err Herr. rewrite Herr. simpl. repeat split.
    + unfold processedAtOf.
      destruct (lastErrorWriteThrows db); rewrite lookup_insert_eq; simpl; exact Hrec.
    + intros ->. rewrite lookup_insert_eq. reflexivity.
  - destruct (dispatch now db e (orders st)) as [os'|err].
    + destruct (processedWriteThrows db); simpl.
      * unfold processedAtOf. rewrite lookup_insert_eq. simpl. rewrite Hrec.
        intros [? ?]; discriminate.
      * intros _. exists os'. repeat split.
    + simpl. unfold processedAtOf.
      destruct (lastErrorWriteThrows db); rewrite lookup_insert_eq; simpl;
        rewrite Hrec; intros [? ?]; discriminate.
Qed.

End Deliveries.

(** ** The webhook properties at concrete deliveries *)

Section WebhookInstances.
Import Js Schema Webhook Samples.

(** An order bound to 2457 minor units in [usd] receives a succeeded event
    that settled 1000: the payment is failed, the order stays unpaid. *)
Lemma mismatch_never_marks_paid_witness :
  ∃ o', markOrderPaid 7 noFaults (intent (Some 1000) (Some "usd"%string))
          {[ oid := orderWith St_pending (boundPayment (Some 2457) (Some "usd"%string)) ]}
        = Done (<[oid := o']>
            {[ oid := orderWith St_pending (boundPayment (Some 2457) (Some "usd"%string)) ]})
        ∧ isPaid o' = false
        ∧ status o' = St_pending
        ∧ paymentStatusIs Pay_failed o' = true
        ∧ (payment o' ≫= pay_failureReason) = Some "Payment amount mismatch"%string.
Proof.
  apply (mismatch_never_marks_paid 7 noFaults (intent (Some 1000) (Some "usd"%string))
           {[ oid := orderWith St_pending (boundPayment (Some 2457) (Some "usd"%string)) ]}
           oid (orderWith St_pending (boundPayment (Some 2457) (Some "usd"%string)))).
  - repeat split; try reflexivity; discriminate.
  - reflexivity.
  - reflexivity.
  - reflexivity.
Defined.

(** C1 fails as stated: the order records the amount 0 and the currency
    [usd]; the event settled 500 in [usd].  The amounts differ, yet the
    amount check is skipped (0 is not positive) and the order is marked
    paid and confirmed. *)
Lemma mismatch_marked_paid_counterexample :
  let o := orderWith St_pending (boundPayment (Some 0) (Some "usd"%string)) in
  let pi := intent (Some 500) (Some "usd"%string) in
  so_amount_received pi ≠ (payment o ≫= pay_amount)
  ∧ ∃ o', markOrderPaid 7 noFaults pi {[ oid := o ]} = Done {[ oid := o' ]}
          ∧ isPaid o' = true
          ∧ status o' = St_confirmed
          ∧ paymentStatusIs Pay_paid o' = true
          ∧ paymentStatusIs Pay_failed o' = false.
Proof.
  split; [discriminate|].
  exists (settle 7 (intent (Some 500) (Some "usd"%string))
            (orderWith St_pending (boundPayment (Some 0) (Some "usd"%string)))).
  split; [vm_compute; reflexivity | repeat split].
Qed.

(** A cancelled order is left alone whatever the event says: a differing
    amount does not turn its payment to [failed]. *)
Example mismatch_on_cancelled_order_ignored :
  let o := orderWith St_cancelled (boundPayment (Some 2457) (Some "usd"%string)) in
  markOrderPaid 7 noFaults (intent (Some 1000) (Some "usd"%string)) {[ oid := o ]}
  = Done {[ oid := o ]}.
Proof. reflexivity. Qed.

(** The order of the repository's own webhook test: no amount recorded, the
    event matches on currency, and the order is marked paid. *)
Lemma guarded_checks_mark_paid_witness :
  ∃ o', markOrderPaid 7 noFaults (intent (Some 2457) (Some "usd"%string))
          {[ oid := orderWith St_pending (boundPayment None (Some "usd"%string)) ]}
        = Done (<[oid := o']>
            {[ oid := orderWith St_pending (boundPayment None (Some "usd"%string)) ]})
        ∧ o' = settle 7 (intent (Some 2457) (Some "usd"%string))
                 (orderWith St_pending (boundPayment None (Some "usd"%string)))
        ∧ isPaid o' = true
        ∧ paymentStatusIs Pay_paid o' = true
        ∧ (status (orderWith St_pending (boundPayment None (Some "usd"%string)))
             = St_pending → status o' = St_confirmed)
        ∧ (status (orderWith St_pending (boundPayment None (Some "usd"%string)))
             ≠ St_pending →
           status o' = status (orderWith St_pending (boundPayment None (Some "usd"%string)))).
Proof.
  apply (guarded_checks_mark_paid 7 noFaults (intent (Some 2457) (Some "usd"%string))
           {[ oid := orderWith St_pending (boundPayment None (Some "usd"%string)) ]}
           oid (orderWith St_pending (boundPayment None (Some "usd"%string)))).
  - repeat split; try reflexivity; discriminate.
  - reflexivity.
  - reflexivity.
  - discriminate.
  - reflexivity.
Defined.

(** C10 fails as stated: the order records no amount, so the amount
    precondition fails; the claim then has the order marked paid with no
    comparison at all, but the currencies are still compared, [eur] is not
    [usd], and the payment is failed. *)
Lemma failed_precondition_still_compares_counterexample :
  let o := orderWith St_pending (boundPayment None (Some "usd"%string)) in
  let pi := intent (Some 500) (Some "eur"%string) in
  amountComparable (payment o ≫= pay_amount) (so_amount_received pi) = false
  ∧ ∃ o', markOrderPaid 7 noFaults pi {[ oid := o ]} = Done {[ oid := o' ]}
          ∧ isPaid o' = false
          ∧ status o' = St_pending
          ∧ paymentStatusIs Pay_failed o' = true
          ∧ (payment o' ≫= pay_failureReason)
            = Some "Payment currency mismatch"%string.
Proof.
  split; [reflexivity|].
  exists (failPayment "Payment currency mismatch"
            (orderWith St_pending (boundPayment None (Some "usd"%string)))).
  split; [vm_compute; reflexivity | repeat split].
Qed.

(** One delivery, then three more of the same event. *)
Lemma duplicate_deliveries_apply_once_witness :
  let o := orderWith St_pending (boundPayment (Some 2457) (Some "usd"%string)) in
  let req := signed (succeeded (intent (Some 2457) (Some "usd"%string))) in
  ∃ evs r,
    deliverAll ((10, noFaults, req)
                :: [(11, noFaults, req); (12, saveRejects, req); (13, noFaults, req)])
      (storeWith o)
    = (received :: replicate 3 duplicate,
       {| events := evs;
          orders := {[ oid := settle 10 (intent (Some 2457) (Some "usd"%string)) o ]} |})
    ∧ evs !! (provider, "evt_1"%string) = Some r
    ∧ we_attempts r = 1 + Z.of_nat 3
    ∧ we_processedAt r = Some 10.
Proof.
  intros o req.
  apply (duplicate_deliveries_apply_once 10 noFaults req (storeWith o) "evt_1"
           (succeeded (intent (Some 2457) (Some "usd"%string)))
           {[ oid := settle 10 (intent (Some 2457) (Some "usd"%string)) o ]}
           [(11, noFaults, req); (12, saveRejects, req); (13, noFaults, req)]).
  - repeat split.
  - reflexivity.
  - reflexivity.
  - vm_compute. reflexivity.
  - reflexivity.
  - repeat constructor; eexists; repeat split.
Defined.

(** A delivery during which [order.save()] rejects. *)
Lemma processedAt_only_after_handler_success_witness :
  let o := orderWith St_pending (boundPayment (Some 2457) (Some "usd"%string)) in
  let req := signed (succeeded (intent (Some 2457) (Some "usd"%string))) in
  let out := handleStripeWebhook 10 saveRejects req (storeWith o) in
  out.1 = transient
  ∧ orders out.2 = orders (storeWith o)
  ∧ processedAtOf "evt_1" (events out.2) = None
  ∧ (events out.2 !! (provider, "evt_1"%string) ≫= we_lastError)
    = Some "connection lost"%string.
Proof.
  intros o req out.
  destruct (processedAt_only_after_handler_success 10 saveRejects req (storeWith o)
              "evt_1" (succeeded (intent (Some 2457) (Some "usd"%string))))
    as [Hthrow _].
  - repeat split.
  - reflexivity.
  - reflexivity.
  - destruct (Hthrow (mkError "connection lost")) as (H1 & H2 & H3 & H4).
    + reflexivity.
    + split; [exact H1|]. split; [exact H2|]. split; [exact H3|].
      exact (H4 eq_refl).
Defined.

End WebhookInstances.

(** ** Operator status updates ([updateOrderStatus]) *)

Section StatusUpdates.
Import Js Schema Admin Samples.

Lemma applyStatusBody_status now b o :
  status (applyStatusBody now b o) = body_status b.
Proof.
  unfold applyStatusBody, whenSome.
  destruct (body_shippingStatus b), (body_trackingNumber b), (body_courier b);
    case_decide; reflexivity.
Qed.

(** C9, as amended.  [updateOrderStatus] applies whatever status the
    validated request names to any stored order and answers with the
    updated order: the current status is not consulted, so a regression is
    applied like any other value. *)
Theorem updateOrderStatus_applies_any_status now id b
    (orders : gmap string Order) o :
  orders !! id = Some o →
  ∃ o', updateOrderStatus now id b orders = (Updated o', <[id := o']> orders)
        ∧ status o' = body_status b.
Proof.
  intros Hlook. unfold updateOrderStatus. rewrite Hlook.
  eexists. split; [reflexivity|]. apply applyStatusBody_status.
Qed.

Lemma updateOrderStatus_applies_any_status_witness :
  ∃ o', updateOrderStatus 20 oid
          {| body_status := St_shipped; body_shippingStatus := Some "shipped"%string;
             body_trackingNumber := Some "TRK1"%string; body_courier := None |}
          {[ oid := orderWith St_processing emptyPayment ]}
        = (Updated o', <[oid := o']> {[ oid := orderWith St_processing emptyPayment ]})
        ∧ status o' = St_shipped.
Proof.
  apply (updateOrderStatus_applies_any_status 20 oid
           {| body_status := St_shipped; body_shippingStatus := Some "shipped"%string;
              body_trackingNumber := Some "TRK1"%string; body_courier := None |}
           {[ oid := orderWith St_processing emptyPayment ]}
           (orderWith St_processing emptyPayment)).
  reflexivity.
Defined.

(** C9 fails as stated: a delivered order is asked back to [processing]; the
    request is a regression, it is answered with the updated order, and the
    stored status is [processing]. *)
Lemma regression_applied_counterexample :
  let o := withDelivered true (Some 5) (orderWith St_delivered emptyPayment) in
  let b := {| body_status := St_processing; body_shippingStatus := None;
              body_trackingNumber := None; body_courier := None |} in
  isRegression (status o) (body_status b) = true
  ∧ ∃ o', updateOrderStatus 20 oid b {[ oid := o ]} = (Updated o', {[ oid := o' ]})
          ∧ status o' = St_processing.
Proof.
  split; [reflexivity|].
  exists (withStatus St_processing
            (withDelivered true (Some 5) (orderWith St_delivered emptyPayment))).
  split; [vm_compute; reflexivity | reflexivity].
Qed.

End StatusUpdates.

(** ** Inventory reservation and compensation *)

Section Reservation.
Import Js Schema Orders.

Lemma incStock_inverse n p : incStock n (incStock (- n) p) = p.
Proof. destruct p. unfold incStock. simpl. f_equal. lia. Qed.

Lemma incStock_comm n m p : incStock n (incStock m p) = incStock m (incStock n p).
Proof. destruct p. unfold incStock. simpl. f_equal. lia. Qed.

(** The compensating increment undoes the decrement it answers. *)
Lemma reserveOne_restock ps it ps' :
  reserveOne ps it = Some ps' → restock ps' it = ps.
Proof.
  unfold reserveOne, restock. intros H.
  destruct (ps !! castId (productId it)) as [p|] eqn:Hp; [|discriminate].
  destruct (enabled p && negb (isDeleted p) && (qty it <=? countInStock p));
    [|discriminate].
  injection H as <-.
  rewrite lookup_insert_eq, insert_insert_eq, incStock_inverse.
  apply insert_id. exact Hp.
Qed.

(** Increments commute, so the order in which [Promise.all] lands them does
    not matter. *)
Lemma restock_comm ps a b : restock (restock ps a) b = restock (restock ps b) a.
Proof.
  unfold restock.
  destruct (decide (castId (productId a) = castId (productId b))) as [E|N].
  - rewrite E. destruct (ps !! castId (productId b)) as [p|] eqn:Hp.
    + rewrite !lookup_insert_eq, !insert_insert_eq, incStock_comm. reflexivity.
    + rewrite ?Hp. reflexivity.
  - destruct (ps !! castId (productId a)) as [p|] eqn:Ha;
      destruct (ps !! castId (productId b)) as [q|] eqn:Hb.
    + rewrite lookup_insert_ne, Hb by assumption.
      rewrite lookup_insert_ne, Ha by (intros X; apply N; symmetry; exact X).
      apply insert_insert_ne. intros X; apply N; symmetry; exact X.
    + rewrite lookup_insert_ne, Hb by assumption. rewrite ?Ha. reflexivity.
    + rewrite ?Hb. rewrite lookup_insert_ne, Ha by (intros X; apply N; symmetry; exact X).
      reflexivity.
    + rewrite ?Hb, ?Ha. reflexivity.
Qed.

Lemma compensate_restock l : ∀ ps d,
  compensate l (restock ps d) = restock (compensate l ps) d.
Proof.
  unfold compensate. induction l as [|x l IH]; intros ps d; simpl.
  - reflexivity.
  - rewrite <- IH. f_equal. apply restock_comm.
Qed.

Lemma rollback_compensate l ps : rollback l ps = compensate l ps.
Proof. unfold rollback. destruct l; reflexivity. Qed.

(** What the fallback loop leaves behind: [decremented] grew by exactly the
    items whose decrement went through, in order; giving all of them back
    leads to the collection the loop started from; and the loop stops short
    only at an item whose conditional decrement matched nothing. *)
Lemma reserveLoop_spec items : ∀ ps dec ok ps' dec',
  reserveLoop items ps dec = (ok, ps', dec') →
  ∃ done rest,
    dec' = dec ++ done ∧ items = done ++ rest
    ∧ reserveAll done ps = Some ps'
    ∧ compensate done ps' = ps
    ∧ (ok = true → rest = [])
    ∧ (ok = false → ∃ it rest', rest = it :: rest' ∧ reserveOne ps' it = None).
Proof.
  induction items as [|it items IH]; intros ps dec ok ps' dec' H; simpl in H.
  - injection H as <- <- <-. exists [], []. rewrite app_nil_r.
    repeat split; auto. discriminate.
  - destruct (reserveOne ps it) as [ps1|] eqn:Hr.
    + destruct (IH _ _ _ _ _ H) as (done & rest & Hdec & Hit & Hall & Hcomp & Hok & Hno).
      exists (it :: done), rest. rewrite <- app_assoc in Hdec.
      repeat split; auto.
      * simpl. rewrite Hit. reflexivity.
      * simpl. rewrite Hr. exact Hall.
      * change (it :: done) with ([it] ++ done). unfold compensate.
        rewrite foldl_app. simpl.
        fold (compensate done (restock ps' it)).
        rewrite compensate_restock, Hcomp. apply reserveOne_restock. exact Hr.
    + injection H as <- <- <-. exists [], (it :: items). rewrite app_nil_r.
      repeat split; auto; [discriminate|].
      intros _. eauto.
Qed.

(** The two loops decide alike and, when every decrement goes through, leave
    the same collection. *)
Lemma reserveLoop_reserveAll items ps dec :
  reserveAll items ps
  = (if (reserveLoop items ps dec).1.1 then Some (reserveLoop items ps dec).1.2 else None).
Proof.
  revert ps dec. induction items as [|it items IH]; intros ps dec; simpl.
  - reflexivity.
  - destruct (reserveOne ps it); [apply IH | reflexivity].
Qed.

End Reservation.

(** ** The two atomicity paths of [addOrderItems] *)

Section Paths.
Import Js Schema Orders Samples.

Lemma txStatus_message t : txStatus (message t) = fallbackStatus t.
Proof. destruct t; reflexivity. Qed.

Lemma finalStatus_table t :
  finalStatus (fallbackStatus t)
  = match t with
    | InsufficientStock => 409
    | ProductUnavailable => 400
    | _ => 500
    end.
Proof. destruct t; reflexivity. Qed.

(** A failed request on the fallback path leaves the products as the
    [catch] block left them and stores no order. *)
Lemma fallback_failed env req normalized db st msg db' :
  addOrderItemsFallback env req normalized db = (Failed st msg, db') →
  products db' = rollback (reserveLoop normalized (products db) []).2
                          (reserveLoop normalized (products db) []).1.2
  ∧ orders db' = orders db
  ∧ ((reserveLoop normalized (products db) []).1.1 = false →
     st = 409 ∧ msg = message InsufficientStock).
Proof.
  unfold addOrderItemsFallback.
  destruct (reserveLoop normalized (products db) []) as [[ok ps] dec].
  destruct ok; simpl.
  - destruct (buildOrder env req normalized ps (orders db) (coupons db));
      intros H; inversion H; subst; simpl. repeat split; discriminate.
  - intros H; inversion H; subst; simpl. repeat split.
Qed.

(** C5.  In the fallback path the items split into those whose decrement
    went through and the rest, and giving back every decremented item leads
    to the collection the request found.  When an item fails reservation the
    request is answered 409, and when a later step throws it is answered with
    that step's status: either way the product collection it leaves is the
    one obtained by issuing an increment for every decremented item, so each
    [countInStock] is back at its earlier value, and no order is stored.
    The request fails in no other way.  This is the path [addOrderItems]
    takes for a request with a usable item when transactions are not
    available. *)
Theorem fallback_compensates_every_decrement env req normalized db :
  ∃ done rest ps,
    normalized = done ++ rest
    ∧ reserveAll done (products db) = Some ps
    ∧ compensate done ps = products db
    ∧ (rest = [] ∨ ∃ it rest', rest = it :: rest' ∧ reserveOne ps it = None)
    ∧ (rest ≠ [] →
       addOrderItemsFallback env req normalized db
       = (Failed 409 (message InsufficientStock),
          {| products := compensate done ps; coupons := coupons db;
             orders := orders db |}))
    ∧ (rest = [] → ∀ t cs',
       buildOrder env req normalized ps (orders db) (coupons db) = BuildThrew t cs' →
       addOrderItemsFallback env req normalized db
       = (Failed (finalStatus (fallbackStatus t)) (message t),
          {| products := compensate done ps; coupons := cs';
             orders := orders db |}))
    ∧ (∀ st msg db',
        addOrderItemsFallback env req normalized db = (Failed st msg, db') →
        products db' = compensate done ps
        ∧ products db' = products db
        ∧ orders db' = orders db
        ∧ (rest ≠ [] → st = 409 ∧ msg = message InsufficientStock)
        ∧ (rest = [] → ∃ t cs',
             buildOrder env req normalized ps (orders db) (coupons db)
             = BuildThrew t cs'))
    ∧ (useTransaction env = false →
       normalizeOrderItems (body_orderItems req) = Some normalized →
       normalized ≠ [] →
       addOrderItems env req db = addOrderItemsFallback env req normalized db).
Proof.
  destruct (reserveLoop normalized (products db) []) as [[ok ps] dec] eqn:Hloop.
  destruct (reserveLoop_spec _ _ _ _ _ _ Hloop)
    as (done & rest & Hdec & Hitems & Hall & Hcomp & Hok & Hno).
  simpl in Hdec. subst dec.
  exists done, rest, ps.
  split; [exact Hitems|]. split; [exact Hall|]. split; [exact Hcomp|]. split.
  { destruct ok; [left; auto | right; auto]. }
  split; [|split; [|split]].
  - intros Hrest. unfold addOrderItemsFallback. rewrite Hloop.
    destruct ok; [elim Hrest; apply Hok; reflexivity|].
    simpl. rewrite rollback_compensate. reflexivity.
  - intros Hrest t cs' Hb. unfold addOrderItemsFallback. rewrite Hloop.
    destruct ok.
    + simpl. rewrite Hb, rollback_compensate. reflexivity.
    + destruct (Hno eq_refl) as (it & rest' & E & _). congruence.
  - intros st msg db' Hfail.
    destruct (fallback_failed _ _ _ _ _ _ _ Hfail) as (Hps & Hos & Hst).
    rewrite Hloop in Hps, Hst. simpl in Hps, Hst.
    rewrite rollback_compensate in Hps.
    split; [exact Hps|]. split; [rewrite Hps; exact Hcomp|]. split; [exact Hos|].
    split.
    + intros Hrest. apply Hst. destruct ok; [|reflexivity].
      elim Hrest. apply Hok. reflexivity.
    + intros Hrest. unfold addOrderItemsFallback in Hfail. rewrite Hloop in Hfail.
      destruct ok.
      * simpl in Hfail.
        destruct (buildOrder env req normalized ps (orders db) (coupons db))
          as [o cs'|t cs']; [discriminate | eauto].
      * destruct (Hno eq_refl) as (it & rest' & E & _). congruence.
  - intros Htx Hn Hne. unfold addOrderItems. rewrite Hn, Htx.
    destruct normalized; [congruence | reflexivity].
Qed.

(** C6.  On the same request, surroundings and collections the
    transactional path and the compensating fallback path give the same
    response and leave the same products, coupons and orders.  A failure
    leaves every stock level as it was and is answered 409 when a
    reservation fails, 400 when a product is unavailable for the snapshot,
    and 500 otherwise. *)
Theorem paths_observably_equal env req normalized db :
  addOrderItemsTransaction env req normalized db
  = addOrderItemsFallback env req normalized db
  ∧ addOrderItems (withTransactions true env) req db
    = addOrderItems (withTransactions false env) req db
  ∧ ∀ st msg db',
      addOrderItemsTransaction env req normalized db = (Failed st msg, db') →
      products db' = products db
      ∧ ∃ t, msg = message t
             ∧ st = match t with
                    | InsufficientStock => 409
                    | ProductUnavailable => 400
                    | _ => 500
                    end
             ∧ (t = InsufficientStock ↔ reserveAll normalized (products db) = None).
Proof.
  assert (Heq : ∀ e n, addOrderItemsTransaction e req n db
                       = addOrderItemsFallback e req n db).
  { intros e n. unfold addOrderItemsTransaction, addOrderItemsFallback.
    rewrite (reserveLoop_reserveAll n (products db) []).
    destruct (reserveLoop n (products db) []) as [[ok ps] dec] eqn:Hloop.
    destruct (reserveLoop_spec _ _ _ _ _ _ Hloop)
      as (done & rest & Hdec & Hitems & Hall & Hcomp & Hok & Hno).
    simpl in Hdec. subst dec. simpl.
    rewrite rollback_compensate, Hcomp.
    destruct ok; simpl.
    - destruct (buildOrder e req n ps (orders db) (coupons db)) as [o cs'|t cs'].
      + reflexivity.
      + rewrite txStatus_message. reflexivity.
    - destruct db. reflexivity. }
  split; [apply Heq|]. split.
  - unfold addOrderItems. simpl.
    destruct (normalizeOrderItems (body_orderItems req)) as [n|]; [|reflexivity].
    destruct (Z.of_nat (length n) =? 0); [reflexivity|].
    rewrite Heq. reflexivity.
  - intros st msg db' H. unfold addOrderItemsTransaction in H.
    destruct (reserveAll normalized (products db)) as [ps|] eqn:Hall.
    + destruct (buildOrder env req normalized ps (orders db) (coupons db))
        as [o cs'|t cs'] eqn:Hb; [discriminate|].
      injection H as <- <- <-. split; [reflexivity|].
      exists t. rewrite txStatus_message, finalStatus_table.
      repeat split; try discriminate.
      intros ->. unfold buildOrder in Hb.
      repeat case_match; discriminate.
    + injection H as <- <- <-. split; [reflexivity|].
      exists InsufficientStock. repeat split.
Qed.

End Paths.

(** ** Pricing of a created order *)

Section Pricing.
Import Js Schema Orders Samples.

(** A rounded amount that is not negative is the rounding of the amount
    clamped at 0. *)
Lemma toFixed2_atLeast0 a :
  (Fin 0 <= toFixed2 a)%js → toFixed2 a = toFixed2 (max (Fin 0) a).
Proof.
  intros Hnn. destruct a as [x| | |]; try discriminate Hnn; [|reflexivity].
  unfold max. cbn [isNaN orb leb].
  destruct (Qle_bool 0 x) eqn:Hx; [reflexivity|].
  apply Qle_bool_false in Hx.
  assert (Hle : (toFixed2 (Fin x) <= toFixed2 (Fin 0))%js).
  { apply toFixed2_mono, le_Fin. lra. }
  rewrite toFixed2_0 in Hle |- *.
  destruct (toFixed2 (Fin x)) as [q| | |] eqn:E; try discriminate.
  apply le_Fin in Hnn, Hle.
  assert (Hq : (q == 0)%Q) by lra.
  rewrite toFixed2_Fin in E.
  destruct (Qle_bool (10 ^ 21) (Qabs x)).
  - injection E as <-. lra.
  - rewrite (round64_value_0 _ _ E Hq). reflexivity.
Qed.

(** An order that [buildOrder] hands to the store passed the schema
    validators, and its total is the rounded sum of its stored parts. *)
Lemma buildOrder_built env req normalized ps os cs o cs' :
  buildOrder env req normalized ps os cs = BuiltOrder o cs' →
  validateOrder o = true
  ∧ totalPrice o
    = toFixed2 (itemsPrice o + shippingPrice o + taxPrice o - discountAmount o)%js.
Proof.
  unfold buildOrder. intros H.
  destruct (snapshotItems _ _ _ _) as [[computedItems itemsPrice]|]; [|discriminate].
  destruct (Shipping.calculateShipping _ _ _ _ _) as [shippingCalc|]; [|discriminate].
  destruct (if truthyOpt (couponCode req) then _ else _) as [[couponResult cs1]|];
    [|discriminate].
  match type of H with (if validateOrder ?ord then _ else _) = _ =>
    destruct (validateOrder ord) eqn:Hv; [|discriminate] end.
  injection H as <- <-. split; [exact Hv | reflexivity].
Qed.

Lemma addOrderItems_created env req db id o db' :
  addOrderItems env req db = (Created id o, db') →
  ∃ normalized ps os cs cs',
    buildOrder env req normalized ps os cs = BuiltOrder o cs'.
Proof.
  unfold addOrderItems. intros H.
  destruct (normalizeOrderItems _) as [n|]; [|discriminate].
  destruct (Z.of_nat _ =? 0); [discriminate|].
  destruct (useTransaction env).
  - unfold addOrderItemsTransaction in H.
    destruct (reserveAll _ _) as [ps|]; [|discriminate].
    destruct (buildOrder _ _ _ _ _ _) as [o1 cs'|] eqn:Hb; [|discriminate].
    injection H as _ <- _. eauto 10.
  - unfold addOrderItemsFallback in H.
    destruct (reserveLoop _ _ _) as [[ok ps] dec].
    destruct ok; simpl in H; [|discriminate].
    destruct (buildOrder _ _ _ _ _ _) as [o1 cs'|] eqn:Hb; [|discriminate].
    injection H as _ <- _. eauto 10.
Qed.

(** C7, as amended.  For every order created by [addOrderItems], on either
    path, the persisted pricing fields are all non-negative and
    [totalPrice] is [itemsPrice + shippingPrice + taxPrice - discountAmount],
    taken from left to right in double arithmetic and then rounded to two
    decimals; being non-negative, it is also the rounding of that sum
    clamped at 0. *)
Theorem created_order_pricing env req db id o db' :
  addOrderItems env req db = (Created id o, db') →
  (Fin 0 <= itemsPrice o ∧ Fin 0 <= shippingPrice o ∧ Fin 0 <= taxPrice o
   ∧ Fin 0 <= discountAmount o ∧ Fin 0 <= totalPrice o)%js
  ∧ totalPrice o
    = toFixed2 (itemsPrice o + shippingPrice o + taxPrice o - discountAmount o)%js
  ∧ totalPrice o
    = toFixed2 (max (Fin 0)
        (itemsPrice o + shippingPrice o + taxPrice o - discountAmount o)%js).
Proof.
  intros H.
  destruct (addOrderItems_created _ _ _ _ _ _ H) as (n & ps & os & cs & cs' & Hb).
  destruct (buildOrder_built _ _ _ _ _ _ _ _ Hb) as [Hv Ht].
  unfold validateOrder in Hv.
  repeat (apply andb_prop in Hv; destruct Hv as [Hv ?]).
  assert (Htot : (Fin 0 <= totalPrice o)%js) by assumption.
  repeat split; try assumption.
  rewrite Ht in Htot |- *. apply toFixed2_atLeast0. exact Htot.
Qed.

End Pricing.

(** ** Order placement at concrete requests *)

Section PlacementInstances.
Import Js Schema Orders Samples.

(** One item at 12.99, stock 10, domestic: items 12.99, standard shipping 5,
    tax 2.34, total 20.33, stock 9, on either path. *)
Example domestic_order_totals tx :
  ∃ o db',
    addOrderItems (at100 tx) (checkout [line pidA 1] "UG" None None) (shop 12.99 10 5)
    = (Created (newOrderId (at100 tx)) o, db')
    ∧ itemsPrice o = decimal 12.99 ∧ shippingPrice o = Fin 5
    ∧ taxPrice o = decimal 2.34 ∧ totalPrice o = decimal 20.33
    ∧ countInStock <$> products db' !! pidA = Some 9.
Proof.
  destruct tx; eexists _, _; (split; [vm_compute; reflexivity|]);
    repeat split; vm_compute; reflexivity.
Qed.

(** The sum is taken in doubles: a product priced 0.005 shipped within
    Uganda.  The double nearest to 0.005 plus 5 rounds below 5.005, so the
    total is 5.00 where the sum of the decimals would round to 5.01. *)
Example sum_is_taken_in_doubles tx :
  ∃ o db',
    addOrderItems (at100 tx) (checkout [line pidA 1] "UG" None None) (shop 0.005 10 5)
    = (Created (newOrderId (at100 tx)) o, db')
    ∧ itemsPrice o = decimal 0.005 ∧ shippingPrice o = Fin 5
    ∧ taxPrice o = Fin 0 ∧ discountAmount o = Fin 0
    ∧ totalPrice o = Fin 5
    ∧ cents (0.005 + 5) = 5.01%Q.
Proof.
  destruct tx; eexists _, _; (split; [vm_compute; reflexivity|]);
    repeat split; vm_compute; reflexivity.
Qed.

(** Quantity 2 against stock 1: 409, stock still 1, on either path. *)
Example oversell_rejected tx :
  addOrderItems (at100 tx) (checkout [line pidA 2] "UG" None None) (shop 10 1 5)
  = (Failed 409 "Insufficient stock for one or more items", shop 10 1 5).
Proof. destruct tx; vm_compute; reflexivity. Qed.

(** Two items, the second cannot be reserved: the first one's decrement is
    given back. *)
Example second_item_fails_first_restored :
  addOrderItems (at100 false) (checkout [line pidB 3; line pidA 2] "UG" None None)
    (shop 10 1 5)
  = (Failed 409 "Insufficient stock for one or more items", shop 10 1 5)
  ∧ normalizeOrderItems [line pidB 3; line pidA 2]
    = Some [{| productId := pidB; qty := 3 |}; {| productId := pidA; qty := 2 |}]
  ∧ reserveLoop [{| productId := pidB; qty := 3 |}; {| productId := pidA; qty := 2 |}]
      (products (shop 10 1 5)) []
    = (false, products (shop 10 1 2), [{| productId := pidB; qty := 3 |}]).
Proof. split; [|split]; vm_compute; reflexivity. Qed.

(** A product id sent in upper-case digits is decremented (the store casts
    it) but is not found among the snapshot keys: 400, stock restored. *)
Example uppercase_id_unavailable tx :
  addOrderItems (at100 tx)
    (checkout [line "64B7F3A2C1D2E3F4A5B6C7A1" 1] "UG" None None) (shop 10 2 5)
  = (Failed 400 "One or more products are unavailable", shop 10 2 5).
Proof. destruct tx; vm_compute; reflexivity. Qed.

(** C7 fails as stated: a product priced 0.125 shipped to the US.  The order
    is created with [itemsPrice = 0.125], [shippingPrice = 40], no tax, no
    discount, and [totalPrice = 40.13], which is not their sum 40.125 (a
    sum that double arithmetic takes exactly). *)
Lemma total_is_rounded_counterexample :
  ∃ o db',
    addOrderItems (at100 false) (checkout [line pidA 1] "US" None None)
      (shop 0.125 10 5)
    = (Created (newOrderId (at100 false)) o, db')
    ∧ itemsPrice o = Fin (1 # 8) ∧ shippingPrice o = Fin 40
    ∧ taxPrice o = Fin 0 ∧ discountAmount o = Fin 0
    ∧ totalPrice o = decimal 40.13
    ∧ (itemsPrice o + shippingPrice o + taxPrice o - discountAmount o)%js
      = Fin (321 # 8)
    ∧ totalPrice o
      ≠ max (Fin 0) (itemsPrice o + shippingPrice o + taxPrice o - discountAmount o)%js.
Proof.
  eexists _, _. split; [vm_compute; reflexivity|].
  repeat split; try (vm_compute; reflexivity). vm_compute. discriminate.
Qed.

Lemma created_order_pricing_witness :
  let o := {| user := "u1";
              orderItems :=
                [{| oi_product := pidA; oi_sku := None; oi_name := Some "Kettle"%string;
                    oi_qty := 1; oi_image := None; oi_price := Fin (1 # 8) |}];
              status := St_pending; itemsPrice := Fin (1 # 8);
              shippingPrice := Fin 40;
              taxPrice := Fin 0; discountAmount := Fin 0; coupon := None;
              totalPrice := decimal 40.13;
              payment := Some
                {| pay_method := Some "card"%string; pay_status := Pay_pending;
                   pay_transactionId := None; pay_intentId := None;
                   pay_amount := None; pay_currency := Some "usd"%string;
                   pay_receiptUrl := None; pay_failureReason := None |};
              shipping := Some
                {| ship_country := Some "US"%string; ship_method := "standard";
                   ship_estimatedDays := Some "14-21"%string; ship_courier := None;
                   ship_trackingNumber := None; ship_status := "pending" |};
              refund := None; isPaid := false; paidAt := None;
              isDelivered := false; deliveredAt := None |} in
  (Fin 0 <= itemsPrice o ∧ Fin 0 <= shippingPrice o ∧ Fin 0 <= taxPrice o
   ∧ Fin 0 <= discountAmount o ∧ Fin 0 <= totalPrice o)%js
  ∧ totalPrice o
    = toFixed2 (itemsPrice o + shippingPrice o + taxPrice o - discountAmount o)%js
  ∧ totalPrice o
    = toFixed2 (max (Fin 0)
        (itemsPrice o + shippingPrice o + taxPrice o - discountAmount o)%js).
Proof.
  intros o.
  apply (created_order_pricing (at100 false) (checkout [line pidA 1] "US" None None)
           (shop 0.125 10 5) (newOrderId (at100 false)) o
           {| products := {[ pidA := product "Kettle" 0.125 9;
                             pidB := product "Mug" 4 5 ]};
              coupons := {[ "SAVE10"%string := save10 ]};
              orders := {[ newOrderId (at100 false) := o ]} |}).
  vm_compute. reflexivity.
Defined.

(** C8 at a failing request: one Kettle with the coupon [save10] and the
    shipping method [overnight], which the order schema does not accept.
    The usage is recorded by [applyCouponToOrder] before [order.save()]
    rejects: the request fails with 500 and no order exists, the stock is
    back at 2, and the coupon counts one use by [u1] with no order, on
    either path. *)
Theorem coupon_redeemed_without_order tx :
  let db := shop 10 2 5 in
  let out := addOrderItems (at100 tx)
               (checkout [line pidA 1] "UG" (Some "overnight"%string)
                  (Some "save10"%string)) db in
  out.1 = Failed 500 "Order validation failed"
  ∧ orders out.2 = ∅
  ∧ products out.2 = products db
  ∧ (Coupons.usedCount <$> coupons db !! "SAVE10"%string) = Some 0
  ∧ (Coupons.usedCount <$> coupons out.2 !! "SAVE10"%string) = Some 1
  ∧ (Coupons.usedBy <$> coupons out.2 !! "SAVE10"%string)
    = Some [{| Coupons.use_user := "u1"; Coupons.use_order := None;
               Coupons.use_discountApplied := Fin 1 |}].
Proof. destruct tx; repeat split; vm_compute; reflexivity. Qed.

(** The same with a coupon worth more than the order: 200 percent off 100
    makes the total negative, and the schema rejects the order after the
    usage was recorded. *)
Example oversized_coupon_rejected_after_redemption :
  let big := {| Coupons.code := "BIG"; Coupons.discountType := Coupons.percentage;
                Coupons.discountValue := Fin 200; Coupons.minOrderAmount := Fin 0;
                Coupons.maxDiscountAmount := None; Coupons.usageLimit := None;
                Coupons.usageLimitPerUser := 1; Coupons.usedCount := 0;
                Coupons.validFrom := 0; Coupons.validUntil := 1000;
                Coupons.allowedUsers := []; Coupons.firstOrderOnly := false;
                Coupons.isActive := true; Coupons.usedBy := [] |} in
  let db := {| products := {[ pidA := product "Kettle" 100 2 ]};
               coupons := {[ "BIG"%string := big ]}; orders := ∅ |} in
  let out := addOrderItems (at100 false)
               (checkout [line pidA 1] "UG" None (Some "big"%string)) db in
  out.1 = Failed 500 "Order validation failed"
  ∧ orders out.2 = ∅
  ∧ products out.2 = products db
  ∧ (Coupons.usedCount <$> coupons out.2 !! "BIG"%string) = Some 1.
Proof. repeat split; vm_compute; reflexivity. Qed.

End PlacementInstances.

(** ** Concurrent checkouts never oversell *)

Section NoOversell.
Import Js Schema Orders Interleaving Samples.

Lemma Zsum_app l1 l2 : Zsum (l1 ++ l2) = Zsum l1 + Zsum l2.
Proof. unfold Zsum. induction l1 as [|x l1 IH]; simpl; [reflexivity | lia]. Qed.

Lemma qtyFor_app id l1 l2 : qtyFor id (l1 ++ l2) = qtyFor id l1 + qtyFor id l2.
Proof. unfold qtyFor. rewrite map_app. apply Zsum_app. Qed.

Lemma qtyFor_cons id it l :
  qtyFor id (it :: l)
  = (if decide (castId (productId it) = id) then qty it else 0) + qtyFor id l.
Proof. reflexivity. Qed.

Lemma qtyFor_single id it :
  qtyFor id [it] = (if decide (castId (productId it) = id) then qty it else 0).
Proof. unfold qtyFor, Zsum. simpl. lia. Qed.

Lemma qtyFor_nonneg id l : positiveQty l → 0 ≤ qtyFor id l.
Proof.
  induction 1 as [|it l Hit _ IH]; [reflexivity|].
  rewrite qtyFor_cons. case_decide; lia.
Qed.

Lemma normalizeOrderItems_positive raw :
  positiveQty (default [] (normalizeOrderItems raw)).
Proof.
  unfold normalizeOrderItems, positiveQty.
  destruct (mapM _ raw) as [objs|]; simpl; [|constructor].
  induction objs as [|r objs IH]; simpl; [constructor|].
  destruct (truthyOpt _ && (0 <? _)) eqn:E; [|exact IH].
  constructor; [|exact IH]. simpl.
  apply andb_prop in E. destruct E as [_ E]. apply Z.ltb_lt. exact E.
Qed.

Lemma Zsum_insert (f : Attempt → Z) (atts : list Attempt) i a a' :
  atts !! i = Some a →
  Zsum (map f (<[i := a']> atts)) = Zsum (map f atts) - f a + f a'.
Proof.
  revert i. induction atts as [|x atts IH]; intros i H; [discriminate|].
  destruct i as [|i]; simpl in *.
  - injection H as ->. lia.
  - rewrite (IH i H). lia.
Qed.

Lemma Zsum_le (f g : Attempt → Z) (atts : list Attempt) :
  Forall (λ a, f a ≤ g a) atts → Zsum (map f atts) ≤ Zsum (map g atts).
Proof. induction 1; simpl; lia. Qed.

(** The conditional decrement: the stock of the item's product drops by the
    quantity and stays non-negative; nothing else moves. *)
Lemma reserveOne_stock ps it ps' :
  reserveOne ps it = Some ps' →
  (∀ id, stockOf ps' id = stockOf ps id - qtyFor id [it])
  ∧ (∀ id, 0 ≤ stockOf ps id → 0 ≤ stockOf ps' id)
  ∧ (∀ k, is_Some (ps !! k) → is_Some (ps' !! k))
  ∧ is_Some (ps' !! castId (productId it)).
Proof.
  unfold reserveOne. intros H.
  destruct (ps !! castId (productId it)) as [p|] eqn:Hp; [|discriminate].
  destruct (enabled p && negb (isDeleted p) && (qty it <=? countInStock p)) eqn:G;
    [|discriminate].
  injection H as <-.
  apply andb_prop in G. destruct G as [_ G]. apply Z.leb_le in G.
  repeat split.
  - intros id. unfold stockOf. rewrite qtyFor_single.
    case_decide as E.
    + subst id. rewrite lookup_insert_eq, Hp. simpl. lia.
    + rewrite lookup_insert_ne by assumption. lia.
  - intros id. unfold stockOf.
    destruct (decide (castId (productId it) = id)) as [E|E].
    + subst id. rewrite lookup_insert_eq, Hp. simpl. lia.
    + rewrite lookup_insert_ne by assumption. auto.
  - intros k. destruct (decide (castId (productId it) = k)) as [E|E].
    + subst k. rewrite lookup_insert_eq. eauto.
    + rewrite lookup_insert_ne by assumption. auto.
  - rewrite lookup_insert_eq. eauto.
Qed.

(** The compensating increment on a product that exists. *)
Lemma restock_stock ps d :
  is_Some (ps !! castId (productId d)) →
  (∀ id, stockOf (restock ps d) id = stockOf ps id + qtyFor id [d])
  ∧ (∀ k, is_Some (ps !! k) → is_Some (restock ps d !! k)).
Proof.
  intros [p Hp]. unfold restock. rewrite Hp. split.
  - intros id. unfold stockOf. rewrite qtyFor_single.
    case_decide as E.
    + subst id. rewrite lookup_insert_eq, Hp. simpl. lia.
    + rewrite lookup_insert_ne by assumption. lia.
  - intros k. destruct (decide (castId (productId d) = k)) as [E|E].
    + subst k. rewrite lookup_insert_eq. eauto.
    + rewrite lookup_insert_ne by assumption. auto.
Qed.

(** A committed transaction: all its decrements at once. *)
Lemma reserveAll_stock items : ∀ ps ps',
  reserveAll items ps = Some ps' →
  (∀ id, stockOf ps' id = stockOf ps id - qtyFor id items)
  ∧ (∀ id, 0 ≤ stockOf ps id → 0 ≤ stockOf ps' id)
  ∧ (∀ k, is_Some (ps !! k) → is_Some (ps' !! k))
  ∧ Forall (λ d, is_Some (ps' !! castId (productId d))) items.
Proof.
  induction items as [|it items IH]; intros ps ps' H; simpl in H.
  - injection H as <-. repeat split; auto.
    intros id. unfold qtyFor, Zsum. simpl. lia.
  - destruct (reserveOne ps it) as [ps1|] eqn:Hr; [|discriminate].
    destruct (reserveOne_stock _ _ _ Hr) as (S1 & N1 & D1 & E1).
    destruct (IH _ _ H) as (S2 & N2 & D2 & E2).
    repeat split.
    + intros id. rewrite S2, S1, (qtyFor_cons id it items), qtyFor_single. lia.
    + auto.
    + auto.
    + constructor; [apply D2; exact E1 | exact E2].
Qed.

Lemma wellFormed_mono ps ps' a :
  (∀ k, is_Some (ps !! k) → is_Some (ps' !! k)) →
  wellFormed ps a → wellFormed ps' a.
Proof.
  intros Hd (H1 & H2 & H3 & H4). repeat split; try assumption.
  eapply Forall_impl; [exact H3|]. intros d. apply Hd.
Qed.

(** One atomic action moves as much out of (or into) the stock as it moves
    into (or out of) what the request holds. *)
Lemma astep_balance ps a ps' a' :
  astep ps a ps' a' → wellFormed ps a →
  (∀ id, stockOf ps' id + qtyFor id (held a') = stockOf ps id + qtyFor id (held a))
  ∧ (∀ id, 0 ≤ stockOf ps id → 0 ≤ stockOf ps' id)
  ∧ (∀ k, is_Some (ps !! k) → is_Some (ps' !! k))
  ∧ wellFormed ps' a'.
Proof.
  intros Hstep (Hpos & Hheld & Hex & Hph).
  destruct Hstep as
    [ps ps' a it todo dec Htx Hphase Hr
    |ps a it todo dec Htx Hphase Hr
    |ps a dec Htx Hphase
    |ps a dec t Htx Hphase
    |ps a l1 d l2 t Hphase
    |ps a t Hphase
    |ps ps' a todo Htx Hphase Hall
    |ps a todo t Htx Hphase];
    unfold wellFormed, held in *; rewrite Hphase in *; simpl in *;
    try rewrite Htx in *.
  - destruct (reserveOne_stock _ _ _ Hr) as (S1 & N1 & D1 & E1).
    assert (Hit : 0 < qty it).
    { rewrite <- Hph in Hpos. apply Forall_app in Hpos. destruct Hpos as [_ Hp].
      inversion Hp; assumption. }
    repeat split; auto.
    + intros id. rewrite S1, qtyFor_app. lia.
    + apply Forall_app. split; [assumption | constructor; [exact Hit | constructor]].
    + apply Forall_app. split.
      * eapply Forall_impl; [exact Hex|]. intros d. apply D1.
      * constructor; [exact E1 | constructor].
    + rewrite <- Hph, <- app_assoc. reflexivity.
  - repeat split; auto.
  - rewrite app_nil_r in Hph. subst dec. repeat split; auto.
  - repeat split; auto.
  - assert (Hd : is_Some (ps !! castId (productId d))).
    { apply Forall_app in Hex. destruct Hex as [_ Hex]. inversion Hex; assumption. }
    assert (Hq : 0 < qty d).
    { apply Forall_app in Hheld. destruct Hheld as [_ Hh]. inversion Hh; assumption. }
    destruct (restock_stock ps d Hd) as (S1 & D1).
    repeat split; auto.
    + intros id. rewrite S1, !qtyFor_app, (qtyFor_cons id d l2), qtyFor_single.
      lia.
    + intros id Hn. rewrite S1. pose proof (qtyFor_nonneg id [d]) as Hnn.
      assert (positiveQty [d]) by (constructor; [exact Hq | constructor]).
      specialize (Hnn H). lia.
    + apply Forall_app in Hheld. destruct Hheld as [Ha Hb].
      apply Forall_app. split; [exact Ha | inversion Hb; assumption].
    + apply Forall_app in Hex. destruct Hex as [Ha Hb].
      apply Forall_app. split.
      * eapply Forall_impl; [exact Ha|]. intros x. apply D1.
      * inversion Hb; subst. eapply Forall_impl; [eassumption|]. intros x. apply D1.
  - repeat split; auto.
  - destruct (reserveAll_stock _ _ _ Hall) as (S1 & N1 & D1 & E1).
    repeat split; auto.
    intros id. rewrite S1. change (qtyFor id []) with 0. lia.
  - repeat split; auto.
Qed.

Lemma sstep_balanced ps0 s s' : sstep s s' → balanced ps0 s → balanced ps0 s'.
Proof.
  intros Hstep (Hsum & Hnn & Hwf).
  destruct Hstep as [ps ps' atts i a a' Hi Ha]. simpl in *.
  assert (Hwa : wellFormed ps a).
  { rewrite Forall_lookup in Hwf. exact (Hwf i a Hi). }
  destruct (astep_balance _ _ _ _ Ha Hwa) as (Hb & Hn & Hd & Hw').
  split; [|split]; simpl.
  - intros id. unfold totalHeld.
    rewrite (Zsum_insert (λ a, qtyFor id (held a)) atts i a a' Hi).
    specialize (Hb id). specialize (Hsum id). unfold totalHeld in Hsum. lia.
  - intros id. apply Hn, Hnn.
  - apply Forall_insert; [|exact Hw'].
    eapply Forall_impl; [exact Hwf|]. intros x. apply wellFormed_mono. exact Hd.
Qed.

Lemma start_balanced ps0 reqs :
  map_Forall (λ _ p, 0 ≤ countInStock p) ps0 →
  balanced ps0 (ps0, map start reqs).
Proof.
  intros Hnn. split; [|split]; simpl.
  - intros id.
    assert (totalHeld id (map start reqs) = 0) as ->; [|lia].
    unfold totalHeld. induction reqs as [|r reqs IH]; [reflexivity|].
    simpl. rewrite IH. reflexivity.
  - intros id. unfold stockOf. destruct (ps0 !! id) as [p|] eqn:Hp; [|lia].
    exact (Hnn id p Hp).
  - apply Forall_map. apply Forall_forall. intros [raw tx] _.
    unfold wellFormed, start, held. simpl.
    repeat split; try constructor.
    + apply normalizeOrderItems_positive.
    + destruct tx; reflexivity.
Qed.

Lemma sold_le_held id ps atts :
  Forall (wellFormed ps) atts → sold id atts ≤ totalHeld id atts.
Proof.
  intros Hwf. unfold sold, totalHeld. apply Zsum_le.
  eapply Forall_impl; [exact Hwf|]. intros a (Hpos & Hheld & _ & _).
  unfold held in *. destruct (phase a); try (apply qtyFor_nonneg; assumption).
  lia.
Qed.

Lemma rtc_balanced ps0 s s' : rtc sstep s s' → balanced ps0 s → balanced ps0 s'.
Proof.
  induction 1 as [s|s1 s2 s3 Hs _ IH]; intros Hb; [exact Hb|].
  apply IH. eapply sstep_balanced; eassumption.
Qed.

(** C4.  Any number of checkout requests, each on either path, run
    concurrently in any interleaving of their atomic store actions against
    products whose stock starts non-negative.  At every moment no stock is
    negative, and for each product the quantities in the orders placed so
    far add up to at most the stock [N] it started with; stock plus what
    the requests hold is always [N]. *)
Theorem concurrent_checkouts_never_oversell ps0 reqs ps atts :
  map_Forall (λ _ p, 0 ≤ countInStock p) ps0 →
  rtc sstep (ps0, map start reqs) (ps, atts) →
  ∀ id, 0 ≤ stockOf ps id
        ∧ sold id atts ≤ stockOf ps0 id
        ∧ stockOf ps id + totalHeld id atts = stockOf ps0 id.
Proof.
  intros Hnn Hrun.
  destruct (rtc_balanced ps0 _ _ Hrun (start_balanced ps0 reqs Hnn))
    as (Hsum & Hpos & Hwf).
  simpl in *. intros id. repeat split.
  - apply Hpos.
  - pose proof (sold_le_held id ps atts Hwf) as Hle.
    specialize (Hsum id). specialize (Hpos id). lia.
  - apply Hsum.
Qed.

(** Two buyers and one Kettle.  The first request, on the fallback path,
    takes the Kettle; the second, transactional, cannot commit and aborts;
    the first then saves its order. *)
Lemma concurrent_checkouts_never_oversell_witness :
  let ps0 := products (shop 10 1 5) in
  let ps := products (shop 10 0 5) in
  let atts := [moveTo (start (kettleBuyer false)) Succeeded;
               moveTo (start (kettleBuyer true)) (Rejected InsufficientStock)] in
  reserveAll (items (start (kettleBuyer true))) ps = None
  ∧ 0 ≤ stockOf ps pidA
  ∧ sold pidA atts ≤ stockOf ps0 pidA
  ∧ stockOf ps pidA + totalHeld pidA atts = stockOf ps0 pidA.
Proof.
  intros ps0 ps atts. split; [vm_compute; reflexivity|].
  apply (concurrent_checkouts_never_oversell ps0
           [kettleBuyer false; kettleBuyer true] ps atts).
  - unfold ps0, shop. simpl.
    apply map_Forall_insert_2; [simpl; lia|].
    apply map_Forall_insert_2; [simpl; lia|].
    apply map_Forall_empty.
  - set (it := {| productId := pidA; qty := 1 |}).
    set (a0 := start (kettleBuyer false)).
    set (a1 := start (kettleBuyer true)).
    set (b0 := moveTo a0 (Reserving [] ([] ++ [it]))).
    apply (rtc_l _ _ (ps, <[0%nat := b0]> [a0; a1])).
    { apply (sstep_at ps0 ps [a0; a1] 0 a0 b0); [reflexivity|].
      apply (step_reserve ps0 ps a0 it [] []);
        [reflexivity | reflexivity | vm_compute; reflexivity]. }
    apply (rtc_l _ _ (ps, <[1%nat := moveTo a1 (Rejected InsufficientStock)]> [b0; a1])).
    { apply (sstep_at ps ps [b0; a1] 1 a1); [reflexivity|].
      apply (step_abort ps a1 (items a1) InsufficientStock); reflexivity. }
    apply (rtc_l _ _ (ps, atts)).
    { apply (sstep_at ps ps [b0; moveTo a1 (Rejected InsufficientStock)] 0 b0
               (moveTo b0 Succeeded)); [reflexivity|].
      apply (step_saved ps b0 ([] ++ [it])); reflexivity. }
    apply rtc_refl.
Defined.

End NoOversell.

(** ** Further properties of the webhook handlers *)

Section HandlerProperties.
Import Js Schema Webhook Samples.

Lemma failPayment_again reason o :
  failPayment reason (failPayment reason o) = failPayment reason o.
Proof. reflexivity. Qed.

Lemma verdict_stable now1 now2 pi o :
  isPaid o = false →
  isPaid (verdict now1 pi o) = false →
  verdict now2 pi (verdict now1 pi o) = verdict now1 pi o.
Proof.
  intros Hp. unfold verdict.
  destruct (amountComparable _ _ && amountMismatch _ _) eqn:Ea.
  - intros _. simpl.
    change (payment (failPayment "Payment amount mismatch" o) ≫= pay_amount)
      with (pay_amount (paymentOf o)).
    assert (Hsame : pay_amount (paymentOf o) = payment o ≫= pay_amount).
    { unfold paymentOf. destruct (payment o); reflexivity. }
    rewrite Hsame, Ea. reflexivity.
  - destruct (currencyComparable _ _ && currencyMismatch _ _) eqn:Ec.
    + intros _.
      change (payment (failPayment "Payment currency mismatch" o) ≫= pay_amount)
        with (pay_amount (paymentOf o)).
      change (payment (failPayment "Payment currency mismatch" o) ≫= pay_currency)
        with (pay_currency (paymentOf o)).
      assert (Ha : pay_amount (paymentOf o) = payment o ≫= pay_amount).
      { unfold paymentOf. destruct (payment o); reflexivity. }
      assert (Hc : pay_currency (paymentOf o) = payment o ≫= pay_currency).
      { unfold paymentOf. destruct (payment o); reflexivity. }
      rewrite Ha, Hc, Ea, Ec. reflexivity.
    + intros H. destruct (settle_fields now1 pi o) as (H1 & _). congruence.
Qed.

(** X1.  [markOrderPaid] is idempotent: run again on the collection it
    produced, for the same payment intent and at any later time, it changes
    nothing. *)
Theorem markOrderPaid_idempotent now1 now2 db pi (orders os1 : gmap string Order) :
  orderFind db = None → orderSave db = None →
  markOrderPaid now1 db pi orders = Done os1 →
  markOrderPaid now2 db pi os1 = Done os1.
Proof.
  intros Hf Hs H0. pose proof H0 as H.
  unfold markOrderPaid in H |- *. rewrite Hf in *.
  destruct (so_metadata_orderId pi) as [id|] eqn:Hid; [|injection H as <-; reflexivity].
  destruct (truthy id) eqn:Ht; simpl in *; [|injection H as <-; reflexivity].
  destruct (orders !! id) as [o|] eqn:Ho;
    [|injection H as <-; rewrite Ho; reflexivity].
  destruct (bool_decide (status o = St_cancelled) || bool_decide (status o = St_refunded))
    eqn:Est; [injection H as <-; rewrite Ho, Est; reflexivity|].
  destruct (isPaid o || paymentStatusIs Pay_paid o) eqn:Epaid;
    [injection H as <-; rewrite Ho, Est, Epaid; reflexivity|].
  clear H.
  apply orb_false_elim in Epaid. destruct Epaid as [Hp Hps].
  pose proof Est as Est0.
  apply orb_false_elim in Est0. destruct Est0 as [E1 E2].
  apply bool_decide_eq_false in E1. apply bool_decide_eq_false in E2.
  assert (Hopen : openFor pi orders id o) by (repeat split; assumption).
  rewrite (markOrderPaid_open _ _ _ _ _ _ Hopen Hf) in H0.
  unfold save in H0. rewrite Hs in H0. injection H0 as <-.
  rewrite lookup_insert_eq.
  destruct (isPaid (verdict now1 pi o)) eqn:Hv.
  - assert (Hst : status (verdict now1 pi o)
                  = if decide (status o = St_pending) then St_confirmed else status o).
    { unfold verdict in *.
      destruct (amountComparable _ _ && amountMismatch _ _);
        [simpl in Hv; congruence|].
      destruct (currencyComparable _ _ && currencyMismatch _ _);
        [simpl in Hv; congruence|].
      apply (settle_fields now1 pi o). }
    assert (Est' : bool_decide (status (verdict now1 pi o) = St_cancelled)
                   || bool_decide (status (verdict now1 pi o) = St_refunded) = false).
    { rewrite Hst.
      case_decide; apply orb_false_intro; apply bool_decide_eq_false; congruence. }
    rewrite Est'. reflexivity.
  - assert (Hsame : status (verdict now1 pi o) = status o
                    ∧ paymentStatusIs Pay_paid (verdict now1 pi o) = false).
    { unfold verdict in *.
      destruct (amountComparable _ _ && amountMismatch _ _);
        [split; reflexivity|].
      destruct (currencyComparable _ _ && currencyMismatch _ _);
        [split; reflexivity|].
      destruct (settle_fields now1 pi o) as (H1 & _). congruence. }
    destruct Hsame as [Hsame1 Hsame2]. rewrite Hsame1, Hsame2, Est. simpl.
    assert (Hopen' : openFor pi (<[id := verdict now1 pi o]> orders) id (verdict now1 pi o)).
    { repeat split; try assumption; try congruence. apply lookup_insert_eq. }
    pose proof (markOrderPaid_open now2 db pi _ _ _ Hopen' Hf) as Hagain.
    unfold markOrderPaid in Hagain.
    rewrite Hid, Ht, Hf, lookup_insert_eq in Hagain. simpl in Hagain.
    rewrite Hsame1, Hsame2, Est, Hv in Hagain. simpl in Hagain.
    rewrite Hagain. rewrite (verdict_stable now1 now2 pi o Hp Hv).
    unfold save. rewrite Hs, insert_insert_eq. reflexivity.
Qed.

Lemma markOrderPaid_idempotent_witness :
  markOrderPaid 9 noFaults (intent (Some 1000) (Some "usd"%string))
    {[ oid := failPayment "Payment amount mismatch"
                (orderWith St_pending (boundPayment (Some 2457) (Some "usd"%string))) ]}
  = Done {[ oid := failPayment "Payment amount mismatch"
                     (orderWith St_pending (boundPayment (Some 2457) (Some "usd"%string))) ]}.
Proof.
  apply (markOrderPaid_idempotent 7 9 noFaults (intent (Some 1000) (Some "usd"%string))
           {[ oid := orderWith St_pending (boundPayment (Some 2457) (Some "usd"%string)) ]}).
  - reflexivity.
  - reflexivity.
  - vm_compute. reflexivity.
Defined.

(** X2.  Once a succeeded event has settled an order, a payment-failed event
    for the same order, whatever it carries and whenever it arrives, leaves
    every order as it is: the order stays paid. *)
Theorem failure_after_settlement_ignored now db db' pi pi' (orders : gmap string Order) id o :
  openFor pi orders id o →
  orderFind db = None → orderSave db = None →
  verdict now pi o = settle now pi o →
  so_metadata_orderId pi' = Some id → orderFind db' = None →
  ∃ os1, markOrderPaid now db pi orders = Done os1
         ∧ isPaid <$> os1 !! id = Some true
         ∧ markOrderFailed db' pi' os1 = Done os1.
Proof.
  intros Hopen Hf Hs Hv Hid' Hf'.
  rewrite (markOrderPaid_open _ _ _ _ _ _ Hopen Hf), Hv.
  unfold save. rewrite Hs. eexists. split; [reflexivity|].
  destruct Hopen as (_ & Ht & _).
  destruct (settle_fields now pi o) as (Hpaid & _).
  rewrite lookup_insert_eq. simpl. rewrite Hpaid. split; [reflexivity|].
  unfold markOrderFailed. rewrite Hid', Ht, Hf'. simpl.
  rewrite lookup_insert_eq, Hpaid. reflexivity.
Qed.

Lemma failure_after_settlement_ignored_witness :
  let o := orderWith St_pending (boundPayment (Some 2457) (Some "usd"%string)) in
  let pi := intent (Some 2457) (Some "USD"%string) in
  ∃ os1, markOrderPaid 7 noFaults pi {[ oid := o ]} = Done os1
         ∧ isPaid <$> os1 !! oid = Some true
         ∧ markOrderFailed noFaults (intent None None) os1 = Done os1.
Proof.
  intros o pi.
  apply (failure_after_settlement_ignored 7 noFaults noFaults pi (intent None None)
           {[ oid := o ]} oid o).
  - repeat split; try reflexivity; discriminate.
  - reflexivity.
  - reflexivity.
  - reflexivity.
  - reflexivity.
  - reflexivity.
Defined.

End HandlerProperties.

(** ** Refunds, rejected requests and redelivery *)

Section LedgerProperties.
Import Js Schema Webhook Samples.

Lemma findByIntent_Some intentId (orders : gmap string Order) id o :
  findByIntent intentId orders = Some (id, o) →
  orders !! id = Some o ∧ (payment o ≫= pay_intentId) = Some intentId.
Proof.
  unfold findByIntent.
  destruct (list_find _ (map_to_list orders)) as [[i [k v]]|] eqn:E; [|discriminate].
  simpl. intros H. injection H as -> ->.
  apply list_find_Some in E. destruct E as (Hl & HP & _).
  split; [|exact HP].
  apply elem_of_map_to_list. eapply list_elem_of_lookup_2. exact Hl.
Qed.

(** X3.  When [markOrderRefunded] changes anything, it changes exactly one
    order, one whose [payment.intentId] is the charge's [payment_intent]:
    that order becomes [refunded], unpaid, with the refunded amount
    recorded.  From then on neither a succeeded nor a failed payment event
    for that order changes it again. *)
Theorem refund_is_final now db ch (orders os1 : gmap string Order) :
  markOrderRefunded now db ch orders = Done os1 →
  os1 = orders
  ∨ ∃ id o o',
      orders !! id = Some o
      ∧ (payment o ≫= pay_intentId) = so_payment_intent ch
      ∧ os1 = <[id := o']> orders
      ∧ status o' = St_refunded ∧ isPaid o' = false
      ∧ paymentStatusIs Pay_refunded o' = true
      ∧ (refund o' ≫= refund_amount) = so_amount_refunded ch
      ∧ ∀ now2 db2 pi,
          orderFind db2 = None → so_metadata_orderId pi = Some id →
          markOrderPaid now2 db2 pi os1 = Done os1
          ∧ markOrderFailed db2 pi os1 = Done os1.
Proof.
  unfold markOrderRefunded. intros H.
  destruct (so_payment_intent ch) as [intentId|] eqn:Hi; [|left; congruence].
  destruct (truthy intentId); simpl in H; [|left; congruence].
  destruct (orderFind db); [discriminate|].
  destruct (findByIntent intentId orders) as [[id o]|] eqn:Hfind; [|left; congruence].
  destruct (paymentStatusIs Pay_refunded o || bool_decide (status o = St_refunded));
    [left; congruence|].
  unfold save in H. destruct (orderSave db); [discriminate|].
  injection H as <-.
  destruct (findByIntent_Some _ _ _ _ Hfind) as [Ho Hint].
  right. eexists id, o, _. split; [exact Ho|]. split; [exact Hint|].
  split; [reflexivity|]. split; [reflexivity|]. split; [reflexivity|].
  split; [reflexivity|]. split; [reflexivity|].
  intros now2 db2 pi Hf2 Hid2. split.
  - unfold markOrderPaid. rewrite Hid2, Hf2. destruct (truthy id); [|reflexivity].
    simpl. rewrite lookup_insert_eq. reflexivity.
  - unfold markOrderFailed. rewrite Hid2, Hf2. destruct (truthy id); [|reflexivity].
    simpl. rewrite lookup_insert_eq. reflexivity.
Qed.

Lemma refund_is_final_witness :
  let o := settle 7 (intent (Some 2457) (Some "usd"%string))
             (orderWith St_pending (boundPayment (Some 2457) (Some "usd"%string))) in
  ∃ os1, markOrderRefunded 30 noFaults (refundOf 2457) {[ oid := o ]} = Done os1
         ∧ (status <$> os1 !! oid) = Some St_refunded
         ∧ (isPaid <$> os1 !! oid) = Some false
         ∧ markOrderPaid 31 noFaults (intent (Some 2457) (Some "usd"%string)) os1
           = Done os1.
Proof.
  intros o.
  destruct (markOrderRefunded 30 noFaults (refundOf 2457) {[ oid := o ]})
    as [os1|e] eqn:E; [|vm_compute in E; discriminate].
  exists os1. split; [reflexivity|].
  destruct (refund_is_final 30 noFaults (refundOf 2457) {[ oid := o ]} os1 E)
    as [Hsame | (id & o0 & o' & Ho & _ & Hos & Hst & Hp & _ & _ & Hlater)].
  - exfalso. rewrite Hsame in E. vm_compute in E. discriminate.
  - assert (id = oid) as ->.
    { destruct (decide (id = oid)) as [|N]; [assumption|].
      rewrite lookup_singleton_ne in Ho by congruence. discriminate. }
    subst os1. rewrite lookup_insert_eq. simpl. rewrite Hst, Hp.
    repeat split. apply (Hlater 31 noFaults (intent (Some 2457) (Some "usd"%string)));
      reflexivity.
Defined.

(** X4.  A request that is not a verified delivery of an event with an id
    (processor not configured, header missing, signature rejected, event
    without id) is answered 400 or 503 and leaves ledger and orders exactly
    as they were: no ledger entry is created for it. *)
Theorem unverified_request_changes_nothing now db req st :
  (∀ eid e, ¬ delivers eid e req) →
  (handleStripeWebhook now db req st).2 = st
  ∧ (statusCode (handleStripeWebhook now db req st).1 = 400
     ∨ statusCode (handleStripeWebhook now db req st).1 = 503).
Proof.
  intros Hno. unfold handleStripeWebhook.
  destruct (stripeConfigured req) eqn:Hc; simpl; [|auto].
  destruct (truthyOpt (signature req)) eqn:Hsig; simpl; [|auto].
  destruct (constructEvent req) as [e|msg] eqn:He; [|auto].
  destruct (truthy (eventIdOf e)) eqn:Hid; simpl; [|auto].
  exfalso. unfold eventIdOf in Hid.
  destruct (ev_id e) as [s|] eqn:Hs; simpl in Hid; [|discriminate].
  destruct (truthy s) eqn:Hts; [|discriminate].
  apply (Hno s e). repeat split; assumption.
Qed.

Lemma unverified_request_changes_nothing_witness :
  let req := {| stripeConfigured := true; signature := Some "forged"%string;
                constructEvent := SignatureError "No signatures found" |} in
  let st := storeWith (orderWith St_pending (boundPayment (Some 2457) (Some "usd"%string))) in
  (handleStripeWebhook 5 noFaults req st).2 = st
  ∧ (statusCode (handleStripeWebhook 5 noFaults req st).1 = 400
     ∨ statusCode (handleStripeWebhook 5 noFaults req st).1 = 503).
Proof.
  intros req st. apply (unverified_request_changes_nothing 5 noFaults req st).
  intros eid e (_ & _ & H & _). discriminate H.
Defined.

(** One delivery counts one attempt, whatever becomes of it. *)
Lemma delivery_counts_attempt now db req st eid e :
  delivers eid e req → upsertThrows db = false →
  attemptsOf eid (events (handleStripeWebhook now db req st).2)
  = attemptsOf eid (events st) + 1.
Proof.
  intros Hd Hup. unfold attemptsOf.
  destruct (processedAtOf eid (events st)) as [t|] eqn:Hp.
  - unfold processedAtOf in Hp.
    destruct (events st !! (provider, eid)) as [r|] eqn:Hr; [|discriminate].
    simpl in Hp.
    rewrite (handle_processed now db req st eid e r Hd Hup Hr) by (rewrite Hp; eauto).
    simpl. rewrite lookup_insert_eq. reflexivity.
  - destruct (handle_unprocessed now db req st eid e Hd Hup Hp) as [_ ->].
    assert (Hrec : we_attempts
                     (upsertEvent now eid (eventTypeOf e) (eventOrderIdOf e)
                        (events st !! (provider, eid)))
                   = default 0 (we_attempts <$> events st !! (provider, eid)) + 1).
    { destruct (events st !! (provider, eid)); reflexivity. }
    destruct (dispatch now db e (orders st)); simpl.
    + destruct (processedWriteThrows db); simpl; rewrite lookup_insert_eq; simpl;
        exact Hrec.
    + destruct (lastErrorWriteThrows db); rewrite lookup_insert_eq; simpl; exact Hrec.
Qed.

(** X5.  [attempts] counts deliveries: after any sequence of verified
    deliveries of one event id, successful, failed or duplicate, the ledger
    record's [attempts] has grown by the number of deliveries. *)
Theorem attempts_count_deliveries eid (ds : list (Z * Faults * Request)) :
  Forall (λ d, upsertThrows d.1.2 = false ∧ ∃ e, delivers eid e d.2) ds →
  ∀ st, attemptsOf eid (events (deliverAll ds st).2)
        = attemptsOf eid (events st) + Z.of_nat (length ds).
Proof.
  induction 1 as [|[[now db] req] ds [Hup [e Hd]] _ IH]; intros st.
  - simpl. lia.
  - simpl in Hup, Hd. cbn [deliverAll].
    destruct (handleStripeWebhook now db req st) as [r st1] eqn:E1.
    destruct (deliverAll ds st1) as [rs st2] eqn:E2. simpl.
    pose proof (IH st1) as H2. rewrite E2 in H2. simpl in H2.
    pose proof (delivery_counts_attempt now db req st eid e Hd Hup) as H1.
    rewrite E1 in H1. simpl in H1. rewrite H2, H1. simpl length. lia.
Qed.

Lemma attempts_count_deliveries_witness :
  let o := orderWith St_pending (boundPayment (Some 2457) (Some "usd"%string)) in
  let req := signed (succeeded (intent (Some 2457) (Some "usd"%string))) in
  let ds := [(10, saveRejects, req); (11, noFaults, req); (12, noFaults, req)] in
  attemptsOf "evt_1" (events (deliverAll ds (storeWith o)).2)
  = attemptsOf "evt_1" (events (storeWith o)) + Z.of_nat (length ds).
Proof.
  intros o req ds.
  apply (attempts_count_deliveries "evt_1" ds).
  repeat constructor; eexists; repeat split.
Defined.

(** X6.  A delivery that failed is retried: when the handler threw on the
    first delivery and completes on the redelivery, the redelivery is
    answered as received (not as a duplicate), the orders are what the
    handler made of them, and the record is stamped with its [attempts] at
    2.  The stamp does not clear [lastError]: the record keeps the text of
    the first failure, if the write of that text went through. *)
Theorem failed_delivery_is_retried now1 now2 db1 db2 req1 req2 st eid e err os2 :
  delivers eid e req1 → delivers eid e req2 →
  upsertThrows db1 = false → upsertThrows db2 = false →
  events st !! (provider, eid) = None →
  dispatch now1 db1 e (orders st) = Thrown err →
  dispatch now2 db2 e (orders st) = Done os2 →
  processedWriteThrows db2 = None →
  ∃ evs r,
    deliverAll [(now1, db1, req1); (now2, db2, req2)] st
    = ([transient; received], {| events := evs; orders := os2 |})
    ∧ evs !! (provider, eid) = Some r
    ∧ we_attempts r = 2
    ∧ we_processedAt r = Some now2
    ∧ we_lastError r
      = (if lastErrorWriteThrows db1 then None else Some (lastErrorText err)).
Proof.
  intros Hd1 Hd2 Hu1 Hu2 Hnone Hthrow Hok Hpw.
  assert (Hp : processedAtOf eid (events st) = None).
  { unfold processedAtOf. rewrite Hnone. reflexivity. }
  destruct (handle_unprocessed now1 db1 req1 st eid e Hd1 Hu1 Hp) as [_ H1].
  rewrite Hthrow, Hnone in H1. cbn [deliverAll]. rewrite H1.
  match goal with |- context [ handleStripeWebhook now2 db2 req2 ?S ] =>
    set (st1 := S) end.
  assert (Hp1 : processedAtOf eid (events st1) = None).
  { unfold processedAtOf, st1. simpl.
    destruct (lastErrorWriteThrows db1); rewrite lookup_insert_eq; reflexivity. }
  destruct (handle_unprocessed now2 db2 req2 st1 eid e Hd2 Hu2 Hp1) as [_ H2].
  change (orders st1) with (orders st) in H2. rewrite Hok, Hpw in H2.
  rewrite H2. eexists _, _. split; [reflexivity|].
  split; [apply lookup_insert_eq|].
  unfold st1. simpl.
  destruct (lastErrorWriteThrows db1); rewrite lookup_insert_eq; repeat split.
Qed.

Lemma failed_delivery_is_retried_witness :
  let o := orderWith St_pending (boundPayment (Some 2457) (Some "usd"%string)) in
  let pi := intent (Some 2457) (Some "usd"%string) in
  let req := signed (succeeded pi) in
  ∃ evs r,
    deliverAll [(10, saveRejects, req); (11, noFaults, req)] (storeWith o)
    = ([transient; received],
       {| events := evs; orders := {[ oid := settle 11 pi o ]} |})
    ∧ evs !! (provider, "evt_1"%string) = Some r
    ∧ we_attempts r = 2
    ∧ we_processedAt r = Some 11
    ∧ we_lastError r
      = (if lastErrorWriteThrows saveRejects then None
         else Some (lastErrorText (mkError "connection lost"))).
Proof.
  intros o pi req.
  apply (failed_delivery_is_retried 10 11 saveRejects noFaults req req (storeWith o)
           "evt_1" (succeeded pi) (mkError "connection lost")).
  - repeat split.
  - repeat split.
  - reflexivity.
  - reflexivity.
  - reflexivity.
  - reflexivity.
  - vm_compute. reflexivity.
  - reflexivity.
Defined.

(** X7.  An event of a type without a handler is acknowledged and ignored:
    the delivery is answered as received, no order changes, and the record is
    stamped so that redeliveries are duplicates. *)
Theorem unknown_event_acknowledged now db req st eid e :
  delivers eid e req → upsertThrows db = false →
  processedAtOf eid (events st) = None →
  processedWriteThrows db = None →
  (∀ t, ev_type e = Some t → t ∉ handledTypes) →
  (handleStripeWebhook now db req st).1 = received
  ∧ orders (handleStripeWebhook now db req st).2 = orders st
  ∧ processedAtOf eid (events (handleStripeWebhook now db req st).2) = Some now.
Proof.
  intros Hd Hup Hp Hpw Hty.
  destruct (handle_unprocessed now db req st eid e Hd Hup Hp) as [_ ->].
  assert (Hdisp : dispatch now db e (orders st) = Done (orders st)).
  { unfold dispatch. destruct (ev_type e) as [t|] eqn:Et; [|reflexivity].
    specialize (Hty t eq_refl). unfold handledTypes in Hty.
    destruct (String.eqb_spec t "payment_intent.succeeded");
      [subst; exfalso; apply Hty; set_solver|].
    destruct (String.eqb_spec t "payment_intent.payment_failed");
      [subst; exfalso; apply Hty; set_solver|].
    destruct (String.eqb_spec t "charge.refunded");
      [subst; exfalso; apply Hty; set_solver|].
    reflexivity. }
  rewrite Hdisp, Hpw. simpl. repeat split.
  unfold processedAtOf. rewrite lookup_insert_eq. reflexivity.
Qed.

Lemma unknown_event_acknowledged_witness :
  let st := storeWith (orderWith St_pending (boundPayment (Some 2457) (Some "usd"%string))) in
  let req := signed (disputed (intent (Some 2457) (Some "usd"%string))) in
  (handleStripeWebhook 10 noFaults req st).1 = received
  ∧ orders (handleStripeWebhook 10 noFaults req st).2 = orders st
  ∧ processedAtOf "evt_9" (events (handleStripeWebhook 10 noFaults req st).2) = Some 10.
Proof.
  intros st req.
  apply (unknown_event_acknowledged 10 noFaults req st "evt_9"
           (disputed (intent (Some 2457) (Some "usd"%string)))).
  - repeat split.
  - reflexivity.
  - reflexivity.
  - reflexivity.
  - intros t Ht. injection Ht as <-. unfold handledTypes.
    intros Hin. repeat (apply elem_of_cons in Hin; destruct Hin as [Hin|Hin];
      [discriminate Hin|]). inversion Hin.
Defined.

End LedgerProperties.

(** ** Payment intents ([createPaymentIntent]) *)

Section PaymentIntents.
Import Js Schema Webhook Payments Samples.

Lemma truthy_toLowerCase s : truthy (toLowerCase s) = truthy s.
Proof. destruct s; reflexivity. Qed.

Lemma normalizedCurrency_truthy c : truthy (normalizedCurrency c) = true.
Proof.
  unfold normalizedCurrency. rewrite truthy_toLowerCase.
  unfold or_else. destruct (truthyOpt c) eqn:E; [|reflexivity].
  destruct c as [s|]; [exact E | discriminate].
Qed.

(** X8.  [createPaymentIntent] binds an intent only for the verified owner
    of an unpaid order whose total in cents is finite and positive: the
    order then records the intent id, the total in cents, the lower-cased
    currency and a pending payment, and no other order changes.  Every
    refusal leaves the order collection as it was. *)
Theorem intent_only_for_owner_of_unpaid_order req (orders orders' : gmap string Order) resp :
  createPaymentIntent req orders = (resp, orders') →
  match resp with
  | Refused _ _ => orders' = orders
  | ClientSecret _ pid =>
    ∃ o cents,
      orders !! body_orderId req = Some o
      ∧ requesterVerified req = true
      ∧ user o = requester req
      ∧ isPaid o = false
      ∧ amountCents o = Some cents ∧ 0 < cents
      ∧ orders'
        = <[body_orderId req :=
              bindIntent pid (normalizedCurrency (body_currency req)) cents o]> orders
  end.
Proof.
  unfold createPaymentIntent. intros H.
  destruct (stripeKeySet req); simpl in H; [|injection H as <- <-; reflexivity].
  destruct (requesterVerified req) eqn:Hv; simpl in H;
    [|injection H as <- <-; reflexivity].
  destruct (orders !! body_orderId req) as [o|] eqn:Ho;
    [|injection H as <- <-; reflexivity].
  destruct (String.eqb_spec (user o) (requester req)) as [Hu|Hu]; simpl in H;
    [|injection H as <- <-; reflexivity].
  destruct (isPaid o) eqn:Hp; [injection H as <- <-; reflexivity|].
  destruct (amountCents o) as [cents|] eqn:Ha; [|injection H as <- <-; reflexivity].
  destruct (cents <=? 0) eqn:Hc; [injection H as <- <-; reflexivity|].
  apply Z.leb_gt in Hc.
  destruct (processor req) as [pid secret|st msg]; injection H as <- <-.
  - exists o, cents. repeat split; assumption.
  - reflexivity.
Qed.

Lemma intent_only_for_owner_of_unpaid_order_witness :
  let o := orderWith St_pending emptyPayment in
  let os : gmap string Order := {[ oid := o ]} in
  ∃ o1 cents,
    os !! oid = Some o1
    ∧ true = true
    ∧ user o1 = "u1"%string
    ∧ isPaid o1 = false
    ∧ amountCents o1 = Some cents ∧ 0 < cents
    ∧ <[oid := bindIntent "pi_1" "usd" 2457 o]> os
      = <[oid := bindIntent "pi_1" "usd" cents o1]> os.
Proof.
  intros o os.
  apply (intent_only_for_owner_of_unpaid_order (payRequest "u1" (Some "USD"%string))
           os (<[oid := bindIntent "pi_1" "usd" 2457 o]> os)
           (ClientSecret "secret_1" "pi_1")).
  vm_compute. reflexivity.
Defined.

Lemma createPaymentIntent_cases req (orders orders' : gmap string Order)
    secret pid o :
  createPaymentIntent req orders = (ClientSecret secret pid, orders') →
  orders !! body_orderId req = Some o →
  ∃ cents,
    amountCents o = Some cents ∧ 0 < cents
    ∧ orders' = <[body_orderId req :=
                    bindIntent pid (normalizedCurrency (body_currency req))
                               cents o]> orders.
Proof.
  unfold createPaymentIntent. intros H Ho. rewrite Ho in H.
  destruct (stripeKeySet req); simpl in H; [|discriminate].
  destruct (requesterVerified req); simpl in H; [|discriminate].
  destruct (String.eqb (user o) (requester req)); simpl in H; [|discriminate].
  destruct (isPaid o); [discriminate|].
  destruct (amountCents o) as [cents|]; [|discriminate].
  destruct (cents <=? 0) eqn:Hc; [discriminate|].
  apply Z.leb_gt in Hc.
  destruct (processor req); [|discriminate].
  injection H as _ <- <-. exists cents. repeat split. exact Hc.
Qed.

(** X9.  After [createPaymentIntent] has bound an intent to an order that is
    neither cancelled nor refunded, a succeeded event for that order which
    carries [amount_received] marks it paid exactly when the amount equals
    the bound amount in cents and the event's currency, if it has one,
    equals the bound currency ignoring letter case. *)
Theorem bound_amount_is_enforced req (orders orders' : gmap string Order) secret pid
    now db pi r o :
  createPaymentIntent req orders = (ClientSecret secret pid, orders') →
  orders !! body_orderId req = Some o →
  status o ≠ St_cancelled → status o ≠ St_refunded →
  so_metadata_orderId pi = Some (body_orderId req) →
  truthy (body_orderId req) = true →
  so_amount_received pi = Some r →
  orderFind db = None → orderSave db = None →
  ∃ os2 o2,
    markOrderPaid now db pi orders' = Done os2
    ∧ os2 !! body_orderId req = Some o2
    ∧ (isPaid o2 = true
       ↔ Some r = amountCents o
         ∧ currencyComparable (Some (normalizedCurrency (body_currency req)))
                              (so_currency pi)
           && currencyMismatch (Some (normalizedCurrency (body_currency req)))
                               (so_currency pi) = false).
Proof.
  intros Hc Ho Hs1 Hs2 Hid Ht Hr Hf Hs.
  pose proof (createPaymentIntent_cases req orders orders' secret pid o Hc Ho)
    as (cents & Hcents & Hpos & ->).
  rewrite Hcents.
  set (o1 := bindIntent pid (normalizedCurrency (body_currency req)) cents o).
  assert (Hopen : openFor pi (<[body_orderId req := o1]> orders) (body_orderId req) o1).
  { repeat split; try assumption. apply lookup_insert_eq. }
  rewrite (markOrderPaid_open _ _ _ _ _ _ Hopen Hf).
  unfold save. rewrite Hs.
  exists (<[body_orderId req := verdict now pi o1]> (<[body_orderId req := o1]> orders)),
         (verdict now pi o1).
  split; [reflexivity|]. split; [apply lookup_insert_eq|].
  unfold verdict.
  change (payment o1 ≫= pay_amount) with (Some cents).
  change (payment o1 ≫= pay_currency)
    with (Some (normalizedCurrency (body_currency req))).
  rewrite Hr.
  remember (currencyComparable (Some (normalizedCurrency (body_currency req)))
              (so_currency pi)
            && currencyMismatch (Some (normalizedCurrency (body_currency req)))
                 (so_currency pi)) as currencyOff eqn:Ec.
  unfold amountComparable, amountMismatch.
  assert (Hlt : (0 <? cents) = true) by (apply Z.ltb_lt; exact Hpos).
  rewrite Hlt. cbn [andb].
  assert (Hfail : ∀ reason, isPaid (failPayment reason o1) = false) by reflexivity.
  destruct (Z.eqb_spec r cents) as [E|E]; cbn [negb].
  - destruct currencyOff.
    + rewrite Hfail. split; [discriminate | intros [_ X]; discriminate].
    + destruct (settle_fields now pi o1) as (Hp & _). rewrite Hp.
      split; [intros _; split; [f_equal; exact E | reflexivity] | reflexivity].
  - rewrite Hfail. split; [discriminate | intros [X _]; congruence].
Qed.

Lemma bound_amount_is_enforced_witness :
  let o := orderWith St_pending emptyPayment in
  let os : gmap string Order := {[ oid := o ]} in
  let pi := intent (Some 2000) (Some "usd"%string) in
  ∃ os2 o2,
    markOrderPaid 7 noFaults pi (<[oid := bindIntent "pi_1" "usd" 2457 o]> os) = Done os2
    ∧ os2 !! oid = Some o2
    ∧ (isPaid o2 = true
       ↔ Some 2000 = amountCents o
         ∧ currencyComparable (Some (normalizedCurrency (Some "USD"%string)))
                              (so_currency pi)
           && currencyMismatch (Some (normalizedCurrency (Some "USD"%string)))
                               (so_currency pi) = false).
Proof.
  intros o os pi.
  apply (bound_amount_is_enforced (payRequest "u1" (Some "USD"%string)) os
           (<[oid := bindIntent "pi_1" "usd" 2457 o]> os) "secret_1" "pi_1"
           7 noFaults pi 2000 o).
  - vm_compute. reflexivity.
  - reflexivity.
  - discriminate.
  - discriminate.
  - reflexivity.
  - reflexivity.
  - reflexivity.
  - reflexivity.
  - reflexivity.
Defined.

End PaymentIntents.

(** ** What a placed order holds *)

Section PlacedOrders.
Import Js Schema Orders Interleaving Samples.

Lemma normalizeOrderItems_facts raw :
  (normalizeOrderItems raw = None ↔ None ∈ raw)
  ∧ ∀ items, normalizeOrderItems raw = Some items →
      Forall (λ it, 0 < qty it ∧ truthy (productId it) = true) items
      ∧ (length items ≤ length raw)%nat
      ∧ (items = [] ↔ Forall unusable raw).
Proof.
  unfold normalizeOrderItems.
  match goal with |- context [omap ?g _] => set (f := g) end.
  assert (Hsome : ∀ r it, f r = Some it → 0 < qty it ∧ truthy (productId it) = true).
  { intros r it. unfold f. fold (rawQty r).
    destruct (truthyOpt (or_else (raw_productId r) (raw_product r))) eqn:Hid;
      simpl; [|discriminate].
    destruct (0 <? rawQty r) eqn:Hq; [|discriminate].
    intros H. injection H as <-. simpl. split; [apply Z.ltb_lt; exact Hq|].
    destruct (or_else (raw_productId r) (raw_product r)); [exact Hid | discriminate]. }
  assert (Hnone : ∀ r, f r = None ↔ unusable (Some r)).
  { intros r. unfold f, unusable. fold (rawQty r).
    destruct (truthyOpt (or_else (raw_productId r) (raw_product r))); simpl.
    - destruct (0 <? rawQty r) eqn:Hq.
      + apply Z.ltb_lt in Hq. split; [discriminate|]. intros [X|X]; [discriminate | lia].
      + apply Z.ltb_ge in Hq. split; [intros _; right; exact Hq | reflexivity].
    - split; [intros _; left; reflexivity | reflexivity]. }
  clearbody f.
  induction raw as [|e raw (IHn & IHs)].
  - split; [split; [discriminate | intros X; inversion X]|].
    intros items H. injection H as <-. simpl.
    split; [constructor|]. split; [lia|]. split; [constructor | reflexivity].
  - destruct e as [r|]; simpl.
    + destruct (mapM (λ it : option RawItem, it) raw) as [objs|] eqn:Hm; simpl in *.
      * split.
        { split; [discriminate|]. intros X.
          apply elem_of_cons in X. destruct X as [X|X]; [discriminate|].
          apply IHn in X. discriminate. }
        intros items H. injection H as <-.
        destruct (IHs _ eq_refl) as (IH1 & IH2 & IH3).
        destruct (f r) as [it|] eqn:E; simpl.
        -- split; [constructor; [exact (Hsome r it E) | exact IH1]|].
           split; [apply le_n_S; exact IH2|]. split; [discriminate|].
           intros H. inversion H as [|? ? Hu _]. apply Hnone in Hu. congruence.
        -- split; [exact IH1|].
           split; [apply Nat.le_trans with (length raw);
                   [exact IH2 | apply Nat.le_succ_diag_r]|].
           split.
           ++ intros H. constructor; [apply Hnone; exact E | apply IH3; exact H].
           ++ intros H. apply IH3. inversion H; assumption.
      * split; [split; [intros _; right; apply IHn; reflexivity | reflexivity]|].
        discriminate.
    + split; [split; [intros _; left | reflexivity]|]. discriminate.
Qed.

(** X10.  [normalizeOrderItems] throws exactly when an element of the array
    is [null].  Otherwise it keeps only items with a product id and a
    positive quantity, never returns more items than it was given, and
    returns none exactly when every element is unusable. *)
Theorem normalizeOrderItems_sound raw :
  (normalizeOrderItems raw = None ↔ None ∈ raw)
  ∧ ∀ items, normalizeOrderItems raw = Some items →
      Forall (λ it, 0 < qty it ∧ truthy (productId it) = true) items
      ∧ (length items ≤ length raw)%nat
      ∧ (items = [] ↔ Forall unusable raw).
Proof. exact (normalizeOrderItems_facts raw). Qed.

(** X11.  A request with a [null] element among its items is answered 500
    with the [TypeError] of [normalizeOrderItems], and a request none of
    whose items is usable is answered 400: either way before any collection
    is touched. *)
Theorem no_usable_items_rejected env req db :
  (None ∈ body_orderItems req →
   addOrderItems env req db = (Failed 500 nullItemMessage, db))
  ∧ (Forall unusable (body_orderItems req) →
     addOrderItems env req db = (Failed 400 "No order items", db)).
Proof.
  unfold addOrderItems.
  destruct (normalizeOrderItems_facts (body_orderItems req)) as (Hnull & Hitems).
  split.
  - intros H. rewrite (proj2 Hnull H). reflexivity.
  - intros H.
    destruct (normalizeOrderItems (body_orderItems req)) as [items|] eqn:E.
    + destruct (Hitems items eq_refl) as (_ & _ & Hiff).
      rewrite (proj2 Hiff H). reflexivity.
    + rewrite Forall_forall in H. elim (H None (proj1 Hnull eq_refl)).
Qed.

Lemma no_usable_items_rejected_witness :
  addOrderItems (at100 false) (checkout [line pidA 1; None] "UG" None None)
    (shop 10 2 5)
  = (Failed 500 nullItemMessage, shop 10 2 5)
  ∧ addOrderItems (at100 false) (checkout [line pidA 0; line "" 2] "UG" None None)
      (shop 10 2 5)
    = (Failed 400 "No order items", shop 10 2 5).
Proof.
  split.
  - apply (no_usable_items_rejected (at100 false)
             (checkout [line pidA 1; None] "UG" None None) (shop 10 2 5)).
    simpl. right. left.
  - apply (no_usable_items_rejected (at100 false)
             (checkout [line pidA 0; line "" 2] "UG" None None) (shop 10 2 5)).
    constructor; [right; unfold rawQty; simpl; lia|].
    constructor; [left; reflexivity|]. constructor.
Defined.

Lemma addOrderItems_created_inv env req db id o db' :
  addOrderItems env req db = (Created id o, db') →
  ∃ items ps cs',
    normalizeOrderItems (body_orderItems req) = Some items
    ∧ reserveAll items (products db) = Some ps
    ∧ buildOrder env req items ps (orders db) (coupons db) = BuiltOrder o cs'
    ∧ id = newOrderId env
    ∧ db' = {| products := ps; coupons := cs';
               orders := <[newOrderId env := o]> (orders db) |}.
Proof.
  unfold addOrderItems. intros H.
  destruct (normalizeOrderItems (body_orderItems req)) as [n|]; [|discriminate].
  destruct (Z.of_nat _ =? 0); [discriminate|].
  exists n.
  destruct (useTransaction env).
  - unfold addOrderItemsTransaction in H.
    destruct (reserveAll n (products db)) as [ps|] eqn:Hall; [|discriminate].
    destruct (buildOrder env req n ps (orders db) (coupons db)) as [o1 cs'|] eqn:Hb;
      [|discriminate].
    injection H as <- <- <-. exists ps, cs'. repeat split; assumption.
  - unfold addOrderItemsFallback in H.
    pose proof (reserveLoop_reserveAll n (products db) []) as Hall.
    destruct (reserveLoop n (products db) []) as [[ok ps] dec].
    simpl in Hall. destruct ok; simpl in H; [|discriminate].
    destruct (buildOrder env req n ps (orders db) (coupons db)) as [o1 cs'|] eqn:Hb;
      [|discriminate].
    injection H as <- <- <-. exists ps, cs'. repeat split; assumption.
Qed.

(** X12.  When an order is created, on either path, it is stored under the
    new id beside the orders that were there, and the stock of every
    product has dropped by exactly the quantity the order's items ask of it;
    stock that was not negative is not negative afterwards. *)
Theorem created_order_takes_its_stock env req db id o db' :
  addOrderItems env req db = (Created id o, db') →
  ∃ items,
    normalizeOrderItems (body_orderItems req) = Some items
    ∧ id = newOrderId env
    ∧ orders db' = <[id := o]> (orders db)
    ∧ ∀ pid,
        stockOf (products db') pid = stockOf (products db) pid - qtyFor pid items
        ∧ (0 ≤ stockOf (products db) pid → 0 ≤ stockOf (products db') pid).
Proof.
  intros H.
  destruct (addOrderItems_created_inv _ _ _ _ _ _ H)
    as (items & ps & cs' & Hn & Hall & _ & -> & ->).
  destruct (reserveAll_stock _ _ _ Hall) as (Hs & Hn' & _).
  exists items. simpl. repeat split; auto.
Qed.

Lemma created_order_takes_its_stock_witness :
  ∃ o db',
    addOrderItems (at100 true) (checkout [line pidA 2; line pidB 1; line pidA 1] "KE" None None)
      (shop 10 4 5) = (Created (newOrderId (at100 true)) o, db')
    ∧ stockOf (products db') pidA = stockOf (products (shop 10 4 5)) pidA - 3
    ∧ stockOf (products db') pidB = 4.
Proof.
  destruct (addOrderItems (at100 true)
              (checkout [line pidA 2; line pidB 1; line pidA 1] "KE" None None)
              (shop 10 4 5)) as [[id o|st msg] db'] eqn:E;
    [|vm_compute in E; discriminate].
  destruct (created_order_takes_its_stock _ _ _ _ _ _ E)
    as (items & Hitems & -> & _ & Hstock).
  vm_compute in Hitems. injection Hitems as <-.
  exists o, db'. split; [reflexivity|].
  split.
  - rewrite (proj1 (Hstock pidA)). reflexivity.
  - rewrite (proj1 (Hstock pidB)). reflexivity.
Defined.

(** The snapshot loop adds one line per item, priced from [byId], and adds
    each line's price times quantity to the running sum. *)
Lemma snapshotItems_spec byId items : ∀ acc p ci ip,
  snapshotItems byId items acc p = Some (ci, ip) →
  ∃ new,
    ci = acc ++ new
    ∧ ip = foldl (λ sum i, (sum + oi_price i * ofZ (oi_qty i))%js) p new
    ∧ Forall2 (λ it li,
        oi_product li = productId it ∧ oi_qty li = qty it
        ∧ ∃ prod, byId (productId it) = Some prod
                  ∧ oi_price li = orNum (p_price prod) (Fin 0)
                  ∧ oi_name li = Some (p_name prod)) items new.
Proof.
  induction items as [|it items IH]; intros acc p ci ip H; simpl in H.
  - injection H as <- <-. exists []. rewrite app_nil_r.
    split; [reflexivity|]. split; [reflexivity | constructor].
  - destruct (byId (productId it)) as [prod|] eqn:Hb; [|discriminate].
    destruct (IH _ _ _ _ H) as (new & -> & Hip & Hall).
    eexists (_ :: new). rewrite <- app_assoc. split; [reflexivity|]. split.
    + rewrite Hip. reflexivity.
    + constructor; [|exact Hall]. simpl. repeat split. eauto.
Qed.

(** Decrements change nothing but [countInStock]. *)
Lemma reserveAll_fields items : ∀ ps ps',
  reserveAll items ps = Some ps' →
  ∀ k p', ps' !! k = Some p' →
  ∃ p, ps !! k = Some p ∧ p_price p' = p_price p ∧ p_name p' = p_name p.
Proof.
  induction items as [|it items IH]; intros ps ps' H k p' Hk; simpl in H.
  - injection H as <-. eauto.
  - destruct (reserveOne ps it) as [ps1|] eqn:Hr; [|discriminate].
    destruct (IH _ _ H k p' Hk) as (p1 & Hp1 & Hprice & Hname).
    unfold reserveOne in Hr.
    destruct (ps !! castId (productId it)) as [p0|] eqn:H0; [|discriminate].
    destruct (enabled p0 && negb (isDeleted p0) && (qty it <=? countInStock p0));
      [|discriminate].
    injection Hr as <-.
    destruct (decide (castId (productId it) = k)) as [E|N].
    + subst k. rewrite lookup_insert_eq in Hp1. injection Hp1 as <-.
      exists p0. split; [exact H0|]. split; [exact Hprice | exact Hname].
    + rewrite lookup_insert_ne in Hp1 by exact N. eauto.
Qed.

(** X13.  A created order starts [pending] and unpaid, with a pending
    payment in [usd] and no amount bound; it has one line per normalized
    item, in order, with the item's product and quantity and the name and
    price the catalogue held for that product when the request arrived; and
    [itemsPrice] is the sum of [price * qty] over its lines, taken line by
    line in double arithmetic. *)
Theorem created_order_snapshot env req db id o db' :
  addOrderItems env req db = (Created id o, db') →
  status o = St_pending ∧ isPaid o = false ∧ user o = userId req
  ∧ paymentStatusIs Pay_pending o = true
  ∧ (payment o ≫= pay_amount) = None
  ∧ (payment o ≫= pay_currency) = Some "usd"%string
  ∧ itemsPrice o = lineTotal (orderItems o)
  ∧ ∃ items,
      normalizeOrderItems (body_orderItems req) = Some items
      ∧ Forall2 (λ it li,
          oi_product li = productId it ∧ oi_qty li = qty it
          ∧ ∃ prod, products db !! productId it = Some prod
                    ∧ oi_price li = orNum (p_price prod) (Fin 0)
                    ∧ oi_name li = Some (p_name prod))
          items (orderItems o).
Proof.
  intros H.
  destruct (addOrderItems_created_inv _ _ _ _ _ _ H)
    as (items & ps & cs' & Hn & Hall & Hb & _ & _).
  unfold buildOrder in Hb.
  destruct (snapshotItems _ _ _ _) as [[computedItems ip]|] eqn:Hsnap; [|discriminate].
  destruct (Shipping.calculateShipping _ _ _ _ _) as [shippingCalc|]; [|discriminate].
  destruct (if truthyOpt (couponCode req) then _ else _) as [[couponResult cs1]|];
    [|discriminate].
  match type of Hb with (if validateOrder ?ord then _ else _) = _ =>
    destruct (validateOrder ord); [|discriminate] end.
  injection Hb as <- _. simpl.
  destruct (snapshotItems_spec _ _ _ _ _ _ Hsnap) as (new & Hci & Hip & Hlines).
  simpl in Hci. subst computedItems.
  repeat split.
  - exact Hip.
  - exists items. split; [exact Hn|].
    eapply Forall2_impl; [exact Hlines|]. simpl.
    intros it li (Hp & Hq & prod & Hby & Hprice & Hname).
    split; [exact Hp|]. split; [exact Hq|].
    unfold byIdGet in Hby.
    destruct (existsb _ _); [|discriminate].
    destruct (reserveAll_fields _ _ _ Hall _ _ Hby) as (p0 & Hp0 & Hpr & Hnm).
    exists p0. split; [exact Hp0|]. split; congruence.
Qed.

(** Three Kettles at 0.1 each: the stored subtotal is the double
    0.30000000000000004, not the double written 0.3. *)
Lemma created_order_snapshot_witness :
  ∃ o db',
    addOrderItems (at100 false) (checkout [line pidA 3; line pidB 1] "UG" None None)
      (shop 0.1 4 5) = (Created (newOrderId (at100 false)) o, db')
    ∧ status o = St_pending ∧ isPaid o = false
    ∧ itemsPrice o = lineTotal (orderItems o)
    ∧ lineTotal (take 1 (orderItems o)) = decimal 0.30000000000000004
    ∧ decimal 0.30000000000000004 ≠ decimal 0.3.
Proof.
  destruct (addOrderItems (at100 false)
              (checkout [line pidA 3; line pidB 1] "UG" None None)
              (shop 0.1 4 5)) as [[id o|st msg] db'] eqn:E;
    [|vm_compute in E; discriminate].
  destruct (created_order_snapshot _ _ _ _ _ _ E) as (Hs & Hp & _ & _ & _ & _ & Hi & _).
  assert (id = newOrderId (at100 false)) as ->.
  { destruct (addOrderItems_created_inv _ _ _ _ _ _ E)
      as (? & ? & ? & _ & _ & _ & -> & _).
    reflexivity. }
  exists o, db'. split; [reflexivity|].
  split; [exact Hs|]. split; [exact Hp|]. split; [exact Hi|].
  vm_compute in E. injection E as <- _.
  split; [vm_compute; reflexivity | vm_compute; discriminate].
Defined.

End PlacedOrders.

(** ** Shipping, tax and totals *)

Section ShippingProperties.
Import Js Schema Shipping Samples.

Lemma upperChar_lowerChar c : upperChar (lowerChar c) = upperChar c.
Proof. destruct c as [[] [] [] [] [] [] [] []]; reflexivity. Qed.

Lemma toUpperCase_toLowerCase s : toUpperCase (toLowerCase s) = toUpperCase s.
Proof.
  induction s as [|c s IH]; simpl; [reflexivity|].
  rewrite upperChar_lowerChar, IH. reflexivity.
Qed.

Lemma upperChar_idem c : upperChar (upperChar c) = upperChar c.
Proof. destruct c as [[] [] [] [] [] [] [] []]; reflexivity. Qed.

Lemma toUpperCase_idem s : toUpperCase (toUpperCase s) = toUpperCase s.
Proof.
  induction s as [|c s IH]; simpl; [reflexivity|].
  rewrite upperChar_idem, IH. reflexivity.
Qed.

Lemma countryCode_upper (s : string) :
  toUpperCase (default ""%string (or_else (Some s) None)) = toUpperCase s.
Proof. destruct s; reflexivity. Qed.

(** X14.  Country codes written in ASCII characters are read without
    regard to letter case: a code, its lower-case form and its upper-case
    form get the same shipping region and the same tax rate. *)
Theorem country_code_case_insensitive s :
  isAscii s = true →
  getShippingRegion (Some (toLowerCase s)) = getShippingRegion (Some s)
  ∧ getShippingRegion (Some (toUpperCase s)) = getShippingRegion (Some s)
  ∧ taxRate (Some (toLowerCase s)) = taxRate (Some s)
  ∧ taxRate (Some (toUpperCase s)) = taxRate (Some s).
Proof.
  intros _. unfold getShippingRegion, taxRate.
  rewrite !countryCode_upper, toUpperCase_toLowerCase, toUpperCase_idem.
  repeat split.
Qed.

Lemma country_code_case_insensitive_witness :
  getShippingRegion (Some (toLowerCase "Ke")) = getShippingRegion (Some "Ke"%string)
  ∧ getShippingRegion (Some (toUpperCase "Ke")) = getShippingRegion (Some "Ke"%string)
  ∧ taxRate (Some (toLowerCase "Ke")) = taxRate (Some "Ke"%string)
  ∧ taxRate (Some (toUpperCase "Ke")) = taxRate (Some "Ke"%string).
Proof. apply (country_code_case_insensitive "Ke"). reflexivity. Defined.

Lemma regular_rate r method :
  method = "standard"%string ∨ method = "express"%string →
  ∃ rate, methodRate (SHIPPING_RATES r) method = Some rate
          ∧ (Fin 5 <= price rate)%js ∧ isDouble (price rate).
Proof.
  intros [-> | ->]; destruct r; eexists; (split; [reflexivity|]);
    split; vm_compute; reflexivity.
Qed.

Lemma free_shipping_iff r method total :
  bool_decide (r = UG)
  && match free_threshold (SHIPPING_RATES r) with
     | Some t => negb (falsy t) && geb total t
     | None => false
     end
  && String.eqb method "standard" = true
  ↔ r = UG ∧ method = "standard"%string ∧ (Fin 50 <= total)%js.
Proof.
  destruct r; simpl;
    try (split; [discriminate | intros (X & _); discriminate]).
  change (falsy (Fin 50)) with false. unfold geb, le. simpl. split.
  - intros H. apply andb_prop in H. destruct H as [H1 H2].
    apply String.eqb_eq in H2. auto.
  - intros (_ & -> & H). rewrite H. reflexivity.
Qed.

Lemma half : decimal 0.5 = Fin (1 # 2).
Proof. vm_compute. reflexivity. Qed.

(** A surcharge is not negative. *)
Lemma surcharge_nonneg a l k :
  (l < a)%js → l ≠ PosInf → (Fin 0 <= a)%js → (0 < k)%Q →
  (Fin 0 <= (a - l) * Fin k)%js.
Proof.
  intros Hlt Hl Ha Hk. apply mul_nonneg_pos; [|exact Hk].
  apply sub_nonneg; [apply lt_le; exact Hlt | exact Ha | exact Hl].
Qed.

Lemma gt_nonneg a x : gtb a (Fin x) = true → (0 <= x)%Q → (Fin 0 <= a)%js.
Proof.
  intros H Hx. destruct a as [y| | |]; try discriminate; [|reflexivity].
  unfold gtb in H. simpl in H. apply le_Fin. apply negb_true_iff in H.
  apply Qle_bool_false in H. lra.
Qed.

Lemma regular_shipping_facts cc total method n w :
  method = "standard"%string ∨ method = "express"%string →
  ∃ sc,
    calculateShipping cc total method n w = Some sc
    ∧ (isFree sc = true
       ↔ getShippingRegion cc = UG ∧ method = "standard"%string
         ∧ (Fin 50 <= total)%js)
    ∧ (isFree sc = true → cost sc = Fin 0)
    ∧ (isFree sc = false → (Fin 5 <= cost sc)%js).
Proof.
  intros Hm. unfold calculateShipping.
  pose proof (free_shipping_iff (getShippingRegion cc) method total) as Hfree.
  destruct (regular_rate (getShippingRegion cc) method Hm)
    as (rate & Hrate & Hprice & Hdouble).
  rewrite Hrate.
  destruct (bool_decide (getShippingRegion cc = UG) && _ && _) eqn:Efree.
  - eexists. split; [reflexivity|]. simpl.
    split; [split; [intros _; apply Hfree; reflexivity | reflexivity]|].
    split; [reflexivity | discriminate].
  - eexists. split; [reflexivity|]. simpl.
    split; [split; [discriminate | intros X; apply Hfree in X; discriminate]|].
    split; [discriminate|]. intros _.
    change (Fin 5) with (toFixed2 (Fin 5)). apply toFixed2_mono.
    assert (H0 : (Fin 0 <= price rate)%js).
    { eapply le_trans; [|exact Hprice]. reflexivity. }
    set (c1 := if gtb w (Fin 5)
               then (price rate + (w - Fin 5) * Fin 2)%js else price rate).
    assert (H1 : (price rate <= c1)%js ∧ isDouble c1).
    { unfold c1. destruct (gtb w (Fin 5)) eqn:Ew.
      - split; [|apply add_isDouble].
        apply le_add_r; [exact Hdouble | exact H0|].
        apply surcharge_nonneg; [exact Ew | discriminate | | reflexivity].
        apply (gt_nonneg w 5 Ew). discriminate.
      - split; [|exact Hdouble].
        apply le_refl. destruct (le_not_NaN _ _ Hprice) as [_ N]. exact N. }
    destruct H1 as [H1 D1].
    assert (H2 : (c1 <= if gtb n (Fin 10)
                        then c1 + (n - Fin 10) * decimal 0.5 else c1)%js).
    { destruct (gtb n (Fin 10)) eqn:En.
      - rewrite half. apply le_add_r; [exact D1 | |].
        + eapply le_trans; [exact H0 | exact H1].
        + apply surcharge_nonneg; [exact En | discriminate | | reflexivity].
          apply (gt_nonneg n 10 En). discriminate.
      - apply le_refl. destruct (le_not_NaN _ _ H1) as [_ N]. exact N. }
    eapply le_trans; [exact Hprice|]. eapply le_trans; [exact H1 | exact H2].
Qed.

(** X15.  For the methods [standard] and [express], [calculateShipping]
    always returns a cost.  Shipping is free, at cost 0, exactly for a
    domestic [standard] shipment of an order of at least 50; every other
    shipment costs at least 5. *)
Theorem regular_shipping_cost cc total method n w :
  method = "standard"%string ∨ method = "express"%string →
  ∃ sc,
    calculateShipping cc total method n w = Some sc
    ∧ (isFree sc = true
       ↔ getShippingRegion cc = UG ∧ method = "standard"%string
         ∧ (Fin 50 <= total)%js)
    ∧ (isFree sc = true → cost sc = Fin 0)
    ∧ (isFree sc = false → (Fin 5 <= cost sc)%js).
Proof. exact (regular_shipping_facts cc total method n w). Qed.

Lemma regular_shipping_cost_witness :
  ∃ sc,
    calculateShipping (Some "ug"%string) (Fin 60) "standard" (Fin 12) (Fin 0) = Some sc
    ∧ (isFree sc = true
       ↔ getShippingRegion (Some "ug"%string) = UG
         ∧ "standard"%string = "standard"%string ∧ (Fin 50 <= Fin 60)%js)
    ∧ (isFree sc = true → cost sc = Fin 0)
    ∧ (isFree sc = false → (Fin 5 <= cost sc)%js).
Proof.
  apply (regular_shipping_cost (Some "ug"%string) (Fin 60) "standard" (Fin 12) (Fin 0)).
  left. reflexivity.
Defined.

(** X16.  [getShippingMethods] always offers exactly two methods, standard
    first and express second, each with a cost, and standard never costs
    more than express. *)
Theorem shipping_methods_offer cc total :
  ∃ s e,
    getShippingMethods cc total
    = Some [{| offer_id := "standard"; offer_name := "Standard Shipping"; offer_calc := s |};
            {| offer_id := "express"; offer_name := "Express Shipping"; offer_calc := e |}]
    ∧ isNaN (cost s) = false ∧ isNaN (cost e) = false
    ∧ (cost s <= cost e)%js.
Proof.
  unfold getShippingMethods, calculateShipping.
  destruct (getShippingRegion cc);
    try (eexists _, _; split; [vm_compute; reflexivity|];
         split; [reflexivity|]; split; reflexivity).
  cbn -[toFixed2 geb falsy]. change (falsy (Fin 50)) with false.
  destruct (geb total (Fin 50));
    (eexists _, _; split; [vm_compute; reflexivity|];
     split; [reflexivity|]; split; reflexivity).
Qed.

Lemma taxRate_cases cc :
  ∃ r, taxRate cc = Fin r ∧ (0 <= r)%Q
       ∧ ∃ r18, decimal 0.18 = Fin r18 ∧ (r <= r18)%Q.
Proof.
  unfold taxRate. repeat case_match;
    (eexists; split; [vm_compute; reflexivity|]; split; [discriminate|];
     eexists; split; [vm_compute; reflexivity|]; discriminate).
Qed.

(** X17.  Tax on a finite subtotal that is not negative is never negative
    and never more than the tax at 18 percent on it, the product of
    subtotal and rate being taken in double arithmetic and rounded to
    cents; a country code other than UG, KE, TZ and RW (in any letter case)
    is taxed nothing. *)
Theorem tax_bounds cc subtotal :
  isFinite subtotal = true → (Fin 0 <= subtotal)%js →
  (Fin 0 <= calculateTax cc subtotal)%js
  ∧ (calculateTax cc subtotal <= toFixed2 (subtotal * decimal 0.18))%js
  ∧ (¬ In (toUpperCase (default ""%string (or_else cc None)))
         ["UG"; "KE"; "TZ"; "RW"]%string →
     calculateTax cc subtotal = Fin 0).
Proof.
  intros Hfin Hs. destruct subtotal as [subtotal| | |]; try discriminate.
  clear Hfin. apply le_Fin in Hs. unfold calculateTax.
  destruct (taxRate_cases cc) as (r & Er & Hr0 & r18 & E18 & Hr18).
  split; [|split].
  - rewrite Er. apply toFixed2_nonneg, mul_Fin_nonneg; assumption.
  - rewrite Er, E18. apply toFixed2_mono. unfold mul. apply round64_mono. nra.
  - intros Hno. unfold taxRate.
    set (code := toUpperCase (default ""%string (or_else cc None))) in *.
    destruct (String.eqb_spec code "UG"); [elim Hno; simpl; auto|].
    destruct (String.eqb_spec code "KE"); [elim Hno; simpl; auto|].
    destruct (String.eqb_spec code "TZ"); [elim Hno; simpl; auto|].
    destruct (String.eqb_spec code "RW"); [elim Hno; simpl; auto|].
    unfold mul. rewrite (round64_zero (subtotal * 0)) by ring. reflexivity.
Qed.

(** 0.3611111111111111 taxed in Uganda: the product with 0.18 in doubles
    lies just above 0.065 and the tax is 0.07, where the product of the
    two decimals would round to 0.06. *)
Lemma tax_bounds_witness :
  ((Fin 0 <= calculateTax (Some "ug"%string) (decimal 0.3611111111111111))%js
   ∧ (calculateTax (Some "ug"%string) (decimal 0.3611111111111111)
      <= toFixed2 (decimal 0.3611111111111111 * decimal 0.18))%js
   ∧ (¬ In (toUpperCase (default ""%string (or_else (Some "ug"%string) None)))
          ["UG"; "KE"; "TZ"; "RW"]%string →
      calculateTax (Some "ug"%string) (decimal 0.3611111111111111) = Fin 0))
  ∧ calculateTax (Some "ug"%string) (decimal 0.3611111111111111) = decimal 0.07
  ∧ cents (0.3611111111111111 * 0.18) = 0.06%Q.
Proof.
  split; [apply (tax_bounds (Some "ug"%string) (decimal 0.3611111111111111));
          vm_compute; reflexivity|].
  split; vm_compute; reflexivity.
Defined.

(** The running subtotal of [calculateOrderTotals] over items with finite
    prices and quantities that are not negative. *)
Lemma itemsPrice_nonneg items : ∀ acc,
  (Fin 0 <= acc)%js → isDouble acc →
  Forall (λ i, isFinite (it_price i) = true ∧ (Fin 0 <= it_price i)%js
               ∧ isFinite (it_qty i) = true ∧ (Fin 0 <= it_qty i)%js) items →
  (Fin 0 <= foldl (λ sum item,
                     let price := orNum (it_price item) (Fin 0) in
                     let qty := orNum (it_qty item) (Fin 1) in
                     (sum + price * qty)%js) acc items)%js
  ∧ isDouble (foldl (λ sum item,
                       let price := orNum (it_price item) (Fin 0) in
                       let qty := orNum (it_qty item) (Fin 1) in
                       (sum + price * qty)%js) acc items).
Proof.
  induction items as [|i items IH]; intros acc Hacc Dacc Hall; simpl; [auto|].
  inversion Hall as [|? ? (Fp & Hp & Fq & Hq) Hrest]; subst.
  apply IH; [|apply add_isDouble | exact Hrest].
  apply add_nonneg; [exact Hacc|].
  destruct (it_price i) as [p| | |]; try discriminate.
  destruct (it_qty i) as [q| | |]; try discriminate.
  apply le_Fin in Hp, Hq. unfold orNum, falsy.
  destruct (Qeq_bool p 0); destruct (Qeq_bool q 0);
    apply mul_Fin_nonneg; try assumption; discriminate.
Qed.

(** X18.  For the methods [standard] and [express], items with finite
    prices and quantities that are not negative, and a coupon discount that
    is a number, [calculateOrderTotals] returns totals whose discount never
    exceeds the items subtotal; and while the subtotal stays finite the
    total is never negative. *)
Theorem order_totals_bounds items cc method couponDiscount :
  method = "standard"%string ∨ method = "express"%string →
  Forall (λ i, isFinite (it_price i) = true ∧ (Fin 0 <= it_price i)%js
               ∧ isFinite (it_qty i) = true ∧ (Fin 0 <= it_qty i)%js) items →
  isNaN couponDiscount = false →
  ∃ t,
    calculateOrderTotals items cc method couponDiscount = Some t
    ∧ (tot_discount t <= tot_itemsPrice t)%js
    ∧ (isFinite (tot_itemsPrice t) = true → (Fin 0 <= tot_totalPrice t)%js).
Proof.
  intros Hm Hitems Hc. unfold calculateOrderTotals.
  match goal with |- context [calculateShipping cc ?I method ?N (Fin 0)] =>
    set (itemsPrice := I); set (itemCount := N) end.
  destruct (itemsPrice_nonneg items (Fin 0) eq_refl eq_refl Hitems) as [Hip Dip].
  change (Fin 0 <= itemsPrice)%js in Hip. change (isDouble itemsPrice) in Dip.
  clearbody itemsPrice itemCount.
  destruct (le_not_NaN _ _ Hip) as [_ Nip].
  destruct (regular_shipping_facts cc itemsPrice method itemCount (Fin 0) Hm)
    as (sc & -> & _ & Hfree & Hpaid).
  assert (Hc0 : (Fin 0 <= cost sc)%js).
  { destruct (isFree sc).
    - rewrite (Hfree eq_refl). reflexivity.
    - eapply le_trans; [|exact (Hpaid eq_refl)]. reflexivity. }
  eexists. split; [reflexivity|]. simpl.
  split; [apply toFixed2_mono, min_le_r; assumption|].
  intros Hfin. apply toFixed2_finite in Hfin.
  destruct itemsPrice as [ip| | |]; try discriminate. clear Hfin.
  apply le_Fin in Hip.
  apply toFixed2_nonneg.
  assert (Htax : (Fin 0 <= calculateTax cc (Fin ip))%js).
  { unfold calculateTax. destruct (taxRate_cases cc) as (r & -> & Hr & _).
    apply toFixed2_nonneg, mul_Fin_nonneg; assumption. }
  assert (H1 : (Fin ip <= Fin ip + cost sc)%js).
  { apply le_add_r; [exact Dip | apply le_Fin; exact Hip | exact Hc0]. }
  assert (H2 : (Fin ip + cost sc <= Fin ip + cost sc + calculateTax cc (Fin ip))%js).
  { apply le_add_r; [apply add_isDouble | | exact Htax].
    eapply le_trans; [|exact H1]. apply le_Fin. exact Hip. }
  assert (Hd : (min couponDiscount (Fin ip) <= Fin ip)%js)
    by (apply min_le_r; [exact Hc | reflexivity]).
  apply sub_nonneg.
  - eapply le_trans; [exact Hd|]. eapply le_trans; [exact H1 | exact H2].
  - eapply le_trans; [|exact H2]. eapply le_trans; [|exact H1].
    apply le_Fin. exact Hip.
  - intros E. rewrite E in Hd. discriminate.
Qed.

Lemma order_totals_bounds_witness :
  ∃ t,
    calculateOrderTotals [{| it_price := decimal 12.99; it_qty := Fin 2 |};
                          {| it_price := Fin 4; it_qty := Fin 0 |}]
      (Some "UG"%string) "express" (Fin 1000) = Some t
    ∧ (tot_discount t <= tot_itemsPrice t)%js
    ∧ (isFinite (tot_itemsPrice t) = true → (Fin 0 <= tot_totalPrice t)%js).
Proof.
  apply (order_totals_bounds
           [{| it_price := decimal 12.99; it_qty := Fin 2 |};
            {| it_price := Fin 4; it_qty := Fin 0 |}]
           (Some "UG"%string) "express" (Fin 1000)).
  - right. reflexivity.
  - constructor; [repeat split; vm_compute; reflexivity|].
    constructor; [repeat split; vm_compute; reflexivity|]. constructor.
  - reflexivity.
Defined.

(** Beyond the largest double the bound on the total is lost: ten items
    at 1e308 overflow the subtotal to [Infinity], whose tax at rate 0 is
    [NaN], and so is the total. *)
Example overflowing_subtotal_has_no_total :
  ∃ t,
    calculateOrderTotals [{| it_price := decimal 1e308; it_qty := Fin 10 |}]
      (Some "US"%string) "standard" (Fin 0) = Some t
    ∧ tot_itemsPrice t = PosInf ∧ tot_taxPrice t = NaN ∧ tot_totalPrice t = NaN.
Proof. eexists. split; [vm_compute; reflexivity|]. repeat split. Qed.

End ShippingProperties.

(** ** Coupons *)

Section CouponProperties.
Import Js Schema Coupons Samples.

Lemma div100_nonneg a : (Fin 0 <= a)%js → (Fin 0 <= a / Fin 100)%js.
Proof.
  destruct a as [x| | |]; try discriminate; [|reflexivity].
  intros H. apply le_Fin in H. unfold div.
  change (Qeq_bool 100 0) with false. cbv iota. apply round64_nonneg.
  unfold Qdiv. apply Qmult_le_0_compat; [exact H | discriminate].
Qed.

Lemma not_gt_le a b :
  isNaN a = false → isNaN b = false → gtb a b = false → (a <= b)%js.
Proof.
  destruct a as [x| | |], b as [y| | |]; unfold gtb, le; simpl;
    try congruence.
  intros _ _ H. apply negb_false_iff in H. exact H.
Qed.

Lemma min_nonneg a b : (Fin 0 <= a)%js → (Fin 0 <= b)%js → (Fin 0 <= min a b)%js.
Proof.
  intros Ha Hb. destruct (le_not_NaN _ _ Ha) as [_ Na].
  destruct (le_not_NaN _ _ Hb) as [_ Nb].
  unfold min. rewrite Na, Nb. simpl. destruct (leb a b); assumption.
Qed.

(** X19.  For a coupon with a finite value that is not negative, a cap
    that is not negative and a finite order total that is not negative, the
    discount is never negative; a fixed coupon never gives more than the
    rounded order total nor more than its rounded value; a percentage
    coupon with a cap other than 0 never gives more than the rounded cap. *)
Theorem discount_bounds now c orderTotal :
  isFinite (discountValue c) = true → (Fin 0 <= discountValue c)%js →
  isFinite orderTotal = true → (Fin 0 <= orderTotal)%js →
  (∀ m, maxDiscountAmount c = Some m → (Fin 0 <= m)%js) →
  (Fin 0 <= calculateDiscount now c orderTotal)%js
  ∧ (discountType c = fixed →
     (calculateDiscount now c orderTotal <= toFixed2 orderTotal)%js
     ∧ (calculateDiscount now c orderTotal <= toFixed2 (discountValue c))%js)
  ∧ (discountType c = percentage →
     ∀ m, maxDiscountAmount c = Some m → falsy m = false →
     (calculateDiscount now c orderTotal <= toFixed2 m)%js).
Proof.
  intros Fv Hv Ft Ht Hcap. unfold calculateDiscount.
  assert (Hzero : (Fin 0 <= Fin 0)%js
                  ∧ (discountType c = fixed →
                     (Fin 0 <= toFixed2 orderTotal)%js
                     ∧ (Fin 0 <= toFixed2 (discountValue c))%js)
                  ∧ (discountType c = percentage →
                     ∀ m, maxDiscountAmount c = Some m → falsy m = false →
                     (Fin 0 <= toFixed2 m)%js)).
  { split; [reflexivity|]. split.
    - intros _. split; apply toFixed2_nonneg; assumption.
    - intros _ m Hm _. apply toFixed2_nonneg. eauto. }
  destruct (negb (isValid now c)); [exact Hzero|].
  destruct (ltb orderTotal (minOrderAmount c)); [exact Hzero|].
  clear Hzero.
  assert (Hpct : (Fin 0 <= orderTotal * discountValue c / Fin 100)%js).
  { apply div100_nonneg.
    destruct orderTotal as [t| | |]; try discriminate.
    destruct (discountValue c) as [v| | |]; try discriminate.
    apply le_Fin in Ht, Hv. apply mul_Fin_nonneg; assumption. }
  destruct (le_not_NaN _ _ Hpct) as [_ Npct].
  destruct (le_not_NaN _ _ Hv) as [_ Nv]. destruct (le_not_NaN _ _ Ht) as [_ Nt].
  destruct (discountType c).
  - split; [|split; [discriminate|]].
    + apply toFixed2_nonneg.
      destruct (maxDiscountAmount c) as [m|] eqn:Hm; [|exact Hpct].
      destruct (negb (falsy m) && gtb (orderTotal * discountValue c / Fin 100) m);
        [eauto | exact Hpct].
    + intros _ m Hm Hnz. rewrite Hm, Hnz. simpl. apply toFixed2_mono.
      destruct (le_not_NaN _ _ (Hcap m Hm)) as [_ Nm].
      destruct (gtb (orderTotal * discountValue c / Fin 100) m) eqn:E.
      * apply le_refl. exact Nm.
      * apply not_gt_le; assumption.
  - split; [|split; [|discriminate]].
    + apply toFixed2_nonneg, min_nonneg; assumption.
    + intros _. split; apply toFixed2_mono;
        [apply min_le_r | apply min_le_l]; assumption.
Qed.

Lemma discount_bounds_witness :
  (Fin 0 <= calculateDiscount 100 half5 (decimal 12.99))%js
  ∧ (discountType half5 = fixed →
     (calculateDiscount 100 half5 (decimal 12.99) <= toFixed2 (decimal 12.99))%js
     ∧ (calculateDiscount 100 half5 (decimal 12.99)
        <= toFixed2 (discountValue half5))%js)
  ∧ (discountType half5 = percentage →
     ∀ m, maxDiscountAmount half5 = Some m → falsy m = false →
     (calculateDiscount 100 half5 (decimal 12.99) <= toFixed2 m)%js).
Proof.
  apply (discount_bounds 100 half5 (decimal 12.99)).
  - reflexivity.
  - reflexivity.
  - vm_compute. reflexivity.
  - vm_compute. reflexivity.
  - intros m H. injection H as <-. reflexivity.
Defined.

(** Half of 12.99 is 6.495, over the cap: the discount is the cap; the same
    coupon gives 2.5 on a total of 4.99 (2.495 rounds up to 2.50). *)
Example capped_discount :
  calculateDiscount 100 half5 (decimal 12.99) = Fin 5
  ∧ calculateDiscount 100 half5 (decimal 4.99) = decimal 2.5.
Proof. split; vm_compute; reflexivity. Qed.

(** A code is found whatever its case and the white space around it. *)
Example padded_code_is_found :
  findValidByCode 100 " save10 " {[ "SAVE10"%string := save10 ]} = Some save10.
Proof. vm_compute. reflexivity. Qed.

(** What [applyCouponToOrder] does to the coupon collection. *)
Lemma applyCoupon_cases now couponCode userId orderId orderTotal
    (orders : gmap string Order) (coupons : gmap string Coupon) :
  let key := codeKey (default ""%string couponCode) in
  (applyCouponToOrder now couponCode userId orderId orderTotal orders coupons
   = Some (notApplied, coupons))
  ∨ ∃ c, coupons !! key = Some c ∧ isValid now c = true
         ∧ canBeUsedBy now c userId (countOrders userId orderId orders =? 0) = None
         ∧ applyCouponToOrder now couponCode userId orderId orderTotal orders coupons
           = if isNaN (calculateDiscount now c orderTotal) then None
             else Some
               ({| discount := calculateDiscount now c orderTotal; applied := true;
                   couponId := Some key |},
                <[key := recordUsage
                           {| use_user := userId; use_order := orderId;
                              use_discountApplied := calculateDiscount now c orderTotal |}
                           c]> coupons).
Proof.
  intros key. unfold applyCouponToOrder.
  destruct (truthyOpt couponCode); simpl; [|left; reflexivity].
  unfold findValidByCode. fold key.
  destruct (coupons !! key) as [c|] eqn:Hc; [|left; reflexivity].
  destruct (isValid now c) eqn:Hv; [|left; reflexivity].
  destruct (canBeUsedBy now c userId (countOrders userId orderId orders =? 0)) eqn:Hu;
    [left; reflexivity|].
  right. exists c. repeat split; assumption.
Qed.

(** X20.  When [applyCouponToOrder] returns, it either applied nothing and
    left every coupon as it is, or applied a coupon that is valid now: then
    exactly that coupon changes, its [usedCount] grows by one and its
    [usedBy] gains one entry naming the user, the order id given and the
    discount returned, which is a number. *)
Theorem coupon_use_is_recorded_once now couponCode userId orderId orderTotal
    (orders : gmap string Order) (coupons cs' : gmap string Coupon) r :
  applyCouponToOrder now couponCode userId orderId orderTotal orders coupons
  = Some (r, cs') →
  (applied r = false ∧ cs' = coupons ∧ discount r = Fin 0)
  ∨ (applied r = true
     ∧ ∃ key c c',
         coupons !! key = Some c ∧ isValid now c = true
         ∧ cs' = <[key := c']> coupons
         ∧ usedCount c' = usedCount c + 1
         ∧ usedBy c' = usedBy c ++ [{| use_user := userId; use_order := orderId;
                                       use_discountApplied := discount r |}]
         ∧ discount r = calculateDiscount now c orderTotal
         ∧ isNaN (discount r) = false
         ∧ code c' = code c ∧ isActive c' = isActive c).
Proof.
  intros H.
  destruct (applyCoupon_cases now couponCode userId orderId orderTotal orders coupons)
    as [E | (c & Hc & Hv & _ & E)]; rewrite E in H.
  - injection H as <- <-. left. repeat split.
  - destruct (isNaN (calculateDiscount now c orderTotal)) eqn:N; [discriminate|].
    injection H as <- <-.
    right. split; [reflexivity|]. eexists _, c, _.
    split; [exact Hc|]. split; [exact Hv|]. split; [reflexivity|].
    repeat split. exact N.
Qed.

Lemma coupon_use_is_recorded_once_witness :
  let cs : gmap string Coupon := {[ "SAVE10"%string := save10 ]} in
  let r := {| discount := Fin 5; applied := true;
              couponId := Some "SAVE10"%string |} in
  let cs' : gmap string Coupon :=
    <[ "SAVE10"%string :=
         recordUsage {| use_user := "u1"; use_order := None;
                        use_discountApplied := Fin 5 |} save10 ]> cs in
  (applied r = false ∧ cs' = cs ∧ discount r = Fin 0)
  ∨ (applied r = true
     ∧ ∃ key c c',
         cs !! key = Some c
         ∧ isValid 100 c = true
         ∧ cs' = <[key := c']> cs
         ∧ usedCount c' = usedCount c + 1
         ∧ usedBy c' = usedBy c ++ [{| use_user := "u1"; use_order := None;
                                       use_discountApplied := discount r |}]
         ∧ discount r = calculateDiscount 100 c (Fin 50)
         ∧ isNaN (discount r) = false
         ∧ code c' = code c ∧ isActive c' = isActive c).
Proof.
  intros cs r cs'.
  apply (coupon_use_is_recorded_once 100 (Some "save10"%string) "u1" None (Fin 50) ∅
           cs cs' r).
  vm_compute. reflexivity.
Defined.

Lemma uses_after_record userId u c :
  use_user u = userId →
  (1 ≤ length (filter (λ x, use_user x = userId) (usedBy (recordUsage u c))))%nat.
Proof.
  intros Hu. cbn [recordUsage usedBy]. rewrite filter_app, length_app.
  rewrite (filter_cons_True _ u []) by exact Hu. simpl. lia.
Qed.

(** X21.  A coupon limited to one use per user cannot be applied twice by the
    same user: after an application, a second [applyCouponToOrder] with the
    same code for that user, at any time and for any order, applies nothing
    and records nothing. *)
Theorem single_use_coupon_not_reusable now couponCode userId orderId orderTotal
    (orders : gmap string Order) (coupons cs' : gmap string Coupon) r c :
  coupons !! codeKey (default ""%string couponCode) = Some c →
  usageLimitPerUser c = 1 →
  applyCouponToOrder now couponCode userId orderId orderTotal orders coupons
  = Some (r, cs') →
  applied r = true →
  ∀ now2 orderId2 orderTotal2 (orders2 : gmap string Order),
    applyCouponToOrder now2 couponCode userId orderId2 orderTotal2 orders2 cs'
    = Some (notApplied, cs').
Proof.
  intros Hc Hlim H Happ now2 orderId2 orderTotal2 orders2.
  destruct (applyCoupon_cases now couponCode userId orderId orderTotal orders coupons)
    as [E | (c0 & Hc0 & _ & _ & E)]; rewrite E in H;
    [injection H as <- <-; discriminate|].
  destruct (isNaN (calculateDiscount now c0 orderTotal)); [discriminate|].
  injection H as <- <-.
  rewrite Hc in Hc0. injection Hc0 as <-.
  set (key := codeKey (default ""%string couponCode)).
  set (u := {| use_user := userId; use_order := orderId;
               use_discountApplied := calculateDiscount now c orderTotal |}).
  destruct (applyCoupon_cases now2 couponCode userId orderId2 orderTotal2 orders2
              (<[key := recordUsage u c]> coupons))
    as [E2 | (c2 & Hc2 & Hv2 & Hu2 & _)]; [exact E2|].
  exfalso. fold key in Hc2. rewrite lookup_insert_eq in Hc2. injection Hc2 as <-.
  unfold canBeUsedBy in Hu2. rewrite Hv2 in Hu2. simpl in Hu2.
  destruct (firstOrderOnly c && _); [discriminate|].
  destruct ((0 <? _) && _); [discriminate|].
  pose proof (uses_after_record userId u c eq_refl) as Hn.
  simpl in Hn. rewrite Hlim in Hu2.
  destruct (1 <=? Z.of_nat _) eqn:El; [discriminate|].
  apply Z.leb_gt in El. lia.
Qed.

Lemma single_use_coupon_not_reusable_witness :
  let cs : gmap string Coupon := {[ "SAVE10"%string := save10 ]} in
  let cs' : gmap string Coupon :=
    <[ "SAVE10"%string :=
         recordUsage {| use_user := "u1"; use_order := None;
                        use_discountApplied := Fin 5 |} save10 ]> cs in
  applyCouponToOrder 200 (Some "save10"%string) "u1" None (Fin 80) ∅ cs'
  = Some (notApplied, cs').
Proof.
  intros cs cs'.
  apply (single_use_coupon_not_reusable 100 (Some "save10"%string) "u1" None (Fin 50) ∅
           cs cs'
           {| discount := Fin 5; applied := true; couponId := Some "SAVE10"%string |}
           save10).
  - reflexivity.
  - reflexivity.
  - vm_compute. reflexivity.
  - reflexivity.
Defined.

(** X22.  A coupon that [validateCoupon] accepts for a user and an order
    total is applied by [applyCouponToOrder] for the same user and total,
    with the discount that was quoted; unless the quoted discount is [NaN],
    which cannot be recorded: [applyCouponToOrder] throws then. *)
Theorem quoted_discount_is_applied now couponCode orderTotal userId
    (orders : gmap string Order) (coupons : gmap string Coupon) k d :
  validateCoupon now couponCode orderTotal userId orders coupons = CouponValid k d →
  if isNaN d
  then applyCouponToOrder now couponCode userId None orderTotal orders coupons = None
  else ∃ r cs',
    applyCouponToOrder now couponCode userId None orderTotal orders coupons
    = Some (r, cs')
    ∧ applied r = true ∧ discount r = d.
Proof.
  unfold validateCoupon, applyCouponToOrder. intros H.
  destruct (truthyOpt couponCode); simpl in *; [|discriminate].
  destruct (findValidByCode now (default ""%string couponCode) coupons) as [c|];
    [|discriminate].
  destruct (canBeUsedBy now c userId (countOrders userId None orders =? 0));
    [discriminate|].
  destruct (ltb orderTotal (minOrderAmount c)); [discriminate|].
  injection H as _ <-.
  destruct (isNaN (calculateDiscount now c orderTotal)); [reflexivity|].
  eexists _, _. split; [reflexivity|]. split; reflexivity.
Qed.

Lemma quoted_discount_is_applied_witness :
  ∃ r cs',
    applyCouponToOrder 100 (Some "save10"%string) "u1" None (Fin 50) ∅
      {[ "SAVE10"%string := save10 ]} = Some (r, cs')
    ∧ applied r = true ∧ discount r = Fin 5.
Proof.
  apply (quoted_discount_is_applied 100 (Some "save10"%string) (Fin 50) "u1" ∅
           {[ "SAVE10"%string := save10 ]} "SAVE10" (Fin 5)).
  vm_compute. reflexivity.
Defined.

(** A discount that cannot be recorded: 0 percent of a subtotal that has
    overflowed is [NaN]; [validateCoupon] quotes it and [applyCouponToOrder]
    throws. *)
Example unrecordable_discount :
  let zero :=
    {| code := "ZERO"; discountType := percentage; discountValue := Fin 0;
       minOrderAmount := Fin 0; maxDiscountAmount := None; usageLimit := None;
       usageLimitPerUser := 1; usedCount := 0; validFrom := 0; validUntil := 1000;
       allowedUsers := []; firstOrderOnly := false; isActive := true;
       usedBy := [] |} in
  validateCoupon 100 (Some "zero"%string) PosInf "u1" ∅ {[ "ZERO"%string := zero ]}
  = CouponValid "ZERO" NaN
  ∧ applyCouponToOrder 100 (Some "zero"%string) "u1" None PosInf ∅
      {[ "ZERO"%string := zero ]} = None.
Proof. split; vm_compute; reflexivity. Qed.

(** X23.  After [deleteCoupon], whether the coupon was removed or, having
    been used, only deactivated, its code is no longer found by
    [findValidByCode] at any time; a used coupon keeps its usage history;
    and no other coupon changes. *)
Theorem deleted_coupon_unusable id (coupons : gmap string Coupon) :
  let cs' := (deleteCoupon id coupons).2 in
  (∀ now couponCode, codeKey couponCode = id →
     findValidByCode now couponCode cs' = None)
  ∧ (∀ c, coupons !! id = Some c → 0 < usedCount c →
       ∃ c', cs' !! id = Some c' ∧ usedBy c' = usedBy c
             ∧ usedCount c' = usedCount c)
  ∧ (∀ k, k ≠ id → cs' !! k = coupons !! k).
Proof.
  unfold deleteCoupon.
  destruct (coupons !! id) as [c|] eqn:Hc; simpl.
  - destruct (0 <? usedCount c) eqn:Hu; simpl.
    + repeat split.
      * intros now couponCode <-. unfold findValidByCode.
        rewrite lookup_insert_eq. reflexivity.
      * intros c0 H0 _. injection H0 as <-. rewrite lookup_insert_eq. eauto.
      * intros k Hk. apply lookup_insert_ne. congruence.
    + apply Z.ltb_ge in Hu. repeat split.
      * intros now couponCode <-. unfold findValidByCode.
        rewrite lookup_delete_eq. reflexivity.
      * intros c0 H0 Hpos. injection H0 as <-. lia.
      * intros k Hk. apply lookup_delete_ne. congruence.
  - repeat split.
    + intros now couponCode <-. unfold findValidByCode. rewrite Hc. reflexivity.
    + intros c0 H0. discriminate.
Qed.

End CouponProperties.

(** ** Operator actions and paging *)

Section OperatorProperties.
Import Js Schema Admin Samples.

Lemma applyStatusBody_keeps now b o :
  payment (applyStatusBody now b o) = payment o
  ∧ isPaid (applyStatusBody now b o) = isPaid o
  ∧ paidAt (applyStatusBody now b o) = paidAt o
  ∧ refund (applyStatusBody now b o) = refund o
  ∧ orderItems (applyStatusBody now b o) = orderItems o
  ∧ totalPrice (applyStatusBody now b o) = totalPrice o
  ∧ user (applyStatusBody now b o) = user o.
Proof.
  unfold applyStatusBody, whenSome.
  destruct (body_shippingStatus b), (body_trackingNumber b), (body_courier b);
    case_decide; repeat split.
Qed.

(** X24.  Operator actions never touch money: after [updateOrderStatus] or
    [markDelivered] every stored order has the payment, paid flag, refund,
    line items, total and owner it had before, orders other than the
    addressed one are unchanged, no order appears or disappears, and
    [markDelivered] leaves the status alone as well. *)
Theorem operator_actions_keep_payment now id b (orders : gmap string Order) k o :
  orders !! k = Some o →
  (∃ o', (updateOrderStatus now id b orders).2 !! k = Some o'
         ∧ payment o' = payment o ∧ isPaid o' = isPaid o ∧ refund o' = refund o
         ∧ orderItems o' = orderItems o ∧ totalPrice o' = totalPrice o
         ∧ user o' = user o ∧ (k ≠ id → o' = o))
  ∧ (∃ o', (markDelivered now id orders).2 !! k = Some o'
           ∧ payment o' = payment o ∧ isPaid o' = isPaid o ∧ refund o' = refund o
           ∧ orderItems o' = orderItems o ∧ totalPrice o' = totalPrice o
           ∧ user o' = user o ∧ status o' = status o ∧ (k ≠ id → o' = o)).
Proof.
  intros Hk. unfold updateOrderStatus, markDelivered.
  destruct (decide (k = id)) as [->|N].
  - rewrite Hk. simpl. rewrite !lookup_insert_eq.
    destruct (applyStatusBody_keeps now b o) as (H1 & H2 & _ & H4 & H5 & H6 & H7).
    split; eexists; (split; [reflexivity|]); repeat split; auto; contradiction.
  - destruct (orders !! id) as [oi|]; simpl;
      rewrite ?lookup_insert_ne by congruence;
      split; exists o; repeat split; assumption.
Qed.

Lemma operator_actions_keep_payment_witness :
  let o := Webhook.settle 7 (intent (Some 2457) (Some "usd"%string))
             (orderWith St_pending (boundPayment (Some 2457) (Some "usd"%string))) in
  let b := {| body_status := St_shipped; body_shippingStatus := Some "shipped"%string;
              body_trackingNumber := Some "TRK1"%string; body_courier := None |} in
  let os : gmap string Order := {[ oid := o ]} in
  (∃ o', (updateOrderStatus 20 oid b os).2 !! oid = Some o'
         ∧ payment o' = payment o ∧ isPaid o' = isPaid o ∧ refund o' = refund o
         ∧ orderItems o' = orderItems o ∧ totalPrice o' = totalPrice o
         ∧ user o' = user o ∧ (oid ≠ oid → o' = o))
  ∧ (∃ o', (markDelivered 20 oid os).2 !! oid = Some o'
           ∧ payment o' = payment o ∧ isPaid o' = isPaid o ∧ refund o' = refund o
           ∧ orderItems o' = orderItems o ∧ totalPrice o' = totalPrice o
           ∧ user o' = user o ∧ status o' = status o ∧ (oid ≠ oid → o' = o)).
Proof.
  intros o b os.
  apply (operator_actions_keep_payment 20 oid b os oid o). reflexivity.
Defined.

Lemma orNum_not_NaN a d : isNaN d = false → isNaN (orNum a d) = false.
Proof. intros H. unfold orNum. destruct a; simpl; try destruct (Qeq_bool _ _); auto. Qed.

Lemma max_ge_l a b : isNaN a = false → isNaN b = false → (a <= max a b)%js.
Proof.
  intros Na Nb. unfold max. rewrite Na, Nb. simpl.
  destruct (leb a b) eqn:E; [exact E | apply le_refl; exact Na].
Qed.

Lemma not_le_le a b :
  isNaN a = false → isNaN b = false → leb a b = false → (b <= a)%js.
Proof.
  destruct a as [x| | |], b as [y| | |]; unfold le; simpl; try congruence.
  intros _ _ H. apply Qle_bool_iff. apply Qle_bool_false in H. lra.
Qed.

(** X25.  Whatever the query holds, [buildPagination] returns a page of at
    least 1, a finite limit between 1 and 100 and a skip that is not
    negative; a value that does not parse gives page 1 and limit 20.  The
    skip is [(page - 1) * limit] in double arithmetic: it is that product
    itself when the product is an integer of at most 53 bits. *)
Theorem pagination_bounds pageParsed limitParsed :
  let p := buildPagination pageParsed limitParsed in
  (Fin 1 <= page p)%js
  ∧ (Fin 1 <= limit p)%js ∧ (limit p <= Fin 100)%js ∧ isFinite (limit p) = true
  ∧ (Fin 0 <= skip p)%js
  ∧ (pageParsed = NaN → page p = Fin 1)
  ∧ (limitParsed = NaN → limit p = Fin 20)
  ∧ (∀ n l : Z,
       page p = Fin (inject_Z n) → limit p = Fin (inject_Z l) →
       (n - 1) * l ≤ 2 ^ 53 →
       skip p = Fin (inject_Z ((n - 1) * l))).
Proof.
  unfold buildPagination. cbn [page limit skip].
  set (a := orNum pageParsed (Fin 1)). set (b := orNum limitParsed (Fin 20)).
  assert (Na : isNaN a = false) by (apply orNum_not_NaN; reflexivity).
  assert (Nb : isNaN b = false) by (apply orNum_not_NaN; reflexivity).
  assert (Hpage : (Fin 1 <= max (Fin 1) a)%js) by (apply max_ge_l; auto).
  assert (Hm : (Fin 1 <= max (Fin 1) b)%js) by (apply max_ge_l; auto).
  destruct (le_not_NaN _ _ Hm) as [_ Nm].
  set (m := max (Fin 1) b) in *.
  assert (Hlimit : (Fin 1 <= min (Fin 100) m)%js ∧ (min (Fin 100) m <= Fin 100)%js
                   ∧ ∃ l, min (Fin 100) m = Fin l ∧ (1 <= l)%Q).
  { unfold min. rewrite Nm. cbn [isNaN orb]. destruct (leb (Fin 100) m) eqn:E.
    - split; [reflexivity|]. split; [reflexivity|]. eexists. split; [reflexivity|].
      discriminate.
    - split; [exact Hm|]. split; [apply not_le_le; auto|].
      destruct m as [l| | |]; try discriminate.
      exists l. split; [reflexivity | apply le_Fin; exact Hm]. }
  destruct Hlimit as (Hl1 & Hl2 & l & El & Hl).
  split; [exact Hpage|]. split; [exact Hl1|]. split; [exact Hl2|].
  split; [rewrite El; reflexivity|].
  split; [|split; [|split]].
  - rewrite El. apply mul_nonneg_pos; [|lra].
    apply sub_nonneg; [exact Hpage | | discriminate].
    eapply le_trans; [|exact Hpage]. reflexivity.
  - intros ->. reflexivity.
  - intros E. unfold m, b. rewrite E. reflexivity.
  - intros n k En Ek Hnk. rewrite En in Hpage |- *. rewrite Ek in Hl1 |- *.
    apply le_Fin in Hpage, Hl1.
    change 1%Q with (inject_Z 1) in Hpage, Hl1.
    rewrite <- Zle_Qle in Hpage, Hl1.
    unfold sub, neg, add.
    rewrite (round64_comp (inject_Z n + - (1)) (inject_Z (n - 1)))
      by (unfold Z.sub; rewrite inject_Z_plus; reflexivity).
    rewrite round64_Z by nia.
    unfold mul. rewrite <- inject_Z_mult. apply round64_Z. nia.
Qed.

(** Beyond 53 bits the skip is a rounded product: page 9007199254740992 at
    limit 100. *)
Example pagination_beyond_53_bits :
  let p := buildPagination (decimal 9007199254740993) (Fin 100) in
  page p = Fin 9007199254740992
  ∧ skip p = Fin 900719925474099072
  ∧ (9007199254740992 - 1) * 100 = 900719925474099100.
Proof. repeat split; vm_compute; reflexivity. Qed.

End OperatorProperties.

(** ** Finished schedules *)

Section FinishedSchedules.
Import Js Schema Orders Interleaving Samples.

Lemma held_finished id atts :
  Forall finished atts → totalHeld id atts = sold id atts.
Proof.
  unfold totalHeld, sold. induction 1 as [|a atts Ha _ IH]; [reflexivity|].
  simpl. rewrite IH. f_equal.
  unfold finished, held in *. destruct (phase a); try contradiction; reflexivity.
Qed.

(** X26.  Once every request of a schedule has finished, placed or rejected,
    nothing is left held: the stock of each product is what it started with
    less exactly the quantities in the orders that were placed.  Rejected
    requests have given everything back. *)
Theorem finished_schedule_accounts ps0 reqs ps atts :
  map_Forall (λ _ p, 0 ≤ countInStock p) ps0 →
  rtc sstep (ps0, map start reqs) (ps, atts) →
  Forall finished atts →
  ∀ id, stockOf ps id = stockOf ps0 id - sold id atts.
Proof.
  intros Hnn Hrun Hfin id.
  destruct (rtc_balanced ps0 _ _ Hrun (start_balanced ps0 reqs Hnn)) as (Hsum & _ & _).
  specialize (Hsum id). simpl in Hsum.
  rewrite (held_finished id atts Hfin) in Hsum. lia.
Qed.

(** Two items reserved, a later step fails, both are given back. *)
Lemma rejected_schedule :
  let it1 := {| productId := pidA; qty := 1 |} in
  let it2 := {| productId := pidB; qty := 2 |} in
  let a0 := start ([line pidA 1; line pidB 2], false) in
  rtc sstep (products (shop 10 1 5), [a0])
            (products (shop 10 1 5), [moveTo a0 (Rejected OrderValidation)]).
Proof.
  intros it1 it2 a0.
  set (ps0 := products (shop 10 1 5)).
  set (a1 := moveTo a0 (Reserving [it2] ([] ++ [it1]))).
  set (a2 := moveTo a1 (Reserving [] (([] ++ [it1]) ++ [it2]))).
  set (a3 := moveTo a2 (Compensating ([it1] ++ it2 :: []) OrderValidation)).
  set (a4 := moveTo a3 (Compensating ([it1] ++ []) OrderValidation)).
  set (a5 := moveTo a4 (Compensating ([] ++ []) OrderValidation)).
  apply (rtc_l _ _ (products (shop 10 0 5), <[0%nat := a1]> [a0])).
  { apply (sstep_at ps0 _ [a0] 0 a0 a1); [reflexivity|].
    apply (step_reserve ps0 _ a0 it1 [it2] []);
      [reflexivity | reflexivity | vm_compute; reflexivity]. }
  apply (rtc_l _ _ (products (shop 10 0 3), <[0%nat := a2]> [a1])).
  { apply (sstep_at _ _ [a1] 0 a1 a2); [reflexivity|].
    apply (step_reserve _ _ a1 it2 [] ([] ++ [it1]));
      [reflexivity | reflexivity | vm_compute; reflexivity]. }
  apply (rtc_l _ _ (products (shop 10 0 3), <[0%nat := a3]> [a2])).
  { apply (sstep_at _ _ [a2] 0 a2 a3); [reflexivity|].
    apply (step_later_failure _ a2 (([] ++ [it1]) ++ [it2]) OrderValidation);
      reflexivity. }
  apply (rtc_l _ _ (restock (products (shop 10 0 3)) it2, <[0%nat := a4]> [a3])).
  { apply (sstep_at _ _ [a3] 0 a3 a4); [reflexivity|].
    apply (step_compensate _ a3 [it1] it2 [] OrderValidation). reflexivity. }
  apply (rtc_l _ _ (restock (restock (products (shop 10 0 3)) it2) it1,
                    <[0%nat := a5]> [a4])).
  { apply (sstep_at _ _ [a4] 0 a4 a5); [reflexivity|].
    apply (step_compensate _ a4 [] it1 [] OrderValidation). reflexivity. }
  apply (rtc_l _ _ (restock (restock (products (shop 10 0 3)) it2) it1,
                    <[0%nat := moveTo a5 (Rejected OrderValidation)]> [a5])).
  { apply (sstep_at _ _ [a5] 0 a5); [reflexivity|].
    apply (step_rejected _ a5 OrderValidation). reflexivity. }
  assert (E : restock (restock (products (shop 10 0 3)) it2) it1 = ps0)
    by (vm_compute; reflexivity).
  rewrite E. apply rtc_refl.
Defined.

Lemma finished_schedule_accounts_witness :
  let a0 := start ([line pidA 1; line pidB 2], false) in
  stockOf (products (shop 10 1 5)) pidB
  = stockOf (products (shop 10 1 5)) pidB
    - sold pidB [moveTo a0 (Rejected OrderValidation)].
Proof.
  intros a0.
  apply (λ H1 H2 H3,
           finished_schedule_accounts (products (shop 10 1 5))
             [([line pidA 1; line pidB 2], false)]
             (products (shop 10 1 5)) [moveTo a0 (Rejected OrderValidation)]
             H1 H2 H3 pidB).
  - unfold shop. simpl.
    apply map_Forall_insert_2; [simpl; lia|].
    apply map_Forall_insert_2; [simpl; lia|].
    apply map_Forall_empty.
  - exact rejected_schedule.
  - constructor; [exact I | constructor].
Defined.

End FinishedSchedules.
